(** * Mustafa-AI: the audio-response pipeline of [speak]

    A shallow embedding of the text-to-speech routine [speak] of the chat
    application (and of its helper [writeString]), together with the parts
    of the browser platform it drives: [DataView] writes into an
    [ArrayBuffer], typed-array copies, [HTMLAudioElement] playback, the
    native speech synthesizer and the promises the routine awaits. *)

From Stdlib Require Import ZArith Lia String Ascii DecimalString.
From stdpp Require Import base option list numbers gmap.

Local Open Scope Z_scope.
Local Set Warnings "-clear-no-such-hyp".

(** ** JavaScript strings and numbers

    A JavaScript string is its sequence of UTF-16 code units; the numbers
    the routine computes with are integers, kept as [Z]. *)

Abbreviation jsstring := (list Z) (only parsing).

Fixpoint js (s : string) : jsstring :=
  match s with
  | EmptyString => []
  | String c s' => Z.of_N (N_of_ascii c) :: js s'
  end.

(** [s.charCodeAt(i)]; [None] stands for [NaN] (index out of range). *)
Definition charCodeAt (s : jsstring) (i : nat) : option Z := s !! i.

(** [s.substring(start, end)]: both indices are clamped to [0, s.length]
    and swapped when [start > end]. *)
Definition substring (s : jsstring) (start end_ : Z) : jsstring :=
  let len := Z.of_nat (length s) in
  let a := Z.min (Z.max start 0) len in
  let b := Z.min (Z.max end_ 0) len in
  let from := Z.min a b in
  let to := Z.max a b in
  take (Z.to_nat (to - from)) (drop (Z.to_nat from) s).

(** ** ArrayBuffer, DataView and typed arrays *)

Module DataView.

(** The bytes of the underlying buffer, each in [0, 256). *)
Abbreviation ArrayBuffer := (list Z) (only parsing).

(** [new ArrayBuffer(n)]: [n] zero bytes. *)
Definition newArrayBuffer (n : nat) : ArrayBuffer := replicate n 0.

(** The conversion a [setUintN] applies to its value: modulo [2^N]. *)
Definition ToUint8 (v : Z) : Z := v mod 2 ^ 8.
Definition ToUint16 (v : Z) : Z := v mod 2 ^ 16.
Definition ToUint32 (v : Z) : Z := v mod 2 ^ 32.

(** Byte number [k] (counting from the least significant) of [v]. *)
Definition byteOf (k : nat) (v : Z) : Z := (v / 2 ^ (8 * Z.of_nat k)) mod 256.

(** The [n]-byte encoding of [v], in the requested byte order. *)
Definition rawBytes (n : nat) (v : Z) (littleEndian : bool) : list Z :=
  let le := (fun k => byteOf k v) <$> seq 0 n in
  if littleEndian then le else reverse le.

(** Store [bs] at consecutive positions from [off]. *)
Fixpoint storeBytes (view : ArrayBuffer) (off : nat) (bs : list Z) : ArrayBuffer :=
  match bs with
  | [] => view
  | b :: bs' => storeBytes (<[off := b]> view) (S off) bs'
  end.

(** A write of [n] bytes at [off] raises [RangeError] ([None]) when it
    does not fit in the buffer. *)
Definition setBytes (view : ArrayBuffer) (off n : nat) (bs : list Z) : option ArrayBuffer :=
  if (off + n <=? length view)%nat then Some (storeBytes view off bs) else None.

Definition setUint8 (view : ArrayBuffer) (byteOffset : nat) (value : Z) : option ArrayBuffer :=
  setBytes view byteOffset 1 (rawBytes 1 (ToUint8 value) true).

Definition setUint16 (view : ArrayBuffer) (byteOffset : nat) (value : Z)
    (littleEndian : bool) : option ArrayBuffer :=
  setBytes view byteOffset 2 (rawBytes 2 (ToUint16 value) littleEndian).

Definition setUint32 (view : ArrayBuffer) (byteOffset : nat) (value : Z)
    (littleEndian : bool) : option ArrayBuffer :=
  setBytes view byteOffset 4 (rawBytes 4 (ToUint32 value) littleEndian).

(** Reading back: the value of the bytes [bs], least significant first. *)
Fixpoint le_combine (bs : list Z) : Z :=
  match bs with
  | [] => 0
  | b :: bs' => b + 256 * le_combine bs'
  end.

Definition getBytes (view : ArrayBuffer) (off n : nat) (littleEndian : bool) : option Z :=
  if (off + n <=? length view)%nat then
    let bs := take n (drop off view) in
    Some (le_combine (if littleEndian then bs else reverse bs))
  else None.

Definition getUint16 (view : ArrayBuffer) (byteOffset : nat) (littleEndian : bool) :=
  getBytes view byteOffset 2 littleEndian.

Definition getUint32 (view : ArrayBuffer) (byteOffset : nat) (littleEndian : bool) :=
  getBytes view byteOffset 4 littleEndian.

End DataView.

Import DataView.

(** [writeString(view, offset, string)]: one [setUint8] per code unit. *)
Definition writeString (view : ArrayBuffer) (offset : nat) (string : jsstring)
    : option ArrayBuffer :=
  foldl (fun acc i => view ← acc;
                      setUint8 view (offset + i) (default 0 (charCodeAt string i)))
        (Some view) (seq 0 (length string)).

(** ** The container header built inside [speak]

    The three format constants are local constants of [speak]. *)

Definition sampleRate : Z := 24000.
Definition numChannels : Z := 1.
Definition bitsPerSample : Z := 16.

(** The 44-byte buffer [wavHeader] after the thirteen writes of [speak],
    for a decoded payload of [len] bytes.  [bitsPerSample / 8] is exact. *)
Definition wavHeader (len : Z) : option ArrayBuffer :=
  let view := newArrayBuffer 44 in
  view ← writeString view 0 (js "RIFF");
  view ← setUint32 view 4 (36 + len) true;
  view ← writeString view 8 (js "WAVE");
  view ← writeString view 12 (js "fmt ");
  view ← setUint32 view 16 16 true;
  view ← setUint16 view 20 1 true;
  view ← setUint16 view 22 numChannels true;
  view ← setUint32 view 24 sampleRate true;
  view ← setUint32 view 28 (sampleRate * numChannels * (bitsPerSample / 8)) true;
  view ← setUint16 view 32 (numChannels * (bitsPerSample / 8)) true;
  view ← setUint16 view 34 bitsPerSample true;
  view ← writeString view 36 (js "data");
  setUint32 view 40 len true.

(** ** Typed arrays *)

Module Uint8Array.

(** [new Uint8Array(n)]. *)
Definition new (n : nat) : list Z := replicate n 0.

(** [arr[i] = v]: the value is reduced modulo 256; a write outside the
    array is ignored. *)
Definition write (arr : list Z) (i : nat) (v : Z) : list Z := <[i := ToUint8 v]> arr.

(** [target.set(source, offset)]: [RangeError] ([None]) when the source
    does not fit. *)
Definition set (target source : list Z) (offset : nat) : option (list Z) :=
  setBytes target offset (length source) source.

End Uint8Array.

(** The loop of [speak] that copies the decoded binary string into
    [bytes]. *)
Definition bytesOfBinaryString (binaryString : jsstring) : list Z :=
  let len := length binaryString in
  foldl (fun bytes i => Uint8Array.write bytes i (default 0 (charCodeAt binaryString i)))
        (Uint8Array.new len) (seq 0 len).

(** [wavBytes]: a fresh array of [wavHeader.byteLength + len] bytes that
    receives the header at 0 and [bytes] right after it. *)
Definition wavBytesOf (wavHeader bytes : list Z) (len : nat) : option (list Z) :=
  let wavBytes := Uint8Array.new (length wavHeader + len) in
  wavBytes ← Uint8Array.set wavBytes wavHeader 0;
  Uint8Array.set wavBytes bytes (length wavHeader).

(** ** The platform: audio elements, speech synthesis, the TTS backend *)

Record Blob := mkBlob { blobBytes : list Z; blobType : jsstring }.

(** What an audio element is constructed from. *)
Inductive Url :=
| UrlText (s : jsstring)      (* a URL written out, here a [data:] URI *)
| UrlObject (b : Blob).       (* [URL.createObjectURL(b)] *)

Record Utterance := mkUtterance { utterText : jsstring; utterLang : jsstring }.

(** The request [speak] sends to the backend. *)
Record TtsRequest := mkTtsRequest {
  reqModel : jsstring;
  reqText : jsstring;
  reqVoiceName : jsstring
}.

(** The part of the response [speak] reads:
    [response.candidates?.[0]?.content?.parts?.[0]?.inlineData?.data]. *)
Record InlineData := mkInlineData { data : option jsstring }.
Record Part := mkPart { inlineData : option InlineData }.
Record Content := mkContent { parts : option (list Part) }.
Record Candidate := mkCandidate { content : option Content }.
Record GenerateContentResponse := mkResponse { candidates : option (list Candidate) }.

Inductive Error :=
| RequestError              (* the backend call rejected *)
| NotSupportedError         (* [audio.play()] rejected *)
| TypeError                 (* [new undefined()] *)
| InvalidCharacterError     (* [atob] on a string that is not base64 *)
| RangeError.               (* a write outside a buffer *)

Inductive Event :=
| EvPause (a : nat)
| EvCancel
| EvGenerateContent (req : TtsRequest)
| EvNewAudio (a : nat) (src : Url)
| EvPlay (a : nat)
| EvConsoleLog (msg : jsstring)
| EvConsoleError (msg : jsstring) (e : Error)
| EvNewAudioContext
| EvAtob (s : jsstring)
| EvCreateObjectURL (b : Blob)
| EvSpeak (u : Utterance).

(** The state [speak] acts on.  Audio elements are numbered in the order
    of their creation. *)
Record World := mkWorld {
  audioRef : option nat;         (* [audioRef.current] *)
  audios : list Url;             (* the audio elements created so far *)
  playing : gset nat;            (* the elements that are playing *)
  utterances : list Utterance;   (* the queue of the native synthesizer *)
  trace : list Event             (* what was done, oldest first *)
}.

(** What the host offers. *)
Record Platform := mkPlatform {
  hasSpeechSynthesis : bool;               (* ['speechSynthesis' in window] *)
  hasAudioContext : bool;                  (* [AudioContext] can be constructed *)
  atob : jsstring -> option jsstring       (* [None]: [InvalidCharacterError] *)
}.

(** ** Asynchronous routines

    An [async] function runs until it returns, throws, or reaches an
    [await]; there it is suspended on a promise and resumed, later, with
    the way the promise settled. *)

Inductive Promise : Type -> Type :=
| GenerateContent (req : TtsRequest) : Promise GenerateContentResponse
| Play (a : nat) : Promise unit.

Inductive Outcome (B : Type) : Type :=
| Resolved (b : B)
| Rejected (e : Error).
Arguments Resolved {B} b.
Arguments Rejected {B} e.

Inductive Res (A : Type) : Type :=
| Done (w : World) (a : A)
| Fail (w : World) (e : Error)
| Susp (w : World) (B : Type) (p : Promise B) (k : Outcome B -> World -> Res A).
Arguments Done {A} w a.
Arguments Fail {A} w e.
Arguments Susp {A} w {B} p k.

Definition Prog (A : Type) : Type := World -> Res A.

Module Async.

Definition ret {A} (a : A) : Prog A := fun w => Done w a.

Definition throw {A} (e : Error) : Prog A := fun w => Fail w e.

Fixpoint bindRes {A B} (r : Res A) (f : A -> Prog B) : Res B :=
  match r with
  | Done w a => f a w
  | Fail w e => Fail w e
  | Susp w p k => Susp w p (fun o w' => bindRes (k o w') f)
  end.

Definition bind {A B} (m : Prog A) (f : A -> Prog B) : Prog B :=
  fun w => bindRes (m w) f.

(** [try { m } catch (e) { h e }]. *)
Fixpoint catchRes {A} (r : Res A) (h : Error -> Prog A) : Res A :=
  match r with
  | Done w a => Done w a
  | Fail w e => h e w
  | Susp w p k => Susp w p (fun o w' => catchRes (k o w') h)
  end.

Definition tryCatch {A} (m : Prog A) (h : Error -> Prog A) : Prog A :=
  fun w => catchRes (m w) h.

(** [await p]: a rejection is rethrown where the routine resumes. *)
Definition await {B} (p : Promise B) : Prog B :=
  fun w => Susp w p (fun o w' =>
    match o with
    | Resolved b => Done w' b
    | Rejected e => Fail w' e
    end).

Definition get : Prog World := fun w => Done w w.

Definition modify (f : World -> World) : Prog unit := fun w => Done (f w) tt.

(** A fallible pure computation; [None] raises [e]. *)
Definition orThrow {A} (e : Error) (o : option A) : Prog A :=
  match o with
  | Some a => ret a
  | None => throw e
  end.

End Async.

Import Async.

#[global] Instance Prog_ret : MRet Prog := @ret.
#[global] Instance Prog_bind : MBind Prog := fun A B f m => bind m f.

(** *** Primitive effects *)

Definition emit (ev : Event) (w : World) : World :=
  mkWorld (audioRef w) (audios w) (playing w) (utterances w) (trace w ++ [ev]).

(** [audioRef.current = r]. *)
Definition setAudioRef (r : option nat) : Prog unit :=
  modify (fun w => mkWorld r (audios w) (playing w) (utterances w) (trace w)).

(** [a.pause()]. *)
Definition pause (a : nat) : Prog unit :=
  modify (fun w =>
    emit (EvPause a)
      (mkWorld (audioRef w) (audios w) (playing w ∖ {[a]}) (utterances w) (trace w))).

(** [window.speechSynthesis.cancel()]: the queue is emptied. *)
Definition cancel : Prog unit :=
  modify (fun w =>
    emit EvCancel (mkWorld (audioRef w) (audios w) (playing w) [] (trace w))).

(** [window.speechSynthesis.speak(u)]. *)
Definition speechSynthesis_speak (u : Utterance) : Prog unit :=
  modify (fun w =>
    emit (EvSpeak u)
      (mkWorld (audioRef w) (audios w) (playing w) (utterances w ++ [u]) (trace w))).

(** [new Audio(src)]; the result is the number of the new element. *)
Definition newAudio (src : Url) : Prog nat :=
  w ← get;
  let a := length (audios w) in
  modify (fun w =>
    emit (EvNewAudio a src)
      (mkWorld (audioRef w) (audios w ++ [src]) (playing w) (utterances w) (trace w))) ;;
  ret a.

(** [audio.play()]: the call, and the promise it returns. *)
Definition play (a : nat) : Prog unit :=
  modify (emit (EvPlay a)) ;;
  await (Play a).

(** [ai.models.generateContent(req)]. *)
Definition generateContent (req : TtsRequest) : Prog GenerateContentResponse :=
  modify (emit (EvGenerateContent req)) ;;
  await (GenerateContent req).

Definition console_log (msg : jsstring) : Prog unit := modify (emit (EvConsoleLog msg)).

Definition console_error (msg : jsstring) (e : Error) : Prog unit :=
  modify (emit (EvConsoleError msg e)).

(** *** [speak] *)

(** [MODELS.TTS] of [lib/gemini]. *)
Definition MODELS_TTS : jsstring := js "gemini-2.5-flash-preview-tts".

(** [response.candidates?.[0]?.content?.parts?.[0]?.inlineData?.data]. *)
Definition base64AudioOf (response : GenerateContentResponse) : option jsstring :=
  cs ← candidates response;
  c ← head cs;
  ct ← content c;
  ps ← parts ct;
  p ← head ps;
  d ← inlineData p;
  data d.

(** The request of a call: the model, the text cut to 300 code units, and
    the voice. *)
Definition ttsRequestOf (text : jsstring) : TtsRequest :=
  mkTtsRequest MODELS_TTS (substring text 0 300) (js "Zephyr").

(** The template literal [`data:audio/wav;base64,${base64Audio}`]. *)
Definition dataUri (base64Audio : jsstring) : Url :=
  UrlText (js "data:audio/wav;base64," ++ base64Audio).

(** The message logged when direct playback has failed. *)
Definition directFailedMsg : jsstring :=
  js "Direct playback failed, trying PCM decoding...".

Section Speak.

Variable P : Platform.

(** "Stop any existing audio", then cancel native speech. *)
Definition stopExisting : Prog unit :=
  w ← get;
  (match audioRef w with
   | Some a => pause a ;; setAudioRef None
   | None => ret tt
   end) ;;
  if hasSpeechSynthesis P then cancel else ret tt.

(** The [try] block around direct playback. *)
Definition playDirect (base64Audio : jsstring) : Prog unit :=
  audio ← newAudio (dataUri base64Audio);
  play audio ;;
  setAudioRef (Some audio).

(** Its [catch] block: decode, put a header in front, play the blob. *)
Definition playDecoded (base64Audio : jsstring) : Prog unit :=
  console_log directFailedMsg ;;
  modify (emit EvNewAudioContext) ;;
  (if hasAudioContext P then ret tt else throw TypeError) ;;
  modify (emit (EvAtob base64Audio)) ;;
  binaryString ← orThrow InvalidCharacterError (atob P base64Audio);
  let len := length binaryString in
  let bytes := bytesOfBinaryString binaryString in
  wavHeader ← orThrow RangeError (wavHeader (Z.of_nat len));
  wavBytes ← orThrow RangeError (wavBytesOf wavHeader bytes len);
  let blob := mkBlob wavBytes (js "audio/wav") in
  modify (emit (EvCreateObjectURL blob)) ;;
  audio ← newAudio (UrlObject blob);
  play audio ;;
  setAudioRef (Some audio).

(** The statement [if (base64Audio) { try { ... } catch (e) { ... } }]:
    an absent payload and the empty string are both falsy. *)
Definition playPayload (base64Audio : option jsstring) : Prog unit :=
  match base64Audio with
  | Some (c :: s) =>
      tryCatch (playDirect (c :: s)) (fun _ => playDecoded (c :: s))
  | _ => ret tt
  end.

(** The body of the outer [try]. *)
Definition speakTry (text : jsstring) : Prog unit :=
  stopExisting ;;
  response ← generateContent (ttsRequestOf text);
  playPayload (base64AudioOf response).

(** The outer [catch]: "Fallback to browser TTS". *)
Definition speakCatch (text : jsstring) (error : Error) : Prog unit :=
  console_error (js "TTS Error:") error ;;
  if hasSpeechSynthesis P
  then speechSynthesis_speak (mkUtterance text (js "ar-SA"))
  else ret tt.

Definition speak (text : jsstring) : Prog unit :=
  tryCatch (speakTry text) (speakCatch text).

End Speak.

(** ** Running [speak]

    How the awaited promises settle is not in the hands of [speak]: the
    backend answers or fails, and the host accepts or rejects a media
    resource. *)

Record Oracle := mkOracle {
  ttsAnswer : TtsRequest -> Outcome GenerateContentResponse;
  canPlay : Url -> bool
}.

Definition outcomeOf (O : Oracle) (w : World) {B} (p : Promise B) : Outcome B :=
  match p with
  | GenerateContent req => ttsAnswer O req
  | Play a =>
      match audios w !! a with
      | Some src => if canPlay O src then Resolved tt else Rejected NotSupportedError
      | None => Rejected NotSupportedError
      end
  end.

(** What the settlement itself does to the world: the promise of
    [play()] resolves once playback has started. *)
Definition settle {B} (p : Promise B) (o : Outcome B) (w : World) : World :=
  match p with
  | Play a =>
      match o with
      | Resolved _ =>
          mkWorld (audioRef w) (audios w) ({[a]} ∪ playing w) (utterances w) (trace w)
      | Rejected _ => w
      end
  | GenerateContent _ => w
  end.

(** One call run to its end, with nothing else happening meanwhile. *)
Fixpoint run {A} (O : Oracle) (r : Res A) : World * (A + Error) :=
  match r with
  | Done w a => (w, inl a)
  | Fail w e => (w, inr e)
  | Susp w p k =>
      let o := outcomeOf O w p in
      run O (k o (settle p o w))
  end.

(** *** Calls that overlap

    [speak] is never awaited by its callers (the send handler and the
    library's listen button), so a call can start while earlier ones are
    suspended.  Between two [await]s a call runs without interruption. *)

Record Suspended := mkSuspended {
  awaited : Type;
  promise : Promise awaited;
  resume : Outcome awaited -> World -> Res unit
}.

Record Config := mkConfig {
  world : World;
  suspended : list Suspended
}.

Inductive Action :=
| Call (text : jsstring)     (* a caller invokes [speak(text)] *)
| Settle (i : nat).          (* the promise of suspended call [i] settles *)

Definition park (r : Res unit) (others : list Suspended) : Config :=
  match r with
  | Done w _ => mkConfig w others
  | Fail w _ => mkConfig w others
  | Susp w p k => mkConfig w (others ++ [mkSuspended _ p k])
  end.

Definition step (P : Platform) (O : Oracle) (a : Action) (c : Config) : option Config :=
  match a with
  | Call text => Some (park (speak P text (world c)) (suspended c))
  | Settle i =>
      match suspended c !! i with
      | Some s =>
          let o := outcomeOf O (world c) (promise s) in
          Some (park (resume s o (settle (promise s) o (world c))) (delete i (suspended c)))
      | None => None
      end
  end.

Fixpoint steps (P : Platform) (O : Oracle) (acts : list Action) (c : Config) : option Config :=
  match acts with
  | [] => Some c
  | a :: acts' =>
      match step P O a c with
      | Some c' => steps P O acts' c'
      | None => None
      end
  end.

Definition initialWorld : World := mkWorld None [] ∅ [] [].

(** The number of promises a routine waits for before it ends. *)
Fixpoint awaits {A} (O : Oracle) (r : Res A) : nat :=
  match r with
  | Done _ _ => 0
  | Fail _ _ => 0
  | Susp w p k =>
      let o := outcomeOf O w p in
      S (awaits O (k o (settle p o w)))
  end.

(** Calls made one after the other, each run to its end. *)
Fixpoint speakAll (P : Platform) (O : Oracle) (texts : list jsstring) (w : World) : World :=
  match texts with
  | [] => w
  | text :: texts' => speakAll P O texts' (run O (speak P text w)).1
  end.

(** * What a run leaves behind

    The worlds and results the statements below are about. *)

(** The header byte by byte, for a payload of [len] bytes. *)
Definition headerBytes (len : Z) : list Z :=
  [ 82; 73; 70; 70;
    byteOf 0 (ToUint32 (36 + len)); byteOf 1 (ToUint32 (36 + len));
    byteOf 2 (ToUint32 (36 + len)); byteOf 3 (ToUint32 (36 + len));
    87; 65; 86; 69;
    102; 109; 116; 32;
    16; 0; 0; 0;
    1; 0;
    1; 0;
    192; 93; 0; 0;
    128; 187; 0; 0;
    2; 0;
    16; 0;
    100; 97; 116; 97;
    byteOf 0 (ToUint32 len); byteOf 1 (ToUint32 len);
    byteOf 2 (ToUint32 len); byteOf 3 (ToUint32 len) ].

(** What the first statements of [speak] do and leave behind. *)
Definition stopEvents (P : Platform) (w : World) : list Event :=
  match audioRef w with Some a => [EvPause a] | None => [] end
  ++ (if hasSpeechSynthesis P then [EvCancel] else []).

Definition afterStop (P : Platform) (w : World) : World :=
  mkWorld None (audios w)
    (match audioRef w with Some a => playing w ∖ {[a]} | None => playing w end)
    (if hasSpeechSynthesis P then [] else utterances w)
    (trace w ++ stopEvents P w).

Definition afterRequest (P : Platform) (text : jsstring) (w : World) : World :=
  emit (EvGenerateContent (ttsRequestOf text)) (afterStop P w).

Definition afterCatch (P : Platform) (text : jsstring) (e : Error) (w : World) : World :=
  let u := mkUtterance text (js "ar-SA") in
  mkWorld (audioRef w) (audios w) (playing w)
    (if hasSpeechSynthesis P then utterances w ++ [u] else utterances w)
    (trace w ++ EvConsoleError (js "TTS Error:") e
             :: (if hasSpeechSynthesis P then [EvSpeak u] else [])).

(** The world once [new Audio(src)] and its [play()] have been called,
    and once that element plays and is the current one. *)
Definition started (src : Url) (w : World) : World :=
  let a := length (audios w) in
  mkWorld (audioRef w) (audios w ++ [src]) (playing w) (utterances w)
    (trace w ++ [EvNewAudio a src; EvPlay a]).

Definition nowPlaying (a : nat) (w : World) : World :=
  mkWorld (Some a) (audios w) ({[a]} ∪ playing w) (utterances w) (trace w).

Definition logged (evs : list Event) (w : World) : World :=
  mkWorld (audioRef w) (audios w) (playing w) (utterances w) (trace w ++ evs).

(** The blob [speak] makes of a decoded binary string. *)
Definition wavBlob (binaryString : jsstring) : Blob :=
  mkBlob (headerBytes (Z.of_nat (length binaryString)) ++ bytesOfBinaryString binaryString)
         (js "audio/wav").


(** The world when direct playback has been attempted. *)
Definition directTried (base64Audio : jsstring) (w : World) : World :=
  started (dataUri base64Audio) w.

(** The world when playback of the blob has been attempted. *)
Definition decodedTried (base64Audio : jsstring) (w : World) (binaryString : jsstring)
    : World :=
  started (UrlObject (wavBlob binaryString))
    (logged [EvConsoleLog directFailedMsg; EvNewAudioContext; EvAtob base64Audio;
             EvCreateObjectURL (wavBlob binaryString)] (directTried base64Audio w)).

(** *** Every way the playback block can end *)

Inductive PlayResult (P : Platform) (O : Oracle) (w : World)
  : option jsstring -> World * (unit + Error) -> Prop :=
| PlayNothing (b : option jsstring) :
    b = None \/ b = Some [] ->
    PlayResult P O w b (w, inl tt)
| PlayedDirect (b64 : jsstring) :
    b64 <> [] ->
    canPlay O (dataUri b64) = true ->
    PlayResult P O w (Some b64) (nowPlaying (length (audios w)) (directTried b64 w), inl tt)
| NoContext (b64 : jsstring) :
    b64 <> [] ->
    canPlay O (dataUri b64) = false ->
    hasAudioContext P = false ->
    PlayResult P O w (Some b64)
      (logged [EvConsoleLog directFailedMsg; EvNewAudioContext] (directTried b64 w),
       inr TypeError)
| BadBase64 (b64 : jsstring) :
    b64 <> [] ->
    canPlay O (dataUri b64) = false ->
    hasAudioContext P = true ->
    atob P b64 = None ->
    PlayResult P O w (Some b64)
      (logged [EvConsoleLog directFailedMsg; EvNewAudioContext; EvAtob b64]
              (directTried b64 w),
       inr InvalidCharacterError)
| PlayedDecoded (b64 bin : jsstring) :
    b64 <> [] ->
    canPlay O (dataUri b64) = false ->
    hasAudioContext P = true ->
    atob P b64 = Some bin ->
    canPlay O (UrlObject (wavBlob bin)) = true ->
    PlayResult P O w (Some b64)
      (nowPlaying (S (length (audios w))) (decodedTried b64 w bin), inl tt)
| DecodedRejected (b64 bin : jsstring) :
    b64 <> [] ->
    canPlay O (dataUri b64) = false ->
    hasAudioContext P = true ->
    atob P b64 = Some bin ->
    canPlay O (UrlObject (wavBlob bin)) = false ->
    PlayResult P O w (Some b64) (decodedTried b64 w bin, inr NotSupportedError).

(** Whatever plays is the current element, and nothing plays while the
    native synthesizer has something to say. *)
Definition exclusive (P : Platform) (w : World) : Prop :=
  (forall a, a ∈ playing w -> audioRef w = Some a) /\
  (playing w ≠ ∅ -> utterances w = []) /\
  (hasSpeechSynthesis P = false -> utterances w = []).

(** ** A host to run the examples on *)

Module Base64.

(** The value of a character of the base64 alphabet. *)
Definition sextet (c : Z) : option Z :=
  if (65 <=? c) && (c <=? 90) then Some (c - 65)
  else if (97 <=? c) && (c <=? 122) then Some (c - 71)
  else if (48 <=? c) && (c <=? 57) then Some (c + 4)
  else if c =? 43 then Some 62
  else if c =? 47 then Some 63
  else None.

Definition isWhitespace (c : Z) : bool :=
  (c =? 9) || (c =? 10) || (c =? 12) || (c =? 13) || (c =? 32).

(** With a length that is a multiple of four, one or two final [=] are
    dropped. *)
Definition stripPadding (s : list Z) : list Z :=
  if (length s mod 4 =? 0)%nat then
    match reverse s with
    | 61 :: 61 :: r => reverse r
    | 61 :: r => reverse r
    | _ => s
    end
  else s.

(** Four sextets give three bytes; a rest of three gives two bytes and a
    rest of two gives one, the surplus bits being dropped. *)
Fixpoint bytesOfSextets (ss : list Z) : list Z :=
  match ss with
  | a :: b :: c :: d :: rest =>
      let n := ((a * 64 + b) * 64 + c) * 64 + d in
      n / 65536 :: (n / 256) mod 256 :: n mod 256 :: bytesOfSextets rest
  | [a; b; c] =>
      let n := ((a * 64 + b) * 64 + c) / 4 in
      [n / 256; n mod 256]
  | [a; b] => [(a * 64 + b) / 16]
  | _ => []
  end.

(** [window.atob], after the forgiving base64 decoding of the HTML
    standard; [None] is its [InvalidCharacterError]. *)
Definition atob (data : jsstring) : option jsstring :=
  let s := stripPadding (filter (fun c => isWhitespace c = false) data) in
  if (length s mod 4 =? 1)%nat then None
  else bytesOfSextets <$> mapM sextet s.

End Base64.

(** A browser with speech synthesis and an [AudioContext]. *)
Definition browser : Platform := mkPlatform true true Base64.atob.

(** A response carrying [d] as its inline data. *)
Definition responseWith (d : option jsstring) : GenerateContentResponse :=
  mkResponse (Some [mkCandidate (Some (mkContent (Some [mkPart (Some (mkInlineData d))])))]).

(** Ten raw sample bytes, 0 to 9, in base64. *)
Definition tenBytes : jsstring := js "AAECAwQFBgcICQ==".

(** The backend answers with raw samples; the host plays blobs but not
    the headerless data URI. *)
Definition rawOracle : Oracle :=
  mkOracle (fun _ => Resolved (responseWith (Some tenBytes)))
           (fun src => match src with UrlText _ => false | UrlObject _ => true end).

(** The backend answers with audio the host plays as it is. *)
Definition wavOracle : Oracle :=
  mkOracle (fun _ => Resolved (responseWith (Some tenBytes))) (fun _ => true).

(** Nothing the backend sends can be played. *)
Definition deafOracle : Oracle :=
  mkOracle (fun _ => Resolved (responseWith (Some tenBytes))) (fun _ => false).

(** The backend is down. *)
Definition downOracle : Oracle :=
  mkOracle (fun _ => Rejected RequestError) (fun _ => true).

(** The backend answers without audio. *)
Definition muteOracle : Oracle :=
  mkOracle (fun _ => Resolved (responseWith None)) (fun _ => true).

(** A world in which element 0 plays and the synthesizer is speaking. *)
Definition busyWorld : World :=
  mkWorld (Some 0%nat) [dataUri tenBytes] {[0%nat]} [mkUtterance (js "old") (js "ar-SA")] [].

(** Two calls, the second made while the first waits for the backend, and
    the settlements that follow. *)
Definition overlap : list Action :=
  [Call (js "one"); Call (js "two"); Settle 0; Settle 1; Settle 0; Settle 0].

(** * The rest of the application

    The lessons library, the voice input and the text helpers of the send
    handler. *)

(** ** Text written in the source

    The literals of the source hold Arabic text; here they are written as
    they are there and turned from UTF-8 into UTF-16 code units. *)

Fixpoint utf16OfBytes (bs : list Z) : jsstring :=
  match bs with
  | [] => []
  | b :: rest =>
      if b <? 128 then b :: utf16OfBytes rest
      else if b <? 224 then
        match rest with
        | b1 :: rest' => (b mod 32) * 64 + b1 mod 64 :: utf16OfBytes rest'
        | _ => [65533]
        end
      else if b <? 240 then
        match rest with
        | b1 :: b2 :: rest' =>
            ((b mod 16) * 64 + b1 mod 64) * 64 + b2 mod 64 :: utf16OfBytes rest'
        | _ => [65533]
        end
      else
        match rest with
        | b1 :: b2 :: b3 :: rest' =>
            let cp := (((b mod 8) * 64 + b1 mod 64) * 64 + b2 mod 64) * 64 + b3 mod 64 in
            55296 + (cp - 65536) / 1024 :: 56320 + (cp - 65536) mod 1024
            :: utf16OfBytes rest'
        | _ => [65533]
        end
  end.

Definition utf16 (s : string) : jsstring := utf16OfBytes (js s).

(** ** String methods *)

(** The code units [trim] removes: white space and line terminators. *)
Definition isWhiteSpace (c : Z) : bool :=
  (c =? 9) || (c =? 10) || (c =? 11) || (c =? 12) || (c =? 13) || (c =? 32)
  || (c =? 160) || (c =? 5760) || ((8192 <=? c) && (c <=? 8202))
  || (c =? 8232) || (c =? 8233) || (c =? 8239) || (c =? 8287) || (c =? 12288)
  || (c =? 65279).

Fixpoint trimStart (s : jsstring) : jsstring :=
  match s with
  | [] => []
  | c :: s' => if isWhiteSpace c then trimStart s' else s
  end.

Definition trimEnd (s : jsstring) : jsstring := reverse (trimStart (reverse s)).

(** [s.trim()]. *)
Definition trim (s : jsstring) : jsstring := trimEnd (trimStart s).

(** [s.startsWith(p)]. *)
Fixpoint startsWith (s p : jsstring) {struct p} : bool :=
  match p, s with
  | [], _ => true
  | _ :: _, [] => false
  | c :: p', d :: s' => (c =? d) && startsWith s' p'
  end.

(** [a === b] on strings. *)
Definition strictEq (a b : jsstring) : bool := bool_decide (a = b).

(** ** The lessons library *)

(** The text fields come from the parsed answer of the backend: each is a
    string or, when the answer lacks it, [undefined] ([None]). *)
Record LessonData := mkLesson {
  english : option jsstring;
  example_en : option jsstring;
  example_ar : option jsstring;
  image_prompt : option jsstring;
  image_url : option jsstring;
  timestamp : Z
}.

(** [addToLibrary(lesson)]: [library] is the list the handler was rendered
    with; the result is the update it hands to [setLibrary] (the identity
    when it returns early). *)
Definition addToLibrary (library : list LessonData) (lesson : LessonData)
    : list LessonData -> list LessonData :=
  if existsb (fun l => bool_decide (english l = english lesson)) library
  then fun prev => prev
  else fun prev => lesson :: prev.

(** [removeFromLibrary(timestamp)]: the update it hands to [setLibrary]. *)
Definition removeFromLibrary (ts : Z) : list LessonData -> list LessonData :=
  fun prev => filter (fun l => timestamp l ≠ ts) prev.

(** ** Voice input *)

Definition teachWord : jsstring := utf16 "علمني".
Definition drawWord : jsstring := utf16 "ارسم".

(** The update [recognition.onresult] hands to [setInput]: [prev] is what
    the input box holds, [transcript] what was heard. *)
Definition onTranscript (transcript prev : jsstring) : jsstring :=
  let trimmed := trim prev in
  if strictEq trimmed (utf16 "علمني:") || strictEq trimmed (utf16 "علمني") then
    if startsWith (trim transcript) (utf16 "علمني") then transcript
    else utf16 "علمني: " ++ transcript
  else if strictEq trimmed (utf16 "ارسم لي") || strictEq trimmed (utf16 "ارسم لي:") then
    if startsWith (trim transcript) (utf16 "ارسم") then transcript
    else utf16 "ارسم لي " ++ transcript
  else transcript.

Definition drawButtonInput : jsstring := utf16 "ارسم لي ".

(** ** The send handler: what it does with the text *)

(** [textOverride || input]. *)
Definition textToSend (textOverride : option jsstring) (input : jsstring) : jsstring :=
  match textOverride with
  | Some (c :: s) => c :: s
  | _ => input
  end.

(** The guard [(!text.trim() && !selectedImage) || isProcessing]: when it
    holds the handler returns at once. *)
Definition refusesToSend (text : jsstring) (selectedImage : option jsstring)
    (isProcessing : bool) : bool :=
  let noText := match trim text with [] => true | _ => false end in
  let noImage := match selectedImage with Some (_ :: _) => false | _ => true end in
  (noText && noImage) || isProcessing.

(** The test for the teaching mode. *)
Definition isTeachRequest (text : jsstring) : bool :=
  startsWith (trim text) (utf16 "علمني:") || startsWith (trim text) (utf16 "علمني").

(** [text.replace(/^علمني:?/, '')]: the word at the very start of the
    text, and a colon right after it, are removed. *)
Definition stripTeachWord (text : jsstring) : jsstring :=
  if startsWith text (utf16 "علمني") then
    match drop (length (utf16 "علمني")) text with
    | 58 :: rest => rest
    | rest => rest
    end
  else text.

(** [term]. *)
Definition teachTerm (text : jsstring) : jsstring := trim (stripTeachWord text).

(** ** More string methods *)

(** [s.includes(p)]. *)
Fixpoint includes (s p : jsstring) {struct s} : bool :=
  startsWith s p
  || match s with
     | [] => false
     | _ :: s' => includes s' p
     end.

(** [s.split(sep)] for a separator of one code unit. *)
Fixpoint splitOn (sep : Z) (s : jsstring) : list jsstring :=
  match s with
  | [] => [[]]
  | c :: s' =>
      if c =? sep then [] :: splitOn sep s'
      else match splitOn sep s' with
           | h :: t => (c :: h) :: t
           | [] => [[c]]
           end
  end.

(** How the regular expression [/^(...)/i] compares two code units of the
    words it looks for: an ASCII letter matches in either case, every
    other code unit only itself. *)
Definition canonicalize (c : Z) : Z :=
  if (97 <=? c) && (c <=? 122) then c - 32 else c.

Fixpoint startsWithIgnoreCase (s p : jsstring) {struct p} : bool :=
  match p, s with
  | [], _ => true
  | _ :: _, [] => false
  | c :: p', d :: s' => (canonicalize c =? canonicalize d) && startsWithIgnoreCase s' p'
  end.

(** [String(v)] as a template literal applies it to a string or to
    [undefined]. *)
Definition stringOf (v : option jsstring) : jsstring :=
  match v with
  | Some s => s
  | None => js "undefined"
  end.

(** [n.toString()] for an integer. *)
Definition numberToString (n : Z) : jsstring :=
  js (NilZero.string_of_int (Z.to_int n)).

(** [v || d] on strings: the empty string and [undefined] give [d]. *)
Definition orElse (v : option jsstring) (d : jsstring) : jsstring :=
  match v with
  | Some (c :: s) => c :: s
  | _ => d
  end.

(** [v || undefined]. *)
Definition orUndefined (v : option jsstring) : option jsstring :=
  match v with
  | Some (c :: s) => Some (c :: s)
  | _ => None
  end.

(** ** The texts of the send handler *)

(** The request of the teaching mode. *)
Definition teachPrompt (term : jsstring) : jsstring :=
  utf16 "Act as an English teacher. The user wants to learn: " ++ [34] ++ term ++
  [34] ++ utf16 ". " ++ [10] ++ utf16 "          1. Translate it to English." ++
  [10] ++
  utf16 "          2. Provide a simple example sentence in English using it." ++
  [10] ++ utf16 "          3. Translate the example to Arabic." ++ [10] ++
  utf16 "          4. Create a visual description for a cartoon image to explain it." ++
  [10] ++ utf16 "          " ++ [10] ++
  utf16 "          Return ONLY valid JSON in this format:" ++ [10] ++
  utf16 "          {" ++ [10] ++ utf16 "            " ++ [34] ++ utf16 "english" ++
  [34] ++ utf16 ": " ++ [34] ++ utf16 "..." ++ [34] ++ utf16 "," ++ [10] ++
  utf16 "            " ++ [34] ++ utf16 "example_en" ++ [34] ++ utf16 ": " ++ [34] ++
  utf16 "..." ++ [34] ++ utf16 "," ++ [10] ++ utf16 "            " ++ [34] ++
  utf16 "example_ar" ++ [34] ++ utf16 ": " ++ [34] ++ utf16 "..." ++ [34] ++
  utf16 "," ++ [10] ++ utf16 "            " ++ [34] ++ utf16 "image_prompt" ++ [34] ++
  utf16 ": " ++ [34] ++ utf16 "..." ++ [34; 10] ++ utf16 "          }".

(** The request for the picture of a lesson. *)
Definition cartoonPrompt (image_prompt : option jsstring) : jsstring :=
  utf16 "Cartoon illustration, educational style, colorful, clear lines: " ++
  stringOf image_prompt.

(** [finalContent]: the lesson as shown in the chat. *)
Definition lessonContent (english example_en example_ar : option jsstring) : jsstring :=
  [10] ++ utf16 "**درس لغة إنجليزية 🇬🇧**" ++ [10; 10] ++ utf16 "**الكلمة/العبارة:**" ++
  [10] ++ utf16 "# " ++ stringOf english ++ [10; 10] ++ utf16 "**مثال:**" ++ [10] ++
  stringOf example_en ++ [10; 10] ++ utf16 "**الترجمة:**" ++ [10] ++
  stringOf example_ar ++ [10] ++ utf16 "        ".

(** What is spoken of a lesson. *)
Definition lessonSpoken (english example_en : option jsstring) : jsstring :=
  stringOf english ++ utf16 ". " ++ stringOf example_en.

(** The request for the English form of a drawing prompt. *)
Definition translatePrompt (finalPrompt : jsstring) : jsstring :=
  utf16 "Translate this image description to English for an image generator, keep it descriptive but concise: " ++
  [34] ++ finalPrompt ++ [34].

(** The reply that goes with a drawing. *)
Definition drawReply (finalPrompt : jsstring) : jsstring :=
  utf16 "تفضل يا مصطفى، هذه رسمة " ++ [34] ++ finalPrompt ++ [34] ++
  utf16 " التي طلبتها!".

(** The address of the fallback image service. *)
Definition pollinationsUrl (encodedPrompt : jsstring) (seed : Z) : jsstring :=
  utf16 "https://image.pollinations.ai/prompt/" ++ encodedPrompt ++
  utf16 "?width=1024&height=1024&model=flux&seed=" ++ numberToString seed.

(** The persona of the text chat. *)
Definition systemInstruction : jsstring :=
  utf16 "أنت 'ذكي' (دحروج)، مساعد شخصي للمستخدم 'مصطفى'. " ++ [10] ++
  utf16 "1. تحدث **فقط** باللغة العربية." ++ [10] ++
  utf16 "2. كن مرحاً وودوداً جداً." ++ [10] ++
  utf16 "3. إذا حياك المستخدم (السلام عليكم، مرحبا)، رد بتحية حارة." ++ [10] ++
  utf16 "4. أنت تحب الرسم وتحليل الصور.".

(** The question sent with an image when no text was typed. *)
Definition describeImageText : jsstring :=
  utf16 "صف هذه الصورة لي بالعربية.".

(** The reply when the answer has no text. *)
Definition notUnderstoodText : jsstring :=
  utf16 "عذراً، لم أستطع فهم ذلك.".

(** The reply when the handler caught an error. *)
Definition apologyText : jsstring :=
  utf16 "عذراً، حدث خطأ أثناء المعالجة. تأكد من الاتصال بالإنترنت وحاول مرة أخرى.".

(** The prompt used when nothing is left of the text. *)
Definition defaultDrawPrompt : jsstring :=
  utf16 "صورة فنية جميلة".

(** [MODELS.TEXT], [MODELS.VISION] and [MODELS.IMAGE_GEN] of [lib/gemini]. *)
Definition MODELS_TEXT : jsstring := js "gemini-3-flash-preview".
Definition MODELS_VISION : jsstring := js "gemini-3-flash-preview".
Definition MODELS_IMAGE_GEN : jsstring := js "gemini-2.5-flash-image".

(** The words of [isDrawRequest] and of the regular expression that
    strips them, in the order of the source. *)
Definition drawWords : list jsstring :=
  [utf16 "ارسم"; utf16 "تخيل"; utf16 "صورة ل"; js "draw"; js "generate image"].

(** [text.replace(/^(ارسم|تخيل|صورة ل|draw|generate image)/i, '')]. *)
Definition stripDrawWord (text : jsstring) : jsstring :=
  match List.find (fun word => startsWithIgnoreCase text word) drawWords with
  | Some word => drop (length word) text
  | None => text
  end.

(** [finalPrompt]. *)
Definition drawPrompt (text : jsstring) : jsstring :=
  orElse (Some (trim (stripDrawWord text))) defaultDrawPrompt.

(** ** The state of the application and its requests *)

Inductive Role := user | assistant.

Module Message.
Record t := mk {
  id : jsstring;
  role : Role;
  content : jsstring;
  image : option jsstring;
  lessonData : option LessonData
}.
End Message.

(** A part of the contents of a request. *)
Inductive RequestPart :=
| TextPart (text : jsstring)
| InlinePart (mimeType base64Data : option jsstring).

Inductive RequestContents :=
| PlainContents (text : jsstring)
| PartsContents (ps : list RequestPart).

Inductive RequestConfig :=
| NoConfig
| JsonAnswer                                (* [responseMimeType: "application/json"] *)
| WithSystemInstruction (text : jsstring).

Record AppRequest := mkAppRequest {
  appModel : jsstring;
  appContents : RequestContents;
  appConfig : RequestConfig
}.

(** What the handler reads of an answer: its [text], and the parts of its
    first candidate. *)
Record AppResponse := mkAppResponse {
  responseText : option jsstring;
  responseCandidates : option (list Candidate)
}.

(** What [JSON.parse] gave: [null], or something whose four fields are
    strings or missing. *)
Record EduData := mkEduData {
  edu_english : option jsstring;
  edu_example_en : option jsstring;
  edu_example_ar : option jsstring;
  edu_image_prompt : option jsstring
}.

Inductive Parsed :=
| ParsedNull
| ParsedObject (eduData : EduData).

(** What the handler can have thrown at it. *)
Inductive Thrown :=
| Rejection (e : Error)      (* a request was rejected *)
| SyntaxError                (* [JSON.parse] *)
| NullAccess                 (* a property of [null] was read *)
| URIError                   (* [encodeURIComponent] *)
| NoImageData.               (* [new Error("No image data returned")] *)

Record App := mkApp {
  messages : list Message.t;
  input : jsstring;
  isProcessing : bool;
  selectedImage : option jsstring;
  audio : Config;                               (* the audio side, with its calls *)
  clock : Z;                                    (* what [Date.now()] gives *)
  requests : list AppRequest;                   (* the requests sent, oldest first *)
  errors : list (jsstring * option Thrown)      (* what went to [console.error] *)
}.

(** The functions of the host the handler calls. *)
Record Host := mkHost {
  platform : Platform;
  toLowerCase : jsstring -> jsstring;
  encodeURIComponent : jsstring -> option jsstring;   (* [None]: [URIError] *)
  JSON_parse : jsstring -> option Parsed              (* [None]: [SyntaxError] *)
}.

(** What is outside the handler: the answers of the backend, the time
    that passes while it waits, and the random seed. *)
Record Backend := mkBackend {
  answer : AppRequest -> Outcome AppResponse;
  elapse : Z -> Z;
  randomSeed : Z           (* [Math.floor(Math.random() * 1000)] *)
}.

(** ** The handler as an asynchronous routine *)

Inductive AppRes (A : Type) : Type :=
| AppDone (s : App) (a : A)
| AppFail (s : App) (e : Thrown)
| AppWait (s : App) (req : AppRequest) (k : Outcome AppResponse -> App -> AppRes A).
Arguments AppDone {A} s a.
Arguments AppFail {A} s e.
Arguments AppWait {A} s req k.

Definition AppProg (A : Type) : Type := App -> AppRes A.

Module AppAsync.

Definition ret {A} (a : A) : AppProg A := fun s => AppDone s a.

Definition throw {A} (e : Thrown) : AppProg A := fun s => AppFail s e.

Fixpoint bindRes {A B} (r : AppRes A) (f : A -> AppProg B) : AppRes B :=
  match r with
  | AppDone s a => f a s
  | AppFail s e => AppFail s e
  | AppWait s req k => AppWait s req (fun o s' => bindRes (k o s') f)
  end.

Definition bind {A B} (m : AppProg A) (f : A -> AppProg B) : AppProg B :=
  fun s => bindRes (m s) f.

Fixpoint catchRes {A} (r : AppRes A) (h : Thrown -> AppProg A) : AppRes A :=
  match r with
  | AppDone s a => AppDone s a
  | AppFail s e => h e s
  | AppWait s req k => AppWait s req (fun o s' => catchRes (k o s') h)
  end.

(** [try { m } catch (e) { h e }]. *)
Definition tryCatch {A} (m : AppProg A) (h : Thrown -> AppProg A) : AppProg A :=
  fun s => catchRes (m s) h.

Fixpoint finallyRes {A} (r : AppRes A) (f : AppProg unit) : AppRes A :=
  match r with
  | AppDone s a => bindRes (f s) (fun _ => ret a)
  | AppFail s e => bindRes (f s) (fun _ => throw e)
  | AppWait s req k => AppWait s req (fun o s' => finallyRes (k o s') f)
  end.

(** [try { m } finally { f }]. *)
Definition tryFinally {A} (m : AppProg A) (f : AppProg unit) : AppProg A :=
  fun s => finallyRes (m s) f.

Definition get : AppProg App := fun s => AppDone s s.

Definition modify (f : App -> App) : AppProg unit := fun s => AppDone (f s) tt.

Definition orThrow {A} (e : Thrown) (o : option A) : AppProg A :=
  match o with
  | Some a => ret a
  | None => throw e
  end.

End AppAsync.

#[global] Instance AppProg_ret : MRet AppProg := @AppAsync.ret.
#[global] Instance AppProg_bind : MBind AppProg := fun A B f m => AppAsync.bind m f.

(** *** State setters and other effects *)

Definition setMessages (f : list Message.t -> list Message.t) : AppProg unit :=
  AppAsync.modify (fun s =>
    mkApp (f (messages s)) (input s) (isProcessing s) (selectedImage s) (audio s)
          (clock s) (requests s) (errors s)).

Definition setInput (v : jsstring) : AppProg unit :=
  AppAsync.modify (fun s =>
    mkApp (messages s) v (isProcessing s) (selectedImage s) (audio s)
          (clock s) (requests s) (errors s)).

Definition setIsProcessing (v : bool) : AppProg unit :=
  AppAsync.modify (fun s =>
    mkApp (messages s) (input s) v (selectedImage s) (audio s)
          (clock s) (requests s) (errors s)).

Definition setSelectedImage (v : option jsstring) : AppProg unit :=
  AppAsync.modify (fun s =>
    mkApp (messages s) (input s) (isProcessing s) v (audio s)
          (clock s) (requests s) (errors s)).

(** [console.error(label)] and [console.error(label, e)]. *)
Definition consoleError (label : jsstring) (e : option Thrown) : AppProg unit :=
  AppAsync.modify (fun s =>
    mkApp (messages s) (input s) (isProcessing s) (selectedImage s) (audio s)
          (clock s) (requests s) (errors s ++ [(label, e)])).

(** Time goes on. *)
Definition later (B : Backend) (s : App) : App :=
  mkApp (messages s) (input s) (isProcessing s) (selectedImage s) (audio s)
        (elapse B (clock s)) (requests s) (errors s).

(** The request is on its way. *)
Definition requested (req : AppRequest) (s : App) : App :=
  mkApp (messages s) (input s) (isProcessing s) (selectedImage s) (audio s)
        (clock s) (requests s ++ [req]) (errors s).

(** [await ai.models.generateContent(req)]: a rejection is thrown where
    the handler resumes. *)
Definition generate (req : AppRequest) : AppProg AppResponse :=
  fun s =>
    AppWait (requested req s) req
            (fun o s' =>
               match o with
               | Resolved response => AppDone s' response
               | Rejected e => AppFail s' (Rejection e)
               end).

(** [speak(text)], not awaited: the call runs up to its first [await] and
    stays suspended on the audio side. *)
Definition callSpeak (P : Platform) (text : jsstring) : AppProg unit :=
  AppAsync.modify (fun s =>
    mkApp (messages s) (input s) (isProcessing s) (selectedImage s)
          (park (speak P text (world (audio s))) (suspended (audio s)))
          (clock s) (requests s) (errors s)).

(** The first part with inline data among the parts of the first
    candidate: the loop over [candidates[0].content.parts]. *)
Definition firstInlineData (response : AppResponse) : option InlineData :=
  cs ← responseCandidates response;
  c ← head cs;
  ct ← content c;
  ps ← parts ct;
  p ← List.find (fun p => match inlineData p with Some _ => true | None => false end) ps;
  inlineData p.

(** [generatedImageBase64] after the loop of the drawing mode. *)
Definition generatedImageBase64 (imageResponse : AppResponse) : option jsstring :=
  firstInlineData imageResponse ≫= data.

(** *** The requests of the handler *)

Definition teachRequest (term : jsstring) : AppRequest :=
  mkAppRequest MODELS_TEXT (PlainContents (teachPrompt term)) JsonAnswer.

Definition cartoonRequest (image_prompt : option jsstring) : AppRequest :=
  mkAppRequest MODELS_IMAGE_GEN (PartsContents [TextPart (cartoonPrompt image_prompt)])
               NoConfig.

Definition translateRequest (finalPrompt : jsstring) : AppRequest :=
  mkAppRequest MODELS_TEXT (PlainContents (translatePrompt finalPrompt)) NoConfig.

Definition imageRequest (englishPrompt : jsstring) : AppRequest :=
  mkAppRequest MODELS_IMAGE_GEN (PartsContents [TextPart englishPrompt]) NoConfig.

Definition visionRequest (mimeType base64Data : option jsstring) (text : jsstring)
    : AppRequest :=
  mkAppRequest MODELS_VISION
    (PartsContents [InlinePart mimeType base64Data;
                    TextPart (orElse (Some text) describeImageText)])
    NoConfig.

Definition chatRequest (text : jsstring) : AppRequest :=
  mkAppRequest MODELS_TEXT (PlainContents text) (WithSystemInstruction systemInstruction).

(** [newUserMsg], made at time [now]. *)
Definition userMessage (text : jsstring) (selectedImage : option jsstring) (now : Z)
    : Message.t :=
  Message.mk (numberToString now) user text (orUndefined selectedImage) None.

(** The message of the assistant made at time [now]. *)
Definition assistantMessage (text : jsstring) (image : option jsstring)
    (lesson : option LessonData) (now : Z) : Message.t :=
  Message.mk (numberToString now) assistant text image lesson.

Section HandleSend.

Variable H : Host.
Variable B : Backend.

(** [Date.now()]: time goes on between two readings. *)
Definition dateNow : AppProg Z := fun s => AppDone (later B s) (clock s).

(** [setMessages(prev => [...prev, {id: Date.now().toString(), role:
    'assistant', ...}])].  The clock is read here, where the update is
    handed over; nothing below depends on the [id]. *)
Definition reply (text : jsstring) (image : option jsstring)
    (lesson : option LessonData) : AppProg unit :=
  now ← dateNow;
  setMessages (fun prev => prev ++ [assistantMessage text image lesson now]).

(** A field of the parsed answer; reading it off [null] throws. *)
Definition field (f : EduData -> option jsstring) (eduData : Parsed)
    : AppProg (option jsstring) :=
  match eduData with
  | ParsedNull => AppAsync.throw NullAccess
  | ParsedObject o => AppAsync.ret (f o)
  end.

(** "1. Teach Me English Mode". *)
Definition teachMode (text : jsstring) : AppProg unit :=
  let term := teachTerm text in
  match term with
  | [] => AppAsync.ret tt
  | _ :: _ =>
      eduResponse ← generate (teachRequest term);
      eduData ← AppAsync.orThrow SyntaxError
                  (JSON_parse H (orElse (responseText eduResponse) (js "{}")));
      imageUrl ← AppAsync.tryCatch
        (image_prompt ← field edu_image_prompt eduData;
         imageResponse ← generate (cartoonRequest image_prompt);
         AppAsync.ret
           (match firstInlineData imageResponse with
            | Some d => Some (js "data:image/jpeg;base64," ++ stringOf (data d))
            | None => None
            end))
        (fun e => consoleError (js "Image gen failed") (Some e) ;; AppAsync.ret None);
      english ← field edu_english eduData;
      example_en ← field edu_example_en eduData;
      example_ar ← field edu_example_ar eduData;
      let finalContent := lessonContent english example_en example_ar in
      image_prompt ← field edu_image_prompt eduData;
      now ← dateNow;
      let lessonData := mkLesson english example_en example_ar image_prompt imageUrl now in
      reply finalContent imageUrl (Some lessonData) ;;
      callSpeak (platform H) (lessonSpoken english example_en) ;;
      setIsProcessing false
  end.

(** "2. Image Generation Command Check": the drawing mode. *)
Definition drawMode (text : jsstring) : AppProg unit :=
  let finalPrompt := drawPrompt text in
  englishPrompt ← AppAsync.tryCatch
    (translationResponse ← generate (translateRequest finalPrompt);
     AppAsync.ret
       (match responseText translationResponse with
        | Some (c :: t) => trim (c :: t)
        | _ => finalPrompt
        end))
    (fun _ => consoleError (js "Translation failed, using original prompt") None ;;
              AppAsync.ret finalPrompt);
  AppAsync.tryCatch
    (imageResponse ← generate (imageRequest englishPrompt);
     match generatedImageBase64 imageResponse with
     | Some (c :: d) =>
         let imageUrl := js "data:image/jpeg;base64," ++ (c :: d) in
         let responseText := drawReply finalPrompt in
         reply responseText (Some imageUrl) None ;;
         callSpeak (platform H) responseText
     | _ => AppAsync.throw NoImageData
     end)
    (fun genError =>
       consoleError (js "Gemini Image Gen failed, falling back to Pollinations:")
                    (Some genError) ;;
       encoded ← AppAsync.orThrow URIError (encodeURIComponent H englishPrompt);
       let imageUrl := pollinationsUrl encoded (randomSeed B) in
       let responseText := drawReply finalPrompt in
       reply responseText (Some imageUrl) None ;;
       callSpeak (platform H) responseText) ;;
  setIsProcessing false.

(** "2. Vision or Text Chat". *)
Definition chatMode (text : jsstring) (image : option jsstring) : AppProg unit :=
  result ←
    match image with
    | Some img =>
        let base64Data := splitOn 44 img !! 1%nat in
        let mimeType := head (splitOn 59 img) ≫= (fun h => splitOn 58 h !! 1%nat) in
        generate (visionRequest mimeType base64Data text)
    | None => generate (chatRequest text)
    end;
  let responseText := orElse (responseText result) notUnderstoodText in
  reply responseText None None ;;
  callSpeak (platform H) responseText.

(** [isDrawRequest]. *)
Definition isDrawRequest (text : jsstring) : bool :=
  let lowerText := toLowerCase H text in
  existsb (fun word => includes lowerText word) drawWords.

(** The body of the [try] of the handler. *)
Definition handleSendTry (text : jsstring) (image : option jsstring) : AppProg unit :=
  if isTeachRequest text then teachMode text
  else if isDrawRequest text && negb (match image with Some _ => true | None => false end)
  then drawMode text
  else chatMode text image.

(** Its [catch]. *)
Definition handleSendCatch (error : Thrown) : AppProg unit :=
  consoleError (js "Error:") (Some error) ;;
  reply apologyText None None.

(** [handleSend(textOverride)].  [input], [selectedImage] and
    [isProcessing] are the values of the state the handler was rendered
    with, read here as the call begins. *)
Definition handleSend (textOverride : option jsstring) : AppProg unit :=
  s ← AppAsync.get;
  let text := textToSend textOverride (input s) in
  if refusesToSend text (selectedImage s) (isProcessing s) then AppAsync.ret tt
  else
    now ← dateNow;
    let newUserMsg := userMessage text (selectedImage s) now in
    setMessages (fun prev => prev ++ [newUserMsg]) ;;
    setInput [] ;;
    setSelectedImage None ;;
    setIsProcessing true ;;
    AppAsync.tryFinally
      (AppAsync.tryCatch (handleSendTry text (Message.image newUserMsg)) handleSendCatch)
      (setIsProcessing false).

End HandleSend.

(** One call of the handler run to its end: each request is answered by
    the backend, and time goes on while the handler waits. *)
Fixpoint runApp {A} (B : Backend) (r : AppRes A) : App * (A + Thrown) :=
  match r with
  | AppDone s a => (s, inl a)
  | AppFail s e => (s, inr e)
  | AppWait s req k => runApp B (k (answer B req) (later B s))
  end.

(** ** What a call of the handler leaves behind *)

(** The answer to [req] has come. *)
Definition asked (B : Backend) (req : AppRequest) (s : App) : App :=
  later B (requested req s).

(** The handler has taken the text: the message of the user is in the
    chat, the input box and the attached image are cleared. *)
Definition accepted (B : Backend) (text : jsstring) (s : App) : App :=
  mkApp (messages s ++ [userMessage text (selectedImage s) (clock s)]) [] true None
        (audio s) (elapse B (clock s)) (requests s) (errors s).

Definition replied (B : Backend) (text : jsstring) (image : option jsstring)
    (lesson : option LessonData) (s : App) : App :=
  mkApp (messages s ++ [assistantMessage text image lesson (clock s)]) (input s)
        (isProcessing s) (selectedImage s) (audio s) (elapse B (clock s)) (requests s)
        (errors s).

Definition spoken (P : Platform) (text : jsstring) (s : App) : App :=
  mkApp (messages s) (input s) (isProcessing s) (selectedImage s)
        (park (speak P text (world (audio s))) (suspended (audio s)))
        (clock s) (requests s) (errors s).

Definition noted (label : jsstring) (e : option Thrown) (s : App) : App :=
  mkApp (messages s) (input s) (isProcessing s) (selectedImage s) (audio s)
        (clock s) (requests s) (errors s ++ [(label, e)]).

Definition idle (s : App) : App :=
  mkApp (messages s) (input s) false (selectedImage s) (audio s)
        (clock s) (requests s) (errors s).

(** The picture of a lesson, as the answer to the request for it gives it. *)
Definition lessonImage (o : Outcome AppResponse) : option jsstring :=
  match o with
  | Resolved imageResponse =>
      match firstInlineData imageResponse with
      | Some d => Some (js "data:image/jpeg;base64," ++ stringOf (data d))
      | None => None
      end
  | Rejected _ => None
  end.

(** [englishPrompt], as the answer to the request for a translation
    gives it. *)
Definition englishPromptOf (finalPrompt : jsstring) (o : Outcome AppResponse) : jsstring :=
  match o with
  | Resolved translationResponse =>
      match responseText translationResponse with
      | Some (c :: t) => trim (c :: t)
      | _ => finalPrompt
      end
  | Rejected _ => finalPrompt
  end.

(** The picture of a drawing: the first inline data of the answer, or
    else the address of the fallback service; [None] when that address
    cannot be made. *)
Definition pictureOf (H : Host) (B : Backend) (englishPrompt : jsstring)
    : option jsstring :=
  let fallback :=
    (fun encoded => pollinationsUrl encoded (randomSeed B))
      <$> encodeURIComponent H englishPrompt in
  match answer B (imageRequest englishPrompt) with
  | Resolved imageResponse =>
      match generatedImageBase64 imageResponse with
      | Some (c :: d) => Some (js "data:image/jpeg;base64," ++ c :: d)
      | _ => fallback
      end
  | Rejected _ => fallback
  end.

(** ** A host and backends to run the handler on *)

Module URI.

(** The characters [encodeURIComponent] leaves as they are. *)
Definition unreserved (c : Z) : bool :=
  ((48 <=? c) && (c <=? 57)) || ((65 <=? c) && (c <=? 90)) || ((97 <=? c) && (c <=? 122))
  || bool_decide (c ∈ [45; 95; 46; 33; 126; 42; 39; 40; 41]).

Definition hexDigit (d : Z) : Z := if d <? 10 then 48 + d else 55 + d.

Definition escape (octet : Z) : jsstring := [37; hexDigit (octet / 16); hexDigit (octet mod 16)].

Definition utf8 (cp : Z) : list Z :=
  if cp <? 128 then [cp]
  else if cp <? 2048 then [192 + cp / 64; 128 + cp mod 64]
  else if cp <? 65536 then [224 + cp / 4096; 128 + (cp / 64) mod 64; 128 + cp mod 64]
  else [240 + cp / 262144; 128 + (cp / 4096) mod 64; 128 + (cp / 64) mod 64;
        128 + cp mod 64].

Definition isLead (c : Z) : bool := (55296 <=? c) && (c <=? 56319).
Definition isTrail (c : Z) : bool := (56320 <=? c) && (c <=? 57343).

(** [None]: a surrogate without its partner. *)
Fixpoint encodeURIComponent (s : jsstring) : option jsstring :=
  match s with
  | [] => Some []
  | c :: s' =>
      if unreserved c then cons c <$> encodeURIComponent s'
      else if isTrail c then None
      else if isLead c then
        match s' with
        | d :: s'' =>
            if isTrail d then
              app (utf8 ((c - 55296) * 1024 + (d - 56320) + 65536) ≫= escape)
                <$> encodeURIComponent s''
            else None
        | [] => None
        end
      else app (utf8 c ≫= escape) <$> encodeURIComponent s'
  end.

End URI.

(** Lowers the letters A to Z and leaves the rest. *)
Definition asciiLowerCase (s : jsstring) : jsstring :=
  (fun c => if (65 <=? c) && (c <=? 90) then c + 32 else c) <$> s.

Definition catLesson : EduData :=
  mkEduData (Some (js "cat")) (Some (js "The cat sleeps."))
            (Some (utf16 "القطة تنام.")) (Some (js "a sleeping cat")).

(** A stand-in for [JSON.parse] that knows three kinds of text: the empty
    object, [null], and any other text that opens an object, which it
    reads as the lesson of the cat. *)
Definition parseExample (t : jsstring) : option Parsed :=
  if bool_decide (t = js "{}") then Some (ParsedObject (mkEduData None None None None))
  else if bool_decide (t = js "null") then Some ParsedNull
  else if startsWith t (js "{") then Some (ParsedObject catLesson)
  else None.

Definition exampleHost : Host :=
  mkHost browser asciiLowerCase URI.encodeURIComponent parseExample.

Definition textAnswer (t : jsstring) : AppResponse := mkAppResponse (Some t) None.

Definition imageAnswer (d : jsstring) : AppResponse :=
  mkAppResponse None
    (Some [mkCandidate (Some (mkContent (Some [mkPart None;
                                               mkPart (Some (mkInlineData (Some d)))])))]).

(** A backend that answers every request; it draws when [pictures] is
    set, and rejects the requests for a picture otherwise. *)
Definition exampleBackend (pictures : bool) : Backend :=
  mkBackend
    (fun req =>
       match appConfig req, appContents req with
       | JsonAnswer, _ => Resolved (textAnswer (js "{ the lesson of the cat }"))
       | WithSystemInstruction _, _ => Resolved (textAnswer (utf16 "أهلاً يا مصطفى"))
       | NoConfig, PlainContents _ => Resolved (textAnswer (js " a sleeping cat "))
       | NoConfig, PartsContents [TextPart _] =>
           if pictures then Resolved (imageAnswer (js "iVBORw0KGgo="))
           else Rejected RequestError
       | NoConfig, PartsContents _ => Resolved (textAnswer (utf16 "هذه قطة"))
       end)
    Z.succ 42.

(** A backend that answers nothing. *)
Definition silentBackend : Backend :=
  mkBackend (fun _ => Resolved (mkAppResponse None None)) Z.succ 7.


(** The application with an empty chat. *)
Definition freshApp : App :=
  mkApp [] [] false None (mkConfig initialWorld []) 1700000000000 [] [].

(** A picture as [FileReader.readAsDataURL] gives it. *)
Definition dataUrl (mimeType payload : jsstring) : jsstring :=
  js "data:" ++ mimeType ++ js ";base64," ++ payload.

(** * Proof tools *)

Ltac read_field :=
  cbv [getUint32 getUint16 getBytes length Nat.leb Nat.add firstn skipn].

Arguments js : simpl never.
Arguments substring : simpl never.
Arguments wavHeader : simpl never.
Arguments bytesOfBinaryString : simpl never.
Arguments wavBytesOf : simpl never.

(** Unfold the routine down to the worlds it produces. *)
Ltac prog_step :=
  repeat (progress
    (unfold mbind, mret, Prog_bind, Prog_ret, bind, tryCatch, ret, throw, await, get,
       modify, orThrow, setAudioRef, pause, cancel, speechSynthesis_speak, newAudio,
       play, generateContent, console_log, console_error, emit;
     cbn [bindRes catchRes run outcomeOf settle
          audioRef audios playing utterances trace])).

(** * Properties *)

(** ** The model at work *)

Example wavHeader_ten :
  wavHeader 10
  = Some [ 82; 73; 70; 70;  46; 0; 0; 0;  87; 65; 86; 69;  102; 109; 116; 32;
           16; 0; 0; 0;  1; 0;  1; 0;  192; 93; 0; 0;  128; 187; 0; 0;  2; 0;  16; 0;
           100; 97; 116; 97;  10; 0; 0; 0 ].
Proof. reflexivity. Qed.

Example setUint16_big_endian : setUint16 [0; 0; 0] 1 258 false = Some [0; 1; 2].
Proof. reflexivity. Qed.

Example setUint32_outside : setUint32 (newArrayBuffer 44) 41 0 true = None.
Proof. reflexivity. Qed.

Example substring_swaps : substring (js "abcdef") 4 1 = js "bcd".
Proof. reflexivity. Qed.

Example atob_tenBytes : Base64.atob tenBytes = Some [0; 1; 2; 3; 4; 5; 6; 7; 8; 9].
Proof. reflexivity. Qed.

Example atob_percent : Base64.atob (js "%%%%") = None.
Proof. reflexivity. Qed.

Example raw_samples_play_from_the_blob :
  let w := (run rawOracle (speak browser (js "hi") initialWorld)).1 in
  audioRef w = Some 1%nat /\ elements (playing w) = [1%nat] /\ utterances w = [].
Proof. repeat split. Qed.

Example backend_down_speaks_natively :
  utterances (run downOracle (speak browser (js "hi") initialWorld)).1
  = [mkUtterance (js "hi") (js "ar-SA")].
Proof. reflexivity. Qed.

(** ** The header *)

Lemma byteOf_range k v : 0 <= byteOf k v < 256.
Proof. unfold byteOf. apply Z.mod_pos_bound. lia. Qed.

(** Four bytes, least significant first, read back as the value they
    encode. *)
Lemma le_combine_4 v :
  0 <= v < 2 ^ 32 ->
  le_combine [byteOf 0 v; byteOf 1 v; byteOf 2 v; byteOf 3 v] = v.
Proof.
  intros Hv. unfold byteOf, le_combine.
  change (2 ^ (8 * Z.of_nat 0)) with 1. change (2 ^ (8 * Z.of_nat 1)) with 256.
  change (2 ^ (8 * Z.of_nat 2)) with 65536. change (2 ^ (8 * Z.of_nat 3)) with 16777216.
  change (2 ^ 32) with 4294967296 in Hv.
  Z.div_mod_to_equations. lia.
Qed.

Lemma ToUint32_range v : 0 <= ToUint32 v < 2 ^ 32.
Proof. unfold ToUint32. apply Z.mod_pos_bound. lia. Qed.

Lemma wavHeader_bytes (len : Z) : wavHeader len = Some (headerBytes len).
Proof. reflexivity. Qed.

Lemma headerBytes_length (len : Z) : length (headerBytes len) = 44%nat.
Proof. reflexivity. Qed.

Lemma storeBytes_splice (bs : list Z) : forall (view : ArrayBuffer) (off : nat),
  (off + length bs <= length view)%nat ->
  storeBytes view off bs = take off view ++ bs ++ drop (off + length bs) view.
Proof.
  induction bs as [|b bs IH]; intros view off Hfit; cbn [storeBytes length app] in *.
  - rewrite Nat.add_0_r. symmetry. apply take_drop.
  - rewrite IH by (rewrite length_insert; lia).
    rewrite (take_S_r _ off b) by (apply list_lookup_insert_eq; lia).
    rewrite take_insert_ge by lia.
    rewrite drop_insert_lt by lia.
    rewrite <- app_assoc. cbn [app].
    replace (S off + length bs)%nat with (off + S (length bs))%nat by lia.
    reflexivity.
Qed.

Lemma setBytes_splice (view bs : list Z) (off : nat) :
  (off + length bs <= length view)%nat ->
  setBytes view off (length bs) bs
  = Some (take off view ++ bs ++ drop (off + length bs) view).
Proof.
  intros Hfit. unfold setBytes.
  destruct (Nat.leb_spec (off + length bs) (length view)) as [_|Hlt]; [|lia].
  f_equal. apply storeBytes_splice, Hfit.
Qed.

(** The copy loop leaves in [bytes] the code units of the binary string,
    each reduced to a byte. *)
Lemma copy_prefix (bin : jsstring) (n : nat) : forall rest : list Z,
  (n <= length bin)%nat ->
  foldl (fun bytes i => Uint8Array.write bytes i (default 0 (charCodeAt bin i)))
        (replicate n 0 ++ rest) (seq 0 n)
  = (ToUint8 <$> take n bin) ++ rest.
Proof.
  induction n as [|n IH]; intros rest Hn; [reflexivity|].
  rewrite seq_S, foldl_app, replicate_S_end, <- app_assoc.
  cbn [app foldl Nat.add].
  rewrite IH by lia.
  destruct (lookup_lt_is_Some_2 bin n ltac:(lia)) as [x Hx].
  unfold Uint8Array.write, charCodeAt. rewrite Hx. cbn [default].
  rewrite (take_S_r _ _ x Hx), fmap_app, <- app_assoc. cbn [fmap list_fmap app].
  assert (Hlen : length (ToUint8 <$> take n bin) = n)
    by (rewrite length_fmap, length_take; lia).
  rewrite <- Hlen at 1.
  rewrite <- (Nat.add_0_r (length (ToUint8 <$> take n bin))) at 1.
  rewrite insert_app_r. reflexivity.
Qed.

Lemma bytesOfBinaryString_fmap (bin : jsstring) :
  bytesOfBinaryString bin = ToUint8 <$> bin.
Proof.
  unfold bytesOfBinaryString, Uint8Array.new.
  pose proof (copy_prefix bin (length bin) [] (Nat.le_refl _)) as H.
  rewrite !app_nil_r, firstn_all in H. exact H.
Qed.

Lemma ToUint8_bytes (bs : list Z) :
  Forall (fun c => 0 <= c < 256) bs -> ToUint8 <$> bs = bs.
Proof.
  induction 1 as [|c cs Hc _ IH]; [reflexivity|].
  cbn [fmap list_fmap]. fold (fmap (M:=list) ToUint8 cs). rewrite IH. f_equal.
  unfold ToUint8. apply Z.mod_small. lia.
Qed.

Lemma bytesOfBinaryString_length (bin : jsstring) :
  length (bytesOfBinaryString bin) = length bin.
Proof. rewrite bytesOfBinaryString_fmap. apply length_fmap. Qed.

(** [wavBytes] is the header with the payload bytes right behind it. *)
Lemma wavBytesOf_app (h bytes : list Z) :
  wavBytesOf h bytes (length bytes) = Some (h ++ bytes).
Proof.
  unfold wavBytesOf, Uint8Array.set, Uint8Array.new.
  rewrite setBytes_splice by (rewrite length_replicate; lia).
  simpl. rewrite drop_replicate.
  replace (length h + length bytes - length h)%nat with (length bytes) by lia.
  rewrite setBytes_splice by (rewrite length_app, length_replicate; lia).
  rewrite take_app_length.
  rewrite drop_ge by (rewrite length_app, length_replicate; lia).
  rewrite app_nil_r. reflexivity.
Qed.

Lemma wavBytesOf_binaryString (h : list Z) (bin : jsstring) :
  wavBytesOf h (bytesOfBinaryString bin) (length bin)
  = Some (h ++ bytesOfBinaryString bin).
Proof.
  pose proof (wavBytesOf_app h (bytesOfBinaryString bin)) as H.
  rewrite bytesOfBinaryString_length in H. exact H.
Qed.

(** C1.  For every payload byte length [N] the header built by [speak] is
    the 44-byte little-endian header of the layout table: "RIFF" at 0,
    the uint32 [36 + N] at 4, "WAVE" at 8, "fmt " at 12, the uint32 16 at
    16, the uint16 1 at 20, the channel count at 22, the sample rate at
    24, the byte rate [sampleRate * numChannels * (bitsPerSample / 8)] at
    28, the block alignment [numChannels * (bitsPerSample / 8)] at 32,
    the bits per sample at 34, "data" at 36 and the uint32 [N] at 40;
    with the fixed format the byte rate is 48000 and the block alignment
    2.  A uint32 field holds its value modulo [2^32], which is the value
    itself whenever that fits in 32 bits. *)
Theorem wavHeader_layout (N : Z) :
  exists h : list Z,
    wavHeader N = Some h /\
    length h = 44%nat /\
    Forall (fun b => 0 <= b < 256) h /\
    take 4 h = js "RIFF" /\
    getUint32 h 4 true = Some ((36 + N) mod 2 ^ 32) /\
    take 4 (drop 8 h) = js "WAVE" /\
    take 4 (drop 12 h) = js "fmt " /\
    getUint32 h 16 true = Some 16 /\
    getUint16 h 20 true = Some 1 /\
    getUint16 h 22 true = Some numChannels /\
    getUint32 h 24 true = Some sampleRate /\
    getUint32 h 28 true = Some (sampleRate * numChannels * (bitsPerSample / 8)) /\
    getUint16 h 32 true = Some (numChannels * (bitsPerSample / 8)) /\
    getUint16 h 34 true = Some bitsPerSample /\
    take 4 (drop 36 h) = js "data" /\
    getUint32 h 40 true = Some (N mod 2 ^ 32) /\
    sampleRate * numChannels * (bitsPerSample / 8) = 48000 /\
    numChannels * (bitsPerSample / 8) = 2 /\
    (0 <= N < 2 ^ 32 - 36 ->
     getUint32 h 4 true = Some (36 + N) /\ getUint32 h 40 true = Some N).
Proof.
  exists (headerBytes N). split; [apply wavHeader_bytes|]. unfold headerBytes.
  assert (H4 : forall v, 0 <= v < 2 ^ 32 ->
             le_combine [byteOf 0 v; byteOf 1 v; byteOf 2 v; byteOf 3 v] = v)
    by apply le_combine_4.
  repeat split; try reflexivity.
  - repeat constructor; try lia; apply byteOf_range.
  - read_field. rewrite H4 by apply ToUint32_range. reflexivity.
  - read_field. rewrite H4 by apply ToUint32_range. reflexivity.
  - read_field. rewrite H4 by apply ToUint32_range.
    unfold ToUint32. rewrite Z.mod_small by lia. reflexivity.
  - read_field. rewrite H4 by apply ToUint32_range.
    unfold ToUint32. rewrite Z.mod_small by lia. reflexivity.
Qed.

Lemma wavHeader_layout_witness :
  exists h : list Z,
    wavHeader 10 = Some h /\
    getUint32 h 4 true = Some 46 /\ getUint32 h 40 true = Some 10.
Proof.
  destruct (wavHeader_layout 10) as (h & Hh & _ & _ & _ & _ & _ & _ & _ & _ & _ & _
                                      & _ & _ & _ & _ & _ & _ & _ & Hfit).
  exists h. split; [exact Hh|].
  apply Hfit. lia.
Defined.

(** C8.  The builder sets no bound on the payload size: it never rejects a
    length, and the fields at offsets 4 and 40 hold [(36 + N) mod 2^32]
    and [N mod 2^32]; from [36 + N >= 2^32] (respectively [N >= 2^32]) on,
    that is no longer the value itself: the field wraps around. *)
Theorem wavHeader_sizes_wrap (N : Z) :
  exists h : list Z,
    wavHeader N = Some h /\
    getUint32 h 4 true = Some ((36 + N) mod 2 ^ 32) /\
    getUint32 h 40 true = Some (N mod 2 ^ 32) /\
    (2 ^ 32 <= 36 + N ->
     getUint32 h 4 true = Some (36 + N - 2 ^ 32 * ((36 + N) / 2 ^ 32)) /\
     getUint32 h 4 true <> Some (36 + N)) /\
    (2 ^ 32 <= N ->
     getUint32 h 40 true = Some (N - 2 ^ 32 * (N / 2 ^ 32)) /\
     getUint32 h 40 true <> Some N).
Proof.
  exists (headerBytes N). split; [apply wavHeader_bytes|]. unfold headerBytes.
  match goal with
  | |- getUint32 ?h 4 true = _ /\ _ =>
      assert (F4 : getUint32 h 4 true = Some ((36 + N) mod 2 ^ 32))
        by (read_field; rewrite le_combine_4 by apply ToUint32_range; reflexivity);
      assert (F40 : getUint32 h 40 true = Some (N mod 2 ^ 32))
        by (read_field; rewrite le_combine_4 by apply ToUint32_range; reflexivity)
  end.
  split; [exact F4|]. split; [exact F40|].
  rewrite F4, F40. split; intros Hbig; split.
  - f_equal. apply Z.mod_eq. lia.
  - intros [= Heq]. pose proof (Z.mod_pos_bound (36 + N) (2 ^ 32) ltac:(lia)). lia.
  - f_equal. apply Z.mod_eq. lia.
  - intros [= Heq]. pose proof (Z.mod_pos_bound N (2 ^ 32) ltac:(lia)). lia.
Qed.

Lemma wavHeader_sizes_wrap_witness :
  exists h : list Z,
    wavHeader (2 ^ 32) = Some h /\
    getUint32 h 4 true = Some 36 /\ getUint32 h 40 true = Some 0.
Proof.
  destruct (wavHeader_sizes_wrap (2 ^ 32)) as (h & Hh & _ & _ & H4 & H40).
  exists h. split; [exact Hh|]. split.
  - destruct H4 as [H4 _]; [lia|]. exact H4.
  - destruct H40 as [H40 _]; [lia|]. exact H40.
Defined.

(** ** The runs of [speak] *)

Lemma stopExisting_eq P w : stopExisting P w = Done (afterStop P w) tt.
Proof.
  unfold stopExisting, afterStop, stopEvents.
  destruct w as [[a|] au pl ut tr]; destruct (hasSpeechSynthesis P); prog_step;
    rewrite ?app_nil_r, <- ?app_assoc; reflexivity.
Qed.

Lemma speakCatch_eq P text e w : speakCatch P text e w = Done (afterCatch P text e w) tt.
Proof.
  unfold speakCatch, afterCatch.
  destruct (hasSpeechSynthesis P); prog_step; rewrite <- ?app_assoc; reflexivity.
Qed.

Section Runs.

Variables (P : Platform) (O : Oracle).

(** *** The playback block *)

Lemma run_playPayload_falsy (base64Audio : option jsstring) (w : World) :
  base64Audio = None \/ base64Audio = Some [] ->
  run O (playPayload P base64Audio w) = (w, inl tt).
Proof. intros [-> | ->]; reflexivity. Qed.

Section Payload.

Variables (base64Audio : jsstring) (w : World).
Hypothesis Hne : base64Audio <> [].

Ltac to_direct :=
  unfold playPayload;
  destruct base64Audio as [|c s] eqn:Eb; [congruence|]; rewrite <- Eb in *;
  unfold playDirect; prog_step;
  rewrite list_lookup_middle by reflexivity.

Ltac worlds :=
  unfold nowPlaying, logged, directTried, started;
  cbn [audioRef audios playing utterances trace];
  rewrite <- ?app_assoc; cbn [app]; try reflexivity;
  rewrite ?length_app; cbn [audios length]; rewrite ?Nat.add_1_r;
  reflexivity.

Lemma run_direct :
  canPlay O (dataUri base64Audio) = true ->
  run O (playPayload P (Some base64Audio) w)
  = (nowPlaying (length (audios w)) (directTried base64Audio w), inl tt).
Proof. intros Hplay. to_direct. rewrite Hplay. prog_step. f_equal. worlds. Qed.

Ltac to_decode Hplay :=
  to_direct; rewrite Hplay; prog_step; unfold playDecoded; prog_step.

Lemma run_no_context :
  canPlay O (dataUri base64Audio) = false ->
  hasAudioContext P = false ->
  run O (playPayload P (Some base64Audio) w)
  = (logged [EvConsoleLog directFailedMsg; EvNewAudioContext] (directTried base64Audio w),
     inr TypeError).
Proof.
  intros Hplay Hctx. to_decode Hplay. rewrite Hctx. prog_step. f_equal. worlds.
Qed.

Lemma run_bad_base64 :
  canPlay O (dataUri base64Audio) = false ->
  hasAudioContext P = true ->
  atob P base64Audio = None ->
  run O (playPayload P (Some base64Audio) w)
  = (logged [EvConsoleLog directFailedMsg; EvNewAudioContext; EvAtob base64Audio]
            (directTried base64Audio w),
     inr InvalidCharacterError).
Proof.
  intros Hplay Hctx Hatob. to_decode Hplay. rewrite Hctx. prog_step.
  rewrite Hatob. prog_step. f_equal. worlds.
Qed.

Section Decoded.

Variable binaryString : jsstring.
Hypothesis Hplay : canPlay O (dataUri base64Audio) = false.
Hypothesis Hctx : hasAudioContext P = true.
Hypothesis Hatob : atob P base64Audio = Some binaryString.

Ltac to_blob :=
  to_decode Hplay; rewrite Hctx; prog_step; rewrite Hatob; prog_step;
  rewrite wavHeader_bytes; prog_step;
  rewrite wavBytesOf_binaryString; prog_step;
  fold (wavBlob binaryString);
  rewrite list_lookup_middle
    by (rewrite length_app; cbn [length audios]; lia).

Lemma run_decoded :
  canPlay O (UrlObject (wavBlob binaryString)) = true ->
  run O (playPayload P (Some base64Audio) w)
  = (nowPlaying (S (length (audios w))) (decodedTried base64Audio w binaryString),
     inl tt).
Proof.
  intros Hblob. to_blob. rewrite Hblob. prog_step.
  f_equal. unfold decodedTried. worlds.
Qed.

Lemma run_decoded_rejected :
  canPlay O (UrlObject (wavBlob binaryString)) = false ->
  run O (playPayload P (Some base64Audio) w)
  = (decodedTried base64Audio w binaryString, inr NotSupportedError).
Proof.
  intros Hblob. to_blob. rewrite Hblob. prog_step.
  f_equal. unfold decodedTried. worlds.
Qed.

End Decoded.

End Payload.

(** *** The whole call *)

Lemma run_bindRes {A B} (r : Res A) (f : A -> Prog B) :
  run O (bindRes r f)
  = match run O r with
    | (w', inl a) => run O (f a w')
    | (w', inr e) => (w', inr e)
    end.
Proof. induction r as [| |w0 C p k IH]; cbn [bindRes run]; auto. Qed.

Lemma run_catchRes {A} (r : Res A) (h : Error -> Prog A) :
  run O (catchRes r h)
  = match run O r with
    | (w', inl a) => (w', inl a)
    | (w', inr e) => run O (h e w')
    end.
Proof. induction r as [| |w0 C p k IH]; cbn [catchRes run]; auto. Qed.

(** A call stops what plays, asks the backend, hands the payload to the
    playback block, and falls back to native speech on any error. *)
Lemma run_speak (text : jsstring) (w : World) :
  run O (speak P text w)
  = match ttsAnswer O (ttsRequestOf text) with
    | Resolved response =>
        match run O (playPayload P (base64AudioOf response) (afterRequest P text w)) with
        | (w', inl _) => (w', inl tt)
        | (w', inr e) => (afterCatch P text e w', inl tt)
        end
    | Rejected e => (afterCatch P text e (afterRequest P text w), inl tt)
    end.
Proof.
  unfold speak, speakTry. prog_step. rewrite stopExisting_eq. prog_step.
  destruct (ttsAnswer O (ttsRequestOf text)) as [response|e]; prog_step;
    change (mkWorld (audioRef (afterStop P w)) _ _ _ _) with (afterRequest P text w).
  - rewrite ?run_catchRes, ?run_bindRes. cbn [run].
    destruct (run O (playPayload P (base64AudioOf response) (afterRequest P text w)))
      as [w' [[]|e]]; [reflexivity|].
    rewrite speakCatch_eq. reflexivity.
  - rewrite speakCatch_eq. reflexivity.
Qed.

End Runs.

Lemma run_playPayload_cases P O (b : option jsstring) (w : World) :
  PlayResult P O w b (run O (playPayload P b w)).
Proof.
  destruct b as [b64|]; [|apply PlayNothing; auto].
  destruct (decide (b64 = [])) as [->|Hne]; [apply PlayNothing; auto|].
  destruct (canPlay O (dataUri b64)) eqn:Hdirect.
  { rewrite run_direct by assumption. now apply PlayedDirect. }
  destruct (hasAudioContext P) eqn:Hctx.
  2:{ rewrite run_no_context by assumption. now apply NoContext. }
  destruct (atob P b64) as [bin|] eqn:Hatob.
  2:{ rewrite run_bad_base64 by assumption. now apply BadBase64. }
  destruct (canPlay O (UrlObject (wavBlob bin))) eqn:Hblob.
  - rewrite (run_decoded P O b64 w Hne bin) by assumption. now apply PlayedDecoded.
  - rewrite (run_decoded_rejected P O b64 w Hne bin) by assumption.
    now apply DecodedRejected.
Qed.

(** ** The playback block and its strategies *)

(** C6.  With an absent payload or the empty string the playback block
    is the empty routine: it does nothing and raises nothing, the world
    is left as it was (no header, no blob, no audio element, no playback
    attempt, no handle), and the call of [speak] ends right after its
    request, without the fallback. *)
Theorem playPayload_absent_noop (P : Platform) (O : Oracle) (w : World) :
  playPayload P None = Async.ret tt /\
  playPayload P (Some []) = Async.ret tt /\
  run O (playPayload P None w) = (w, inl tt) /\
  run O (playPayload P (Some []) w) = (w, inl tt) /\
  forall (text : jsstring) (resp : GenerateContentResponse),
    ttsAnswer O (ttsRequestOf text) = Resolved resp ->
    base64AudioOf resp = None \/ base64AudioOf resp = Some [] ->
    run O (speak P text w) = (afterRequest P text w, inl tt) /\
    audioRef (afterRequest P text w) = None /\
    audios (afterRequest P text w) = audios w /\
    playing (afterRequest P text w) ⊆ playing w /\
    trace (afterRequest P text w)
    = trace w ++ stopEvents P w ++ [EvGenerateContent (ttsRequestOf text)].
Proof.
  do 4 (split; [reflexivity|]).
  intros text resp Hans Hpay.
  rewrite run_speak, Hans. rewrite run_playPayload_falsy by exact Hpay.
  repeat split.
  - unfold afterRequest, afterStop, emit. cbn [playing].
    destruct (audioRef w); set_solver.
  - unfold afterRequest, afterStop, emit. cbn [trace].
    rewrite <- app_assoc. reflexivity.
Qed.

Lemma playPayload_absent_noop_witness :
  run muteOracle (speak browser (js "hi") initialWorld)
  = (afterRequest browser (js "hi") initialWorld, inl tt)
  /\ audios (afterRequest browser (js "hi") initialWorld) = [].
Proof.
  destruct (playPayload_absent_noop browser muteOracle initialWorld)
    as (_ & _ & _ & _ & H).
  destruct (H (js "hi") (responseWith None)) as (Hrun & _ & Haudios & _).
  - reflexivity.
  - left. reflexivity.
  - split; [exact Hrun | exact Haudios].
Defined.

(** What the playback block adds to the trace never holds a request or a
    native utterance, and begins, for a payload, with the direct
    attempt. *)
Lemma PlayResult_trace P O w b w' r :
  PlayResult P O w b (w', r) ->
  exists evs,
    trace w' = trace w ++ evs /\
    (forall req, EvGenerateContent req ∉ evs) /\
    (forall u, EvSpeak u ∉ evs) /\
    (forall b64, b = Some b64 -> b64 <> [] ->
     exists rest,
       evs = EvNewAudio (length (audios w)) (dataUri b64)
             :: EvPlay (length (audios w)) :: rest).
Proof.
  intros H. inversion H; subst;
    unfold nowPlaying, logged, decodedTried, logged, directTried, started;
    cbn [audioRef audios playing utterances trace];
    rewrite <- ?app_assoc; cbn [app].
  1: { exists []. rewrite app_nil_r. repeat split; try set_solver. }
  all: eexists; (split; [reflexivity|]); repeat split; try set_solver.
  all: intros ? [= <-] _; eauto.
Qed.

(** The fields of the header, read back from its bytes. *)
Lemma headerBytes_fields (len : Z) :
  let h := headerBytes len in
  take 4 h = js "RIFF" /\
  getUint32 h 4 true = Some ((36 + len) mod 2 ^ 32) /\
  take 4 (drop 8 h) = js "WAVE" /\
  take 4 (drop 12 h) = js "fmt " /\
  getUint32 h 16 true = Some 16 /\
  getUint16 h 20 true = Some 1 /\
  getUint16 h 22 true = Some 1 /\
  getUint32 h 24 true = Some 24000 /\
  getUint32 h 28 true = Some 48000 /\
  getUint16 h 32 true = Some 2 /\
  getUint16 h 34 true = Some 16 /\
  take 4 (drop 36 h) = js "data" /\
  getUint32 h 40 true = Some (len mod 2 ^ 32).
Proof.
  cbv zeta. unfold headerBytes.
  assert (H4 : forall v, 0 <= v < 2 ^ 32 ->
             le_combine [byteOf 0 v; byteOf 1 v; byteOf 2 v; byteOf 3 v] = v)
    by apply le_combine_4.
  repeat split; try reflexivity.
  - read_field. rewrite H4 by apply ToUint32_range. reflexivity.
  - read_field. rewrite H4 by apply ToUint32_range. reflexivity.
Qed.

(** C2.  For a non-empty payload the strategies come in strict order.
    The block first builds an audio element on the data URI of the
    payload, the text "data:audio/wav;base64," followed by the payload as
    it is, and calls its [play()].  When that succeeds the element
    becomes the current one and nothing else is done: nothing is decoded,
    no header or blob is made, no second element exists.  Only when it
    throws is the payload decoded and the header built: 44 bytes that
    read RIFF, WAVE, fmt and data, format 1, 1 channel, 24000 Hz, 48000
    bytes a second, blocks of 2 bytes, 16 bits, and the two sizes from
    the decoded length.  The header is put in front of the decoded
    bytes, the result wrapped as a blob of type audio/wav, and a second
    element built on that blob and played. *)
Theorem playPayload_strategy_order (P : Platform) (O : Oracle)
    (base64Audio : jsstring) (w : World) :
  base64Audio <> [] ->
  let a := length (audios w) in
  let uri := UrlText (js "data:audio/wav;base64," ++ base64Audio) in
  let direct := [EvNewAudio a uri; EvPlay a] in
  (exists rest,
     trace (run O (playPayload P (Some base64Audio) w)).1 = trace w ++ direct ++ rest) /\
  (canPlay O uri = true ->
   exists w',
     run O (playPayload P (Some base64Audio) w) = (w', inl tt) /\
     audioRef w' = Some a /\
     audios w' = audios w ++ [uri] /\
     trace w' = trace w ++ direct) /\
  (canPlay O uri = false ->
   hasAudioContext P = true ->
   forall binaryString, atob P base64Audio = Some binaryString ->
   let len := Z.of_nat (length binaryString) in
   exists (h : list Z) (w' : World) (r : unit + Error),
     wavHeader len = Some h /\
     length h = 44%nat /\
     take 4 h = js "RIFF" /\
     getUint32 h 4 true = Some ((36 + len) mod 2 ^ 32) /\
     take 4 (drop 8 h) = js "WAVE" /\
     take 4 (drop 12 h) = js "fmt " /\
     getUint32 h 16 true = Some 16 /\
     getUint16 h 20 true = Some 1 /\
     getUint16 h 22 true = Some 1 /\
     getUint32 h 24 true = Some 24000 /\
     getUint32 h 28 true = Some 48000 /\
     getUint16 h 32 true = Some 2 /\
     getUint16 h 34 true = Some 16 /\
     take 4 (drop 36 h) = js "data" /\
     getUint32 h 40 true = Some (len mod 2 ^ 32) /\
     let blob := mkBlob (h ++ (ToUint8 <$> binaryString)) (js "audio/wav") in
     run O (playPayload P (Some base64Audio) w) = (w', r) /\
     audios w' = audios w ++ [uri; UrlObject blob] /\
     trace w' = trace w ++ direct
                ++ [EvConsoleLog directFailedMsg; EvNewAudioContext; EvAtob base64Audio;
                    EvCreateObjectURL blob; EvNewAudio (S a) (UrlObject blob);
                    EvPlay (S a)] /\
     (canPlay O (UrlObject blob) = true -> r = inl tt /\ audioRef w' = Some (S a)) /\
     (canPlay O (UrlObject blob) = false ->
      r = inr NotSupportedError /\ audioRef w' = audioRef w)).
Proof.
  intros Hne a uri direct.
  change uri with (dataUri base64Audio) in *.
  split; [|split].
  - pose proof (run_playPayload_cases P O (Some base64Audio) w) as Hcases.
    destruct (run O (playPayload P (Some base64Audio) w)) as [w' r].
    destruct (PlayResult_trace _ _ _ _ _ _ Hcases) as (evs & Htr & _ & _ & Hfirst).
    destruct (Hfirst base64Audio eq_refl Hne) as (rest & ->).
    exists rest. exact Htr.
  - intros Hplay. rewrite run_direct by assumption.
    eexists. split; [reflexivity|].
    unfold nowPlaying, directTried, started. cbn [audioRef audios trace]. auto.
  - intros Hplay Hctx bin Hatob len. subst len.
    set (len := Z.of_nat (length bin)).
    exists (headerBytes len).
    pose proof (headerBytes_fields len) as Hfields. cbv zeta in Hfields.
    destruct Hfields as (F0 & F4 & F8 & F12 & F16 & F20 & F22 & F24 & F28 & F32 & F34
                         & F36 & F40).
    rewrite <- bytesOfBinaryString_fmap. subst len.
    destruct (canPlay O (UrlObject (wavBlob bin))) eqn:Hblob.
    + rewrite (run_decoded P O base64Audio w Hne bin) by assumption.
      eexists _, _. split; [apply wavHeader_bytes|].
      split; [apply headerBytes_length|].
      do 13 (split; [assumption|]). cbn zeta.
      fold (wavBlob bin). rewrite Hblob. split; [reflexivity|].
      unfold nowPlaying, decodedTried, logged, directTried, started.
      cbn [audioRef audios trace]. rewrite <- !app_assoc. cbn [app].
      rewrite length_app, Nat.add_1_r.
      repeat split; auto; discriminate.
    + rewrite (run_decoded_rejected P O base64Audio w Hne bin) by assumption.
      eexists _, _. split; [apply wavHeader_bytes|].
      split; [apply headerBytes_length|].
      do 13 (split; [assumption|]). cbn zeta.
      fold (wavBlob bin). rewrite Hblob. split; [reflexivity|].
      unfold decodedTried, logged, directTried, started.
      cbn [audioRef audios trace]. rewrite <- !app_assoc. cbn [app].
      rewrite length_app, Nat.add_1_r.
      repeat split; auto; discriminate.
Qed.

Lemma playPayload_strategy_order_witness :
  (exists w',
     run wavOracle (playPayload browser (Some tenBytes) initialWorld) = (w', inl tt) /\
     audios w' = [UrlText (js "data:audio/wav;base64,AAECAwQFBgcICQ==")]) /\
  (exists h w',
     wavHeader 10 = Some h /\
     getUint16 h 22 true = Some 1 /\
     getUint32 h 24 true = Some 24000 /\
     getUint16 h 34 true = Some 16 /\
     run rawOracle (playPayload browser (Some tenBytes) initialWorld) = (w', inl tt) /\
     audios w' = [UrlText (js "data:audio/wav;base64,AAECAwQFBgcICQ==");
                  UrlObject (mkBlob (h ++ [0;1;2;3;4;5;6;7;8;9]) (js "audio/wav"))] /\
     audioRef w' = Some 1%nat) /\
  (exists w',
     run deafOracle (playPayload browser (Some tenBytes) initialWorld)
     = (w', inr NotSupportedError) /\
     audioRef w' = None).
Proof.
  split; [|split].
  - destruct (playPayload_strategy_order browser wavOracle tenBytes initialWorld)
      as (_ & Hdirect & _); [discriminate|].
    destruct Hdirect as (w' & Hrun & _ & Haudios & _); [reflexivity|].
    exists w'. split; [exact Hrun | exact Haudios].
  - destruct (playPayload_strategy_order browser rawOracle tenBytes initialWorld)
      as (_ & _ & Hdecoded); [discriminate|].
    destruct (Hdecoded eq_refl eq_refl [0;1;2;3;4;5;6;7;8;9] eq_refl)
      as (h & w' & r & Hh & _ & _ & _ & _ & _ & _ & _ & Hchannels & Hrate & _ & _ & Hbits
          & _ & _ & Hrun & Haudios & _ & Hok & _).
    destruct Hok as [-> Href]; [reflexivity|].
    exists h, w'. repeat split; assumption.
  - destruct (playPayload_strategy_order browser deafOracle tenBytes initialWorld)
      as (_ & _ & Hdecoded); [discriminate|].
    destruct (Hdecoded eq_refl eq_refl [0;1;2;3;4;5;6;7;8;9] eq_refl)
      as (h & w' & r & _ & _ & _ & _ & _ & _ & _ & _ & _ & _ & _ & _ & _ & _ & _ & Hrun
          & _ & _ & _ & Hko).
    destruct Hko as [-> Href]; [reflexivity|].
    exists w'. split; [exact Hrun | exact Href].
Defined.

(** C3.  When direct playback and the playback of the synthesized
    container both raise, the playback block itself fails: its error
    reaches the enclosing [catch] of [speak], and it is there, outside
    the block, that native speech synthesis is called as the fallback.
    No handle is created or left behind: [audioRef.current] stays [null]
    and no element has started to play. *)
Theorem both_strategies_fail (P : Platform) (O : Oracle) (text : jsstring)
    (resp : GenerateContentResponse) (base64Audio : jsstring) (w : World) :
  ttsAnswer O (ttsRequestOf text) = Resolved resp ->
  base64AudioOf resp = Some base64Audio ->
  base64Audio <> [] ->
  canPlay O (dataUri base64Audio) = false ->
  (hasAudioContext P = false \/
   atob P base64Audio = None \/
   exists bin, atob P base64Audio = Some bin /\
               canPlay O (UrlObject (wavBlob bin)) = false) ->
  let w1 := afterRequest P text w in
  exists (e : Error) (w' : World),
    run O (playPayload P (Some base64Audio) w1) = (w', inr e) /\
    audioRef w' = None /\
    playing w' = playing w1 /\
    utterances w' = utterances w1 /\
    (forall u, EvSpeak u ∉ drop (length (trace w1)) (trace w')) /\
    run O (speak P text w) = (afterCatch P text e w', inl tt) /\
    audioRef (afterCatch P text e w') = None /\
    playing (afterCatch P text e w') = playing w1 /\
    (hasSpeechSynthesis P = true ->
     utterances (afterCatch P text e w') = [mkUtterance text (js "ar-SA")]).
Proof.
  intros Hans Hpay Hne Hplay Hsynth w1.
  pose proof (run_playPayload_cases P O (Some base64Audio) w1) as Hcases.
  pose proof (run_speak P O text w) as Hspeak.
  rewrite Hans, Hpay in Hspeak. fold w1 in Hspeak.
  destruct (run O (playPayload P (Some base64Audio) w1)) as [w' r].
  destruct (PlayResult_trace _ _ _ _ _ _ Hcases) as (evs & Htr & _ & Hnospeak & _).
  assert (Hdrop : drop (length (trace w1)) (trace w') = evs)
    by (rewrite Htr; apply drop_app_length).
  assert (Hfacts : exists e, r = inr e /\ audioRef w' = None /\
                             playing w' = playing w1 /\ utterances w' = utterances w1).
  { inversion Hcases; subst;
      try match goal with H : _ = None \/ _ = Some [] |- _ =>
            destruct H as [|[= ]]; congruence end;
      try congruence;
      try (eexists; repeat split; reflexivity).
    destruct Hsynth as [?|[?|(bin' & ? & ?)]]; congruence. }
  destruct Hfacts as (e & -> & Href & Hpl & Hut).
  exists e, w'. rewrite Hdrop.
  repeat split; auto.
  intros Hss. unfold afterCatch. cbn [utterances]. rewrite Hss, Hut.
    unfold w1, afterRequest, afterStop, emit. cbn [utterances]. rewrite Hss. reflexivity.
Qed.

Lemma both_strategies_fail_witness :
  exists (e : Error) (w' : World),
    run deafOracle (playPayload browser (Some tenBytes)
                      (afterRequest browser (js "hi") initialWorld)) = (w', inr e) /\
    audioRef w' = None /\
    run deafOracle (speak browser (js "hi") initialWorld)
    = (afterCatch browser (js "hi") e w', inl tt) /\
    utterances (afterCatch browser (js "hi") e w') = [mkUtterance (js "hi") (js "ar-SA")].
Proof.
  destruct (both_strategies_fail browser deafOracle (js "hi")
              (responseWith (Some tenBytes)) tenBytes initialWorld)
    as (e & w' & Hblock & Href & _ & _ & _ & Hspeak & _ & _ & Hut).
  - reflexivity.
  - reflexivity.
  - discriminate.
  - reflexivity.
  - right. right. exists [0;1;2;3;4;5;6;7;8;9]. split; reflexivity.
  - exists e, w'. repeat split; try assumption. apply Hut. reflexivity.
Defined.

(** C5.  In the synthesized-container strategy the blob is the 44-byte
    header followed at once by the [N] decoded payload bytes, [44 + N]
    bytes in all; for [N = 10] the field at offset 40 is the four bytes
    10, 0, 0, 0 and the blob has 54 bytes. *)
Theorem decoded_blob_layout (P : Platform) (O : Oracle)
    (base64Audio binaryString : jsstring) (w : World) :
  base64Audio <> [] ->
  canPlay O (dataUri base64Audio) = false ->
  hasAudioContext P = true ->
  atob P base64Audio = Some binaryString ->
  exists (h : list Z) (blob : Blob),
    wavHeader (Z.of_nat (length binaryString)) = Some h /\
    length h = 44%nat /\
    audios (run O (playPayload P (Some base64Audio) w)).1
    = audios w ++ [dataUri base64Audio; UrlObject blob] /\
    blobBytes blob = h ++ (ToUint8 <$> binaryString) /\
    (Forall (fun c => 0 <= c < 256) binaryString ->
     blobBytes blob = h ++ binaryString) /\
    length (blobBytes blob) = (44 + length binaryString)%nat /\
    (length binaryString = 10%nat ->
     take 4 (drop 40 (blobBytes blob)) = [10; 0; 0; 0] /\
     getUint32 (blobBytes blob) 40 true = Some 10 /\
     length (blobBytes blob) = 54%nat).
Proof.
  intros Hne Hplay Hctx Hatob.
  exists (headerBytes (Z.of_nat (length binaryString))), (wavBlob binaryString).
  split; [apply wavHeader_bytes|]. split; [reflexivity|].
  assert (Hlen : length (blobBytes (wavBlob binaryString))
                 = (44 + length binaryString)%nat).
  { unfold wavBlob. cbn [blobBytes].
    rewrite length_app, bytesOfBinaryString_length. reflexivity. }
  split; [|split; [|split; [|split]]].
  - destruct (canPlay O (UrlObject (wavBlob binaryString))) eqn:Hblob.
    + rewrite (run_decoded P O base64Audio w Hne binaryString) by assumption.
      unfold nowPlaying, decodedTried, logged, directTried, started.
      cbn [fst audios]. rewrite <- app_assoc. reflexivity.
    + rewrite (run_decoded_rejected P O base64Audio w Hne binaryString) by assumption.
      unfold decodedTried, logged, directTried, started.
      cbn [fst audios]. rewrite <- app_assoc. reflexivity.
  - unfold wavBlob. cbn [blobBytes]. rewrite bytesOfBinaryString_fmap. reflexivity.
  - intros Hbytes. unfold wavBlob. cbn [blobBytes].
    rewrite bytesOfBinaryString_fmap, ToUint8_bytes by exact Hbytes. reflexivity.
  - exact Hlen.
  - intros H10. rewrite Hlen, H10. unfold wavBlob. rewrite H10. cbn [blobBytes].
    repeat split.
Qed.

Lemma decoded_blob_layout_witness :
  exists (h : list Z) (blob : Blob),
    wavHeader 10 = Some h /\
    audios (run rawOracle (playPayload browser (Some tenBytes) initialWorld)).1
    = [dataUri tenBytes; UrlObject blob] /\
    blobBytes blob = h ++ [0; 1; 2; 3; 4; 5; 6; 7; 8; 9] /\
    take 4 (drop 40 (blobBytes blob)) = [10; 0; 0; 0] /\
    length (blobBytes blob) = 54%nat.
Proof.
  destruct (decoded_blob_layout browser rawOracle tenBytes [0;1;2;3;4;5;6;7;8;9]
              initialWorld)
    as (h & blob & Hh & _ & Haudios & _ & Hbytes & _ & Hten).
  - discriminate.
  - reflexivity.
  - reflexivity.
  - reflexivity.
  - exists h, blob. destruct Hten as (H40 & _ & H54); [reflexivity|].
    repeat split; try assumption.
    apply Hbytes. repeat constructor; lia.
Defined.

(** C7.  A string that is not valid base64 is not checked beforehand: it
    goes to direct playback as it is.  Once that has failed, the error
    is raised by the decode step of the synthesized-container strategy,
    and it ends in the same [catch] of [speak], with the same native
    fallback, as a rejected synthesized container; apart from the error
    value that is logged, the [catch] does not look at what it caught. *)
Theorem malformed_base64_path (P : Platform) (O : Oracle) (text : jsstring)
    (resp : GenerateContentResponse) (base64Audio : jsstring) (w : World) :
  ttsAnswer O (ttsRequestOf text) = Resolved resp ->
  base64AudioOf resp = Some base64Audio ->
  base64Audio <> [] ->
  atob P base64Audio = None ->
  let w1 := afterRequest P text w in
  let a := length (audios w) in
  (exists rest,
     trace (run O (speak P text w)).1
     = trace w1 ++ EvNewAudio a (dataUri base64Audio) :: EvPlay a :: rest) /\
  (canPlay O (dataUri base64Audio) = false ->
   hasAudioContext P = true ->
   let w2 := logged [EvConsoleLog directFailedMsg; EvNewAudioContext; EvAtob base64Audio]
                    (directTried base64Audio w1) in
   run O (playPayload P (Some base64Audio) w1) = (w2, inr InvalidCharacterError) /\
   run O (speak P text w) = (afterCatch P text InvalidCharacterError w2, inl tt)) /\
  (forall (O' : Oracle) (P' : Platform) (bin : jsstring) (w' : World),
     ttsAnswer O' (ttsRequestOf text) = Resolved resp ->
     canPlay O' (dataUri base64Audio) = false ->
     hasAudioContext P' = true ->
     atob P' base64Audio = Some bin ->
     canPlay O' (UrlObject (wavBlob bin)) = false ->
     exists w3, run O' (speak P' text w') = (afterCatch P' text NotSupportedError w3, inl tt)) /\
  (forall (e : Error) (w' : World),
     audioRef (afterCatch P text e w') = audioRef w' /\
     playing (afterCatch P text e w') = playing w' /\
     utterances (afterCatch P text e w')
     = (if hasSpeechSynthesis P
        then utterances w' ++ [mkUtterance text (js "ar-SA")]
        else utterances w') /\
     trace (afterCatch P text e w')
     = trace w' ++ EvConsoleError (js "TTS Error:") e
               :: (if hasSpeechSynthesis P
                   then [EvSpeak (mkUtterance text (js "ar-SA"))]
                   else [])).
Proof.
  intros Hans Hpay Hne Hatob w1 a.
  pose proof (run_speak P O text w) as Hspeak.
  rewrite Hans, Hpay in Hspeak. fold w1 in Hspeak.
  split; [|split; [|split]].
  - pose proof (run_playPayload_cases P O (Some base64Audio) w1) as Hcases.
    rewrite Hspeak.
    destruct (run O (playPayload P (Some base64Audio) w1)) as [w' r].
    destruct (PlayResult_trace _ _ _ _ _ _ Hcases) as (evs & Htr & _ & _ & Hfirst).
    destruct (Hfirst base64Audio eq_refl Hne) as (rest & ->).
    change (length (audios w1)) with a in Htr.
    destruct r as [[]|e].
    + exists rest. exact Htr.
    + eexists. unfold afterCatch. cbn [fst trace]. rewrite Htr, <- app_assoc.
      reflexivity.
  - intros Hplay Hctx w2.
    rewrite Hspeak, (run_bad_base64 P O base64Audio w1 Hne Hplay Hctx Hatob).
    split; reflexivity.
  - intros O' P' bin w' Hans' Hplay' Hctx' Hatob' Hblob'.
    rewrite run_speak, Hans', Hpay.
    rewrite (run_decoded_rejected P' O' base64Audio _ Hne bin) by assumption.
    eexists. reflexivity.
  - intros e w'. repeat split.
Qed.

(** A host whose [atob] rejects the percent sign. *)
Lemma malformed_base64_path_witness :
  (exists w2 : World,
     run (mkOracle (fun _ => Resolved (responseWith (Some (js "%%%%")))) (fun _ => false))
         (speak browser (js "hi") initialWorld)
     = (afterCatch browser (js "hi") InvalidCharacterError w2, inl tt) /\
     last (trace w2) = Some (EvAtob (js "%%%%"))) /\
  (exists w3 : World,
     run deafOracle (speak browser (js "hi") initialWorld)
     = (afterCatch browser (js "hi") NotSupportedError w3, inl tt)).
Proof.
  set (O := mkOracle (fun _ => Resolved (responseWith (Some (js "%%%%")))) (fun _ => false)).
  split.
  - destruct (malformed_base64_path browser O (js "hi") (responseWith (Some (js "%%%%")))
                (js "%%%%") initialWorld)
      as (_ & Hdecode & _).
    + reflexivity.
    + reflexivity.
    + discriminate.
    + reflexivity.
    + destruct Hdecode as (_ & Hrun); [reflexivity | reflexivity |].
      eexists. split; [exact Hrun | reflexivity].
  - destruct (malformed_base64_path (mkPlatform true true (fun _ => None)) deafOracle
                (js "hi") (responseWith (Some tenBytes)) tenBytes initialWorld)
      as (_ & _ & Hsame & _).
    + reflexivity.
    + reflexivity.
    + discriminate.
    + reflexivity.
    + apply (Hsame deafOracle browser [0;1;2;3;4;5;6;7;8;9] initialWorld);
        reflexivity.
Defined.

(** ** The whole call: what it stops, what it sends, what it speaks *)

(** What the playback block leaves of the state it found. *)
Lemma PlayResult_state P O w b w' r :
  PlayResult P O w b (w', r) ->
  utterances w' = utterances w /\
  match r with
  | inr _ => audioRef w' = audioRef w /\ playing w' = playing w
  | inl _ =>
      (audioRef w' = audioRef w /\ playing w' = playing w) \/
      exists a', (length (audios w) <= a')%nat /\
                 audioRef w' = Some a' /\ playing w' = {[a']} ∪ playing w
  end.
Proof.
  intros H. inversion H; subst; (split; [reflexivity|]); auto.
  - right. exists (length (audios w)). auto.
  - right. exists (S (length (audios w))). auto.
Qed.

(** The trace of a call: the stop, the request, and then no further
    request and no utterance but the one of the fallback. *)
Lemma speak_trace P O text w :
  exists rest,
    trace (run O (speak P text w)).1
    = trace w ++ stopEvents P w ++ EvGenerateContent (ttsRequestOf text) :: rest /\
    (forall req, EvGenerateContent req ∉ rest) /\
    (forall u, EvSpeak u ∈ rest -> u = mkUtterance text (js "ar-SA")).
Proof.
  assert (Hreq : trace (afterRequest P text w)
                 = trace w ++ stopEvents P w ++ [EvGenerateContent (ttsRequestOf text)])
    by (unfold afterRequest, afterStop, emit; cbn [trace];
        rewrite <- app_assoc; reflexivity).
  assert (Hcatch : forall e, forall req,
            EvGenerateContent req
            ∉ EvConsoleError (js "TTS Error:") e
              :: (if hasSpeechSynthesis P
                  then [EvSpeak (mkUtterance text (js "ar-SA"))] else []))
    by (intros e req; destruct (hasSpeechSynthesis P); set_solver).
  assert (Hcatch' : forall e, forall u,
            EvSpeak u
            ∈ EvConsoleError (js "TTS Error:") e
              :: (if hasSpeechSynthesis P
                  then [EvSpeak (mkUtterance text (js "ar-SA"))] else []) ->
            u = mkUtterance text (js "ar-SA"))
    by (intros e u; destruct (hasSpeechSynthesis P); set_solver).
  rewrite run_speak.
  destruct (ttsAnswer O (ttsRequestOf text)) as [resp|e].
  - pose proof (run_playPayload_cases P O (base64AudioOf resp) (afterRequest P text w))
      as Hcases.
    destruct (run O (playPayload P (base64AudioOf resp) (afterRequest P text w)))
      as [w' r].
    destruct (PlayResult_trace _ _ _ _ _ _ Hcases) as (evs & Htr & Hnoreq & Hnospeak & _).
    destruct r as [[]|e].
    + exists evs. cbn [fst]. rewrite Htr, Hreq, <- !app_assoc. cbn [app].
      split; [reflexivity|]. split; [exact Hnoreq|].
      intros u Hu. destruct (Hnospeak u Hu).
    + eexists. unfold afterCatch. cbn [fst trace].
      rewrite Htr, Hreq, <- !app_assoc. cbn [app].
      split; [reflexivity|]. split.
      * intros req Hin. apply elem_of_app in Hin as [Hin|Hin].
        -- exact (Hnoreq req Hin).
        -- exact (Hcatch e req Hin).
      * intros u Hin. apply elem_of_app in Hin as [Hin|Hin].
        -- destruct (Hnospeak u Hin).
        -- exact (Hcatch' e u Hin).
  - eexists. unfold afterCatch. cbn [fst trace]. rewrite Hreq, <- !app_assoc. cbn [app].
    split; [reflexivity|]. split; [apply Hcatch | apply Hcatch'].
Qed.

(** Where whatever plays is the current element, nothing plays once the
    call has paused it. *)
Lemma afterStop_silent P w : exclusive P w -> playing (afterStop P w) = ∅.
Proof.
  intros (Hcur & _). unfold afterStop. cbn [playing].
  apply set_eq. intros x. split; [|set_solver].
  destruct (audioRef w) as [a|] eqn:Ha.
  - intros Hx. apply elem_of_difference in Hx as [Hx Hne].
    specialize (Hcur x Hx). set_solver.
  - intros Hx. specialize (Hcur x Hx). discriminate.
Qed.

(** C9.  Pausing the current element and cancelling native speech is the
    first thing a call does, whatever the backend will answer: both come
    before the request in the trace, the element that was current plays
    no more, and what was in the queue of the synthesizer is gone.  This
    holds just as well for a call whose answer carries no payload: it
    ends as soon as the answer is in, with the current element and the
    native speech silenced (and with nothing playing at all, where
    nothing but the current element played before). *)
Theorem stop_is_unconditional (P : Platform) (O : Oracle) (text : jsstring) (w : World) :
  let r := run O (speak P text w) in
  (exists rest,
     trace r.1 = trace w ++ stopEvents P w
                 ++ EvGenerateContent (ttsRequestOf text) :: rest /\
     forall req, EvGenerateContent req ∉ rest) /\
  (forall a, audioRef w = Some a ->
     EvPause a ∈ stopEvents P w /\
     ((a < length (audios w))%nat -> a ∉ playing r.1)) /\
  (hasSpeechSynthesis P = true ->
     EvCancel ∈ stopEvents P w /\
     (utterances r.1 = [] \/ utterances r.1 = [mkUtterance text (js "ar-SA")])) /\
  (forall resp,
     ttsAnswer O (ttsRequestOf text) = Resolved resp ->
     base64AudioOf resp = None \/ base64AudioOf resp = Some [] ->
     r = (afterRequest P text w, inl tt) /\
     audioRef (afterRequest P text w) = None /\
     (forall a, audioRef w = Some a -> a ∉ playing (afterRequest P text w)) /\
     (exclusive P w -> playing (afterRequest P text w) = ∅) /\
     (hasSpeechSynthesis P = true -> utterances (afterRequest P text w) = [])).
Proof.
  intros r.
  assert (Hstate : exists w' e,
            (r = (w', inl tt) \/ r = (afterCatch P text e w', inl tt)) /\
            utterances w' = utterances (afterStop P w) /\
            ((audioRef w' = None /\ playing w' = playing (afterStop P w)) \/
             exists a', (length (audios w) <= a')%nat /\
                        playing w' = {[a']} ∪ playing (afterStop P w))).
  { subst r. rewrite run_speak.
    destruct (ttsAnswer O (ttsRequestOf text)) as [resp|e].
    - pose proof (run_playPayload_cases P O (base64AudioOf resp) (afterRequest P text w))
        as Hcases.
      destruct (run O (playPayload P (base64AudioOf resp) (afterRequest P text w)))
        as [w' res].
      destruct (PlayResult_state _ _ _ _ _ _ Hcases) as (Hut & Hres).
      exists w'. destruct res as [[]|e].
      + exists RequestError. split; [auto|]. split; [exact Hut|].
        destruct Hres as [[? ?]|(a' & ? & ? & ?)]; [left; auto|right; eauto].
      + exists e. split; [auto|]. split; [exact Hut|]. left. exact Hres.
    - exists (afterRequest P text w), e. split; [auto|]. split; [reflexivity|].
      left. split; reflexivity. }
  destruct Hstate as (w' & e & Hr & Hut & Hpl).
  split; [|split; [|split]].
  - destruct (speak_trace P O text w) as (rest & Htr & Hnoreq & _). eauto.
  - intros a Ha. split.
    + unfold stopEvents. rewrite Ha. set_solver.
    + intros Hlt.
      assert (Hstop : a ∉ playing (afterStop P w))
        by (unfold afterStop; cbn [playing]; rewrite Ha; set_solver).
      assert (Hw' : a ∉ playing w').
      { destruct Hpl as [[_ ->]|(a' & Hge & ->)]; [exact Hstop|].
        apply not_elem_of_union. split; [|exact Hstop].
        apply not_elem_of_singleton. lia. }
      destruct Hr as [->| ->]; exact Hw'.
  - intros Hss. split.
    + unfold stopEvents. rewrite Hss. set_solver.
    + assert (Hnone : utterances w' = [])
        by (rewrite Hut; unfold afterStop; cbn [utterances]; rewrite Hss; reflexivity).
      destruct Hr as [->| ->]; [left; exact Hnone|right].
      unfold afterCatch. cbn [fst utterances]. rewrite Hss, Hnone. reflexivity.
  - intros resp Hans Hpay. subst r.
    rewrite run_speak, Hans. rewrite run_playPayload_falsy by exact Hpay.
    split; [reflexivity|]. split; [reflexivity|]. split; [|split].
    + intros a Ha. unfold afterRequest, afterStop, emit. cbn [playing].
      rewrite Ha. set_solver.
    + apply afterStop_silent.
    + intros Hss. unfold afterRequest, afterStop, emit. cbn [utterances].
      rewrite Hss. reflexivity.
Qed.

Lemma stop_is_unconditional_witness :
  run muteOracle (speak browser (js "hi") busyWorld)
  = (afterRequest browser (js "hi") busyWorld, inl tt) /\
  (0%nat ∉ playing (afterRequest browser (js "hi") busyWorld)) /\
  (0%nat ∉ playing (run wavOracle (speak browser (js "hi") busyWorld)).1) /\
  utterances (afterRequest browser (js "hi") busyWorld) = [] /\
  EvPause 0 ∈ stopEvents browser busyWorld /\
  EvCancel ∈ stopEvents browser busyWorld.
Proof.
  destruct (stop_is_unconditional browser muteOracle (js "hi") busyWorld)
    as (_ & Hpause & Hcancel & Hmute).
  destruct (stop_is_unconditional browser wavOracle (js "hi") busyWorld)
    as (_ & Hpause' & _).
  destruct (Hmute (responseWith None)) as (Hrun & _ & Hsilent & _ & Hquiet).
  - reflexivity.
  - left. reflexivity.
  - split; [exact Hrun|]. split; [apply (Hsilent 0%nat); reflexivity|].
    split; [apply (Hpause' 0%nat); [reflexivity | cbn; lia]|].
    split; [apply Hquiet; reflexivity|].
    split; [apply (Hpause 0%nat); reflexivity | apply Hcancel; reflexivity].
Defined.

Lemma substring_0_300 (text : jsstring) : substring text 0 300 = take 300 text.
Proof.
  unfold substring. set (len := Z.of_nat (length text)).
  assert (Hlen : 0 <= len) by lia.
  replace (Z.min (Z.max 0 0) len) with 0 by lia.
  destruct (Z.le_gt_cases 300 len) as [Hlong|Hshort].
  - replace (Z.min (Z.max 300 0) len) with 300 by lia. reflexivity.
  - replace (Z.min (Z.max 300 0) len) with len by lia.
    replace (Z.max 0 len - Z.min 0 len) with len by lia.
    replace (Z.min 0 len) with 0 by lia.
    subst len. rewrite Nat2Z.id. change (Z.to_nat 0) with 0%nat. rewrite drop_0.
    rewrite !take_ge by lia. reflexivity.
Qed.

(** C10.  The text sent to the backend is [text.substring(0, 300)], the
    first 300 code units at most, whereas the native fallback, whenever
    it runs, is given the whole text; so of a text longer than 300 code
    units the backend only ever gets a proper part. *)
Theorem tts_text_truncated (P : Platform) (O : Oracle) (text : jsstring) (w : World) :
  let r := run O (speak P text w) in
  reqText (ttsRequestOf text) = take 300 text /\
  (length (reqText (ttsRequestOf text)) <= 300)%nat /\
  ((300 < length text)%nat ->
   length (reqText (ttsRequestOf text)) = 300%nat /\ reqText (ttsRequestOf text) <> text) /\
  (exists rest,
     trace r.1 = trace w ++ stopEvents P w
                 ++ EvGenerateContent (ttsRequestOf text) :: rest /\
     (forall req, EvGenerateContent req ∉ rest) /\
     (forall u, EvSpeak u ∈ rest -> utterText u = text)) /\
  (hasSpeechSynthesis P = true ->
   (forall e, ttsAnswer O (ttsRequestOf text) = Rejected e ->
      last (trace r.1) = Some (EvSpeak (mkUtterance text (js "ar-SA")))) /\
   (forall resp w' e,
      ttsAnswer O (ttsRequestOf text) = Resolved resp ->
      run O (playPayload P (base64AudioOf resp) (afterRequest P text w)) = (w', inr e) ->
      last (trace r.1) = Some (EvSpeak (mkUtterance text (js "ar-SA"))))).
Proof.
  intros r.
  assert (Hreq : reqText (ttsRequestOf text) = take 300 text) by apply substring_0_300.
  split; [exact Hreq|]. rewrite Hreq.
  split; [rewrite length_take; lia|].
  split; [|split].
  - intros Hlong.
    assert (Hlen : length (take 300 text) = 300%nat) by (rewrite length_take; lia).
    split; [exact Hlen|]. intros Heq. rewrite Heq in Hlen. lia.
  - destruct (speak_trace P O text w) as (rest & Htr & Hnoreq & Hspeak).
    exists rest. split; [exact Htr|]. split; [exact Hnoreq|].
    intros u Hu. rewrite (Hspeak u Hu). reflexivity.
  - intros Hss. subst r. rewrite run_speak. split.
    + intros e ->. unfold afterCatch. cbn [fst trace]. rewrite Hss.
      rewrite last_app_cons. reflexivity.
    + intros resp w' e -> ->. unfold afterCatch. cbn [fst trace]. rewrite Hss.
      rewrite last_app_cons. reflexivity.
Qed.

(** A text of 301 code units, and a backend that is down. *)
Lemma tts_text_truncated_witness :
  length (reqText (ttsRequestOf (replicate 301 97))) = 300%nat /\
  last (trace (run downOracle (speak browser (replicate 301 97) initialWorld)).1)
  = Some (EvSpeak (mkUtterance (replicate 301 97) (js "ar-SA"))) /\
  last (trace (run deafOracle (speak browser (replicate 301 97) initialWorld)).1)
  = Some (EvSpeak (mkUtterance (replicate 301 97) (js "ar-SA"))).
Proof.
  destruct (tts_text_truncated browser downOracle (replicate 301 97) initialWorld)
    as (_ & _ & Hlong & _ & Hfallback).
  destruct (tts_text_truncated browser deafOracle (replicate 301 97) initialWorld)
    as (_ & _ & _ & _ & Hfallback').
  split; [|split].
  - destruct Hlong as [Hlen _]; [rewrite length_replicate; lia|]. exact Hlen.
  - destruct Hfallback as [Hdown _]; [reflexivity|].
    apply (Hdown RequestError). reflexivity.
  - destruct Hfallback' as [_ Hdeaf]; [reflexivity|].
    eapply (Hdeaf (responseWith (Some tenBytes))); reflexivity.
Defined.

(** ** One handle at a time *)

Lemma speak_keeps_exclusive P O text w :
  exclusive P w -> exclusive P (run O (speak P text w)).1.
Proof.
  intros Hw.
  pose proof (afterStop_silent P w Hw) as Hstop.
  destruct Hw as (Hcur & Hquiet & Hnone).
  assert (Hut : hasSpeechSynthesis P = false -> utterances (afterStop P w) = []).
  { intros Hss. unfold afterStop. cbn [utterances]. rewrite Hss. auto. }
  assert (Hut' : playing w ≠ ∅ \/ True -> utterances (afterStop P w) = []).
  { intros _. unfold afterStop. cbn [utterances].
    destruct (hasSpeechSynthesis P); auto. }
  rewrite run_speak.
  destruct (ttsAnswer O (ttsRequestOf text)) as [resp|e].
  - pose proof (run_playPayload_cases P O (base64AudioOf resp) (afterRequest P text w))
      as Hcases.
    destruct (run O (playPayload P (base64AudioOf resp) (afterRequest P text w)))
      as [w' r].
    destruct (PlayResult_state _ _ _ _ _ _ Hcases) as (Hu & Hres).
    change (utterances (afterRequest P text w)) with (utterances (afterStop P w)) in Hu.
    change (playing (afterRequest P text w)) with (playing (afterStop P w)) in Hres.
    change (audioRef (afterRequest P text w)) with (@None nat) in Hres.
    rewrite Hstop in Hres.
    destruct r as [[]|e]; cbn [fst].
    + destruct Hres as [[Href Hpl]|(a' & _ & Href & Hpl)].
      * repeat split.
        -- intros a Ha. rewrite Hpl in Ha. set_solver.
        -- intros Hne. rewrite Hpl in Hne. congruence.
        -- intros Hss. rewrite Hu. auto.
      * repeat split.
        -- intros a Ha. rewrite Hpl in Ha. rewrite Href. f_equal. set_solver.
        -- intros _. rewrite Hu. auto.
        -- intros Hss. rewrite Hu. auto.
    + destruct Hres as [Href Hpl]. unfold afterCatch. repeat split; cbn [playing utterances audioRef].
      * intros a Ha. rewrite Hpl in Ha. set_solver.
      * intros Hne. rewrite Hpl in Hne. congruence.
      * intros Hss. rewrite Hss, Hu. auto.
  - unfold afterCatch. cbn [fst]. repeat split; cbn [playing utterances audioRef].
    + intros a Ha. change (playing (afterRequest P text w)) with (playing (afterStop P w)) in Ha.
      rewrite Hstop in Ha. set_solver.
    + intros Hne. change (playing (afterRequest P text w)) with (playing (afterStop P w)) in Hne.
      congruence.
    + intros Hss. rewrite Hss. apply Hut, Hss.
Qed.

Lemma speakAll_keeps_exclusive P O texts : forall w,
  exclusive P w -> exclusive P (speakAll P O texts w).
Proof.
  induction texts as [|text texts IH]; intros w Hw; [exact Hw|].
  cbn [speakAll]. apply IH, speak_keeps_exclusive, Hw.
Qed.

(** A call that nothing overlaps: settling its promises one by one ends
    where [run] ends. *)
Lemma steps_alone P O (r : Res unit) :
  steps P O (replicate (awaits O r) (Settle 0)) (park r [])
  = Some (mkConfig (run O r).1 []).
Proof.
  induction r as [w a|w e|w B p k IH]; [reflexivity|reflexivity|].
  cbn [awaits replicate park app steps step suspended lookup list_lookup world
       promise resume delete list_delete run].
  apply IH.
Qed.

Lemma steps_call_alone P O text w :
  steps P O (Call text :: replicate (awaits O (speak P text w)) (Settle 0)) (mkConfig w [])
  = Some (mkConfig (run O (speak P text w)).1 []).
Proof. cbn [steps step world suspended]. apply steps_alone. Qed.

(** C4 (the code falls short of it).  Two calls that overlap: the second
    one enters while the first still waits for the backend, so it finds
    no current element to pause; both then get audio the host plays.  At
    the end elements 0 and 1 play together, only element 1 is current,
    and a later call pauses element 1 alone: element 0 plays on. *)
Theorem overlapping_calls_play_together :
  exists c : Config,
    steps browser wavOracle overlap (mkConfig initialWorld []) = Some c /\
    suspended c = [] /\
    audioRef (world c) = Some 1%nat /\
    playing (world c) = {[0%nat; 1%nat]} /\
    ~ exclusive browser (world c) /\
    0%nat ∈ playing (run muteOracle (speak browser (js "three") (world c))).1.
Proof.
  eexists. split; [reflexivity|]. cbn [world suspended].
  split; [reflexivity|]. split; [reflexivity|]. split; [|split].
  - cbn [playing]. apply set_eq. intros x. set_solver.
  - intros (Hcur & _). specialize (Hcur 0%nat). cbn [playing audioRef] in Hcur.
    assert (H01 : Some 1%nat = Some 0%nat) by (apply Hcur; set_solver).
    discriminate.
  - rewrite run_speak. cbn [ttsAnswer muteOracle].
    rewrite run_playPayload_falsy by (left; reflexivity).
    unfold afterRequest, afterStop, emit. cbn [fst playing audioRef]. set_solver.
Qed.

(** * Further properties *)

(** ** [writeString] *)

Lemma setUint8_insert (view : list Z) (i : nat) (v : Z) :
  setUint8 view i v
  = if (i <? length view)%nat then Some (<[i := ToUint8 v]> view) else None.
Proof.
  unfold setUint8, setBytes, rawBytes. cbn [fmap list_fmap seq storeBytes].
  replace (i + 1 <=? length view)%nat with (i <? length view)%nat
    by (destruct (Nat.ltb_spec i (length view)), (Nat.leb_spec (i + 1) (length view));
        auto; lia).
  destruct (i <? length view)%nat; [|reflexivity].
  do 2 f_equal. unfold byteOf, ToUint8. change (2 ^ (8 * Z.of_nat 0)) with 1.
  rewrite Z.div_1_r. change (2 ^ 8) with 256. apply Z.mod_mod. lia.
Qed.

Lemma writeString_loop_None (offset : nat) (string : jsstring) (idx : list nat) :
  foldl (fun acc i => view ← acc;
                      setUint8 view (offset + i) (default 0 (charCodeAt string i)))
        None idx = None.
Proof. induction idx as [|i idx IH]; [reflexivity|exact IH]. Qed.

Lemma writeString_loop (view : list Z) (offset : nat) (string : jsstring) (n : nat) :
  (n <= length string)%nat ->
  (offset + n <= length view)%nat ->
  foldl (fun acc i => view ← acc;
                      setUint8 view (offset + i) (default 0 (charCodeAt string i)))
        (Some view) (seq 0 n)
  = Some (take offset view ++ (ToUint8 <$> take n string) ++ drop (offset + n) view).
Proof.
  induction n as [|n IH]; intros Hn Hfit.
  - rewrite Nat.add_0_r. change (Some view = Some (take offset view ++ drop offset view)).
    rewrite take_drop. reflexivity.
  - rewrite seq_S, foldl_app, IH by lia. cbn [Nat.add foldl mbind option_bind].
    destruct (lookup_lt_is_Some_2 string n ltac:(lia)) as [x Hx].
    unfold charCodeAt. rewrite Hx. cbn [default].
    assert (Hlen : length (ToUint8 <$> take n string) = n)
      by (rewrite length_fmap, length_take; lia).
    rewrite setUint8_insert.
    rewrite !length_app, Hlen, length_take, length_drop.
    destruct (Nat.ltb_spec (offset + n)
                (offset `min` length view + (n + (length view - (offset + n)))))
      as [_|Hge]; [|lia].
    f_equal.
    rewrite <- (length_take_le view offset) at 1 by lia.
    rewrite insert_app_r.
    rewrite <- Hlen at 1.
    rewrite <- (Nat.add_0_r (length (ToUint8 <$> take n string))) at 1.
    rewrite insert_app_r.
    destruct (lookup_lt_is_Some_2 view (offset + n) ltac:(lia)) as [y Hy].
    rewrite (drop_S _ _ _ Hy). cbn [insert list_insert].
    rewrite (take_S_r _ _ x Hx), fmap_app, <- app_assoc. cbn [fmap list_fmap app].
    replace (offset + S n)%nat with (S (offset + n)) by lia. reflexivity.
Qed.

(** X1.  A string that fits is written over the bytes from [offset] on,
    one byte per code unit and each code unit reduced modulo 256 (so a
    character above U+00FF leaves only its low byte); the length of the
    buffer and all its other bytes stay as they were. *)
Theorem writeString_fits (view : list Z) (offset : nat) (string : jsstring) :
  (offset + length string <= length view)%nat ->
  exists view',
    writeString view offset string = Some view' /\
    view' = take offset view ++ (ToUint8 <$> string) ++ drop (offset + length string) view /\
    length view' = length view /\
    (forall i, (i < length string)%nat ->
       view' !! (offset + i)%nat = (fun c => c mod 256) <$> string !! i) /\
    (forall j, (j < offset)%nat \/ (offset + length string <= j)%nat ->
       view' !! j = view !! j).
Proof.
  intros Hfit. eexists. split.
  { unfold writeString. rewrite writeString_loop by lia. rewrite firstn_all. reflexivity. }
  assert (Hlen : length (ToUint8 <$> string) = length string) by apply length_fmap.
  split; [reflexivity|]. split; [|split].
  - rewrite !length_app, Hlen, length_take, length_drop. lia.
  - intros i Hi.
    rewrite lookup_app_r by (rewrite length_take; lia).
    rewrite length_take, Nat.min_l by lia.
    replace (offset + i - offset)%nat with i by lia.
    rewrite lookup_app_l by lia. rewrite list_lookup_fmap. reflexivity.
  - intros j [Hj|Hj].
    + rewrite lookup_app_l by (rewrite length_take; lia). apply lookup_take_lt. lia.
    + rewrite lookup_app_r by (rewrite length_take; lia).
      rewrite lookup_app_r by (rewrite length_take, Hlen; lia).
      rewrite lookup_drop, length_take, Hlen. f_equal. lia.
Qed.

Lemma writeString_fits_witness :
  writeString [1; 2; 3; 4; 5] 1 [65; 1593] = Some [1; 65; 57; 4; 5].
Proof.
  destruct (writeString_fits [1; 2; 3; 4; 5] 1 [65; 1593]) as (view' & Hw & -> & _).
  - cbn. lia.
  - exact Hw.
Defined.

(** X2.  [writeString] raises the [RangeError] of [setUint8] exactly when
    the string is not empty and does not fit behind [offset]; the empty
    string is accepted at any offset, also one beyond the buffer. *)
Theorem writeString_RangeError (view : list Z) (offset : nat) (string : jsstring) :
  writeString view offset string = None
  <-> string <> [] /\ (length view < offset + length string)%nat.
Proof.
  split.
  - intros Hnone. destruct string as [|c s]; [discriminate Hnone|].
    split; [discriminate|].
    destruct (Nat.le_gt_cases (offset + length (c :: s)) (length view)) as [Hfit|Hgt];
      [|exact Hgt].
    destruct (writeString_fits view offset (c :: s) Hfit) as (v & Hv & _).
    congruence.
  - intros [Hne Hgt]. unfold writeString.
    set (n := (length view - offset)%nat).
    destruct (Nat.le_gt_cases offset (length view)) as [Hin|Hout].
    + assert (Hn : (n < length string)%nat) by lia.
      replace (length string) with (n + S (length string - S n))%nat by lia.
      rewrite seq_app, foldl_app, writeString_loop by lia.
      cbn [seq foldl Nat.add mbind option_bind].
      rewrite setUint8_insert.
      rewrite !length_app, length_fmap, !length_take, length_drop.
      destruct (Nat.ltb_spec (offset + n)
                  (offset `min` length view
                   + (n `min` length string + (length view - (offset + n)))))
        as [Hlt|_]; [lia|].
      apply writeString_loop_None.
    + destruct string as [|c s]; [congruence|].
      cbn [length seq foldl mbind option_bind]. rewrite setUint8_insert.
      destruct (Nat.ltb_spec (offset + 0) (length view)) as [Hlt|_]; [lia|].
      apply writeString_loop_None.
Qed.

Lemma writeString_RangeError_witness :
  writeString (newArrayBuffer 44) 42 (js "data") = None /\
  writeString (newArrayBuffer 44) 99 [] <> None.
Proof.
  split.
  - apply (writeString_RangeError (newArrayBuffer 44) 42 (js "data")).
    split; [discriminate | vm_compute; lia].
  - intros Hw. apply (writeString_RangeError (newArrayBuffer 44) 99 []) in Hw.
    destruct Hw as [Hne _]. congruence.
Defined.

(** ** [speak] beyond the claims *)

(** X3.  A call of [speak] never ends in an error: whatever the backend
    and the host do (the request rejected, no audio context, a string
    that is not base64, both playbacks rejected), the promise [speak]
    returns is fulfilled.  Its callers, which neither await it nor catch,
    never get an unhandled rejection from it. *)
Theorem speak_never_rejects (P : Platform) (O : Oracle) (text : jsstring) (w : World) :
  (run O (speak P text w)).2 = inl tt.
Proof.
  rewrite run_speak.
  destruct (ttsAnswer O (ttsRequestOf text)) as [resp|e]; [|reflexivity].
  destruct (run O (playPayload P (base64AudioOf resp) (afterRequest P text w)))
    as [w' [[]|e]]; reflexivity.
Qed.

(** What the playback block does to the elements and to the handle. *)
Lemma PlayResult_audios P O w b w' r :
  PlayResult P O w b (w', r) ->
  exists new,
    audios w' = audios w ++ new /\ (length new <= 2)%nat /\
    match r with
    | inr _ => audioRef w' = audioRef w
    | inl _ =>
        (new = [] /\ audioRef w' = audioRef w) \/
        (new <> [] /\ audioRef w' = Some (pred (length (audios w'))) /\
         pred (length (audios w')) ∈ playing w')
    end.
Proof.
  intros H. inversion H; subst;
    unfold nowPlaying, decodedTried, logged, directTried, started;
    cbn [audioRef audios playing].
  - exists []. rewrite app_nil_r. auto.
  - eexists. split; [reflexivity|]. split; [cbn; lia|]. right.
    rewrite length_app, Nat.add_1_r. cbn [pred length].
    split; [discriminate|]. split; [reflexivity|]. set_solver.
  - eexists. split; [reflexivity|]. split; [cbn; lia|]. reflexivity.
  - eexists. split; [reflexivity|]. split; [cbn; lia|]. reflexivity.
  - eexists. split; [rewrite <- app_assoc; reflexivity|]. split; [cbn; lia|]. right.
    rewrite !length_app. cbn [length]. rewrite Nat.add_1_r. cbn [pred].
    rewrite Nat.add_1_r.
    split; [discriminate|]. split; [reflexivity|]. set_solver.
  - eexists. split; [rewrite <- app_assoc; reflexivity|]. split; [cbn; lia|].
    reflexivity.
Qed.

(** X4.  A call that runs to its end with no other call in between
    ([run]) creates at most two audio elements and never drops or
    renumbers an earlier one.  If it ends with a current element, that
    element is the one it created last, it is playing, and the call has
    not spoken natively; so a call on its own never leaves both its own
    audio and its own native utterance behind.  Calls that overlap are
    not covered: there another call can set the current element while
    this one waits. *)
Theorem speak_handle_is_last_element (P : Platform) (O : Oracle) (text : jsstring)
    (w : World) :
  let w' := (run O (speak P text w)).1 in
  exists new,
    audios w' = audios w ++ new /\
    (length new <= 2)%nat /\
    (forall a, audioRef w' = Some a ->
       new <> [] /\
       a = pred (length (audios w')) /\
       (length (audios w) <= a)%nat /\
       a ∈ playing w' /\
       forall u, EvSpeak u ∉ drop (length (trace w)) (trace w')).
Proof.
  intros w'. subst w'. rewrite run_speak.
  assert (Ha : audios (afterRequest P text w) = audios w) by reflexivity.
  assert (Hr : audioRef (afterRequest P text w) = None) by reflexivity.
  assert (Ht : trace (afterRequest P text w)
               = trace w ++ stopEvents P w ++ [EvGenerateContent (ttsRequestOf text)])
    by (unfold afterRequest, afterStop, emit; cbn [trace];
        rewrite <- app_assoc; reflexivity).
  assert (Hstop : forall u, EvSpeak u ∉ stopEvents P w
                                        ++ [EvGenerateContent (ttsRequestOf text)]).
  { intros u. unfold stopEvents.
    destruct (audioRef w), (hasSpeechSynthesis P); set_solver. }
  destruct (ttsAnswer O (ttsRequestOf text)) as [resp|e].
  - pose proof (run_playPayload_cases P O (base64AudioOf resp) (afterRequest P text w))
      as Hcases.
    destruct (run O (playPayload P (base64AudioOf resp) (afterRequest P text w)))
      as [w' r].
    destruct (PlayResult_audios _ _ _ _ _ _ Hcases) as (new & Hnew & Hlen & Hres).
    destruct (PlayResult_trace _ _ _ _ _ _ Hcases) as (evs & Htr & _ & Hnospeak & _).
    rewrite Ha in Hnew. rewrite Hr in Hres.
    exists new. destruct r as [[]|e]; cbn [fst].
    + split; [exact Hnew|]. split; [exact Hlen|].
      intros a Href.
      destruct Hres as [[_ Hnone]|(Hne & Hlast & Hplay)]; [congruence|].
      rewrite Hlast in Href. injection Href as <-.
      split; [exact Hne|]. split; [reflexivity|]. split; [|split; [exact Hplay|]].
      * rewrite Hnew, length_app. destruct new; [congruence|]. cbn [length]. lia.
      * intros u. rewrite Htr, Ht, <- !app_assoc, drop_app_length.
        intros Hin. rewrite app_assoc in Hin.
        apply elem_of_app in Hin as [Hin|Hin];
          [exact (Hstop u Hin) | exact (Hnospeak u Hin)].
    + unfold afterCatch. cbn [audios audioRef].
      split; [exact Hnew|]. split; [exact Hlen|]. intros a Href. congruence.
  - exists []. unfold afterCatch. cbn [fst audios audioRef].
    rewrite Ha, Hr, app_nil_r. split; [reflexivity|]. split; [cbn; lia|].
    intros a Href. discriminate.
Qed.

Lemma speak_handle_is_last_element_witness :
  audioRef (run rawOracle (speak browser (js "hi") busyWorld)).1 = Some 2%nat /\
  (2%nat ∈ playing (run rawOracle (speak browser (js "hi") busyWorld)).1).
Proof.
  destruct (speak_handle_is_last_element browser rawOracle (js "hi") busyWorld)
    as (new & _ & _ & Hhandle).
  destruct (Hhandle 2%nat) as (_ & _ & _ & Hplay & _); [reflexivity|].
  split; [reflexivity | exact Hplay].
Defined.

(** X5.  Calls that do not overlap keep the audio exclusive: if whatever
    plays is the current element and nothing plays while the native
    synthesizer speaks, the same holds after any number of calls made one
    after the other, each run to its end. *)
Theorem sequential_calls_stay_exclusive (P : Platform) (O : Oracle)
    (texts : list jsstring) (w : World) :
  exclusive P w ->
  exclusive P (speakAll P O texts w) /\
  (size (playing (speakAll P O texts w)) <= 1)%nat.
Proof.
  intros Hw.
  assert (Hex : exclusive P (speakAll P O texts w)).
  { revert w Hw. induction texts as [|text texts IH]; intros w Hw; [exact Hw|].
    cbn [speakAll]. apply IH, speak_keeps_exclusive, Hw. }
  split; [exact Hex|].
  destruct Hex as (Hcur & _).
  destruct (audioRef (speakAll P O texts w)) as [a|] eqn:Href.
  - assert (Hsub : playing (speakAll P O texts w) ⊆ {[a]}).
    { intros x Hx. specialize (Hcur x Hx). set_solver. }
    apply subseteq_size in Hsub. rewrite size_singleton in Hsub. exact Hsub.
  - assert (Hemp : playing (speakAll P O texts w) = ∅).
    { apply set_eq. intros x. split; [|set_solver].
      intros Hx. specialize (Hcur x Hx). discriminate. }
    rewrite Hemp, size_empty. lia.
Qed.

Lemma sequential_calls_stay_exclusive_witness :
  exclusive browser (speakAll browser wavOracle [js "one"; js "two"] initialWorld) /\
  playing (speakAll browser wavOracle [js "one"; js "two"] initialWorld) = {[1%nat]}.
Proof.
  destruct (sequential_calls_stay_exclusive browser wavOracle [js "one"; js "two"]
              initialWorld) as [Hex _].
  - repeat split; cbn [initialWorld playing utterances]; try reflexivity; set_solver.
  - split; [exact Hex|]. cbn. apply set_eq. intros x. set_solver.
Defined.

(** ** The lessons library *)

Lemma addToLibrary_cases (library : list LessonData) (lesson : LessonData)
    (prev : list LessonData) :
  ((english lesson ∈ english <$> library) /\ addToLibrary library lesson prev = prev) \/
  ((english lesson ∉ english <$> library) /\ addToLibrary library lesson prev = lesson :: prev).
Proof.
  unfold addToLibrary.
  destruct (existsb (fun l => bool_decide (english l = english lesson)) library) eqn:Hex.
  - left. split; [|reflexivity].
    apply existsb_exists in Hex as (l & Hl & Heq).
    apply bool_decide_eq_true in Heq. rewrite <- Heq.
    apply list_elem_of_fmap. exists l. split; [reflexivity|].
    apply list_elem_of_In, Hl.
  - right. split; [|reflexivity].
    intros Hin. apply list_elem_of_fmap in Hin as (l & Heq & Hl).
    assert (Htrue : existsb (fun l => bool_decide (english l = english lesson)) library
                    = true).
    { apply existsb_exists. exists l. split; [apply list_elem_of_In, Hl|].
      apply bool_decide_eq_true. congruence. }
    congruence.
Qed.

(** X6.  Saving keeps the English terms of the library pairwise distinct:
    a lesson whose term is already saved is not added again, whatever its
    other fields are (the lesson saved first stays), and a lesson with a
    new term is put in front of the others.  Saving the same lesson a
    second time changes nothing. *)
Theorem addToLibrary_keeps_terms_distinct (library : list LessonData)
    (lesson : LessonData) :
  NoDup (english <$> library) ->
  let library' := addToLibrary library lesson library in
  NoDup (english <$> library') /\
  (english lesson ∈ english <$> library') /\
  (english lesson ∈ english <$> library -> library' = library) /\
  (english lesson ∉ english <$> library -> library' = lesson :: library) /\
  addToLibrary library' lesson library' = library'.
Proof.
  intros Hnodup library'. subst library'.
  destruct (addToLibrary_cases library lesson library) as [[Hin ->]|[Hnin ->]].
  - split; [exact Hnodup|]. split; [exact Hin|]. split; [reflexivity|].
    split; [intros Hnin; contradiction|].
    destruct (addToLibrary_cases library lesson library) as [[_ ->]|[Hnin _]];
      [reflexivity | contradiction].
  - split; [cbn [fmap list_fmap]; apply NoDup_cons; auto|].
    split; [cbn [fmap list_fmap]; apply elem_of_cons; auto|].
    split; [intros Hin; contradiction|]. split; [reflexivity|].
    destruct (addToLibrary_cases (lesson :: library) lesson (lesson :: library))
      as [[_ ->]|[Hnin' _]]; [reflexivity|].
    exfalso. apply Hnin'. cbn [fmap list_fmap]. apply elem_of_cons. auto.
Qed.

Lemma addToLibrary_keeps_terms_distinct_witness :
  let cat := mkLesson (Some (js "cat")) None None None None 1 in
  let cat' := mkLesson (Some (js "cat")) (Some (js "A cat.")) None None None 2 in
  let dog := mkLesson (Some (js "dog")) None None None None 3 in
  addToLibrary [cat] cat' [cat] = [cat] /\
  addToLibrary [cat] dog [cat] = [dog; cat].
Proof.
  intros cat cat' dog.
  assert (Hnodup : NoDup (english <$> [cat]))
    by (apply NoDup_cons; split; [set_solver | apply NoDup_nil_2]).
  split.
  - destruct (addToLibrary_keeps_terms_distinct [cat] cat' Hnodup)
      as (_ & _ & Hsame & _).
    apply Hsame. cbn. set_solver.
  - destruct (addToLibrary_keeps_terms_distinct [cat] dog Hnodup)
      as (_ & _ & _ & Hnew & _).
    apply Hnew. cbn. intros Hin. apply list_elem_of_singleton in Hin. discriminate.
Defined.

(** X7.  Removing by timestamp removes every lesson with that timestamp
    and no other: the lessons left are those of the library with another
    timestamp, in their order; nothing is ever added, distinct terms stay
    distinct, and a timestamp no lesson has leaves the library as it is. *)
Theorem removeFromLibrary_by_timestamp (ts : Z) (prev : list LessonData) :
  (forall l, l ∈ removeFromLibrary ts prev <-> l ∈ prev /\ timestamp l <> ts) /\
  removeFromLibrary ts prev `sublist_of` prev /\
  (length (removeFromLibrary ts prev) <= length prev)%nat /\
  (NoDup (english <$> prev) -> NoDup (english <$> removeFromLibrary ts prev)) /\
  (Forall (fun l => timestamp l <> ts) prev -> removeFromLibrary ts prev = prev) /\
  removeFromLibrary ts (removeFromLibrary ts prev) = removeFromLibrary ts prev.
Proof.
  unfold removeFromLibrary. split; [|split; [|split; [|split; [|split]]]].
  - intros l. rewrite list_elem_of_filter. tauto.
  - apply sublist_filter.
  - apply length_filter.
  - intros Hnodup. apply (sublist_NoDup _ (english <$> prev)); [exact Hnodup|].
    apply fmap_sublist, sublist_filter.
  - intros Hall. induction Hall as [|l ls Hl _ IH]; [reflexivity|].
    rewrite filter_cons_True by exact Hl. f_equal. exact IH.
  - apply list_filter_filter_l. auto.
Qed.

Lemma removeFromLibrary_by_timestamp_witness :
  let cat := mkLesson (Some (js "cat")) None None None None 1 in
  let dog := mkLesson (Some (js "dog")) None None None None 3 in
  removeFromLibrary 7 [dog; cat] = [dog; cat] /\
  NoDup (english <$> removeFromLibrary 1 [dog; cat]) /\
  (dog ∈ removeFromLibrary 1 [dog; cat]).
Proof.
  intros cat dog.
  destruct (removeFromLibrary_by_timestamp 7 [dog; cat]) as (_ & _ & _ & _ & Hsame & _).
  destruct (removeFromLibrary_by_timestamp 1 [dog; cat]) as (Hin & _ & _ & Hnodup & _).
  split; [|split].
  - apply Hsame. repeat constructor; cbn; lia.
  - apply Hnodup. cbn.
    apply NoDup_cons. split; [|apply NoDup_cons; split; [set_solver|apply NoDup_nil_2]].
    intros H. apply list_elem_of_singleton in H. discriminate.
  - apply Hin. split; [set_solver | cbn; lia].
Defined.

(** X8.  Saving a lesson and then removing it by its timestamp gives the
    library back, provided its term was new and no saved lesson shares
    its timestamp; a saved lesson that does share the timestamp is
    removed along with it. *)
Theorem save_then_remove (library : list LessonData) (lesson : LessonData) :
  (english lesson ∉ english <$> library) ->
  (Forall (fun l => timestamp l <> timestamp lesson) library ->
   removeFromLibrary (timestamp lesson) (addToLibrary library lesson library) = library) /\
  (forall l, l ∈ library -> timestamp l = timestamp lesson ->
   l ∉ removeFromLibrary (timestamp lesson) (addToLibrary library lesson library)).
Proof.
  intros Hnew.
  destruct (addToLibrary_cases library lesson library) as [[Hin _]|[_ ->]];
    [contradiction|].
  unfold removeFromLibrary. split.
  - intros Hall. rewrite filter_cons_False by auto.
    induction Hall as [|l ls Hl _ IH]; [reflexivity|].
    rewrite filter_cons_True by exact Hl. f_equal. apply IH.
    intros Hin. apply Hnew. cbn [fmap list_fmap]. apply elem_of_cons. auto.
  - intros l _ Hts Hin. apply list_elem_of_filter in Hin as [Hne _]. contradiction.
Qed.

Lemma save_then_remove_witness :
  let cat := mkLesson (Some (js "cat")) None None None None 1 in
  let dog := mkLesson (Some (js "dog")) None None None None 3 in
  let owl := mkLesson (Some (js "owl")) None None None None 3 in
  removeFromLibrary 3 (addToLibrary [cat] dog [cat]) = [cat] /\
  (owl ∉ removeFromLibrary 3 (addToLibrary [owl; cat] dog [owl; cat])).
Proof.
  intros cat dog owl. split.
  - destruct (save_then_remove [cat] dog) as [Hback _].
    + cbn. intros Hin. apply list_elem_of_singleton in Hin. discriminate.
    + apply Hback. repeat constructor; cbn; lia.
  - destruct (save_then_remove [owl; cat] dog) as [_ Hboth].
    + cbn. intros Hin. apply elem_of_cons in Hin as [Hin|Hin]; [discriminate|].
      apply list_elem_of_singleton in Hin. discriminate.
    + apply (Hboth owl); [set_solver | reflexivity].
Defined.

(** ** Voice input and the teaching mode *)

Lemma startsWith_app (p r : jsstring) : startsWith (p ++ r) p = true.
Proof.
  induction p as [|c p IH]; [reflexivity|].
  cbn [app startsWith]. rewrite Z.eqb_refl. exact IH.
Qed.

Lemma startsWith_shorter (s p q : jsstring) :
  startsWith s (p ++ q) = true -> startsWith s p = true.
Proof.
  revert s. induction p as [|c p IH]; intros s H; [reflexivity|].
  destruct s as [|d s]; [discriminate H|].
  cbn [app startsWith] in *. apply andb_prop in H as [-> H]. apply IH, H.
Qed.

Lemma trimStart_keeps (l1 l2 : jsstring) (c : Z) :
  isWhiteSpace c = false ->
  exists x, trimStart (l1 ++ c :: l2) = x ++ c :: l2.
Proof.
  intros Hc. induction l1 as [|d l1 IH].
  - exists []. cbn [app trimStart]. rewrite Hc. reflexivity.
  - cbn [app trimStart]. destruct (isWhiteSpace d); [exact IH|].
    exists (d :: l1). reflexivity.
Qed.

(** Whatever ends in a character that is not white space is kept by
    [trimEnd]. *)
Lemma trimEnd_keeps (a b : jsstring) (c : Z) :
  isWhiteSpace c = false ->
  exists b', trimEnd (a ++ c :: b) = a ++ c :: b'.
Proof.
  intros Hc. unfold trimEnd.
  rewrite reverse_app, reverse_cons, <- app_assoc. cbn [app].
  destruct (trimStart_keeps (reverse b) (reverse a) c Hc) as (x & ->).
  exists (reverse x).
  rewrite reverse_app, reverse_cons, reverse_involutive, <- app_assoc. reflexivity.
Qed.

Lemma teachWord_units : teachWord = [1593; 1604; 1605; 1606; 1610].
Proof. reflexivity. Qed.

(** The test for the colon form adds nothing to the test for the word. *)
Lemma isTeachRequest_word (text : jsstring) :
  isTeachRequest text = startsWith (trim text) teachWord.
Proof.
  unfold isTeachRequest.
  change (utf16 "علمني:") with (teachWord ++ [58]).
  change (utf16 "علمني") with teachWord.
  destruct (startsWith (trim text) (teachWord ++ [58])) eqn:Hcolon; [|reflexivity].
  apply startsWith_shorter in Hcolon. rewrite Hcolon. reflexivity.
Qed.



(** X10.  The teaching word is stripped from the term only when it stands
    at the very start of the text, although the mode is chosen on the
    trimmed text.  So a request with the word first loses the word and a
    colon right after it, and the word alone gives the empty term (on
    which the handler returns without asking the backend); but a request
    that begins with white space is still a teaching request and keeps
    the word in its term, which is then never empty. *)
Theorem teachTerm_strips_only_at_start :
  (forall rest, teachTerm (utf16 "علمني:" ++ rest) = trim rest) /\
  (forall rest, head rest <> Some 58 -> teachTerm (utf16 "علمني" ++ rest) = trim rest) /\
  teachTerm (utf16 "علمني") = [] /\
  teachTerm (utf16 "علمني: ") = [] /\
  (forall c text,
     isWhiteSpace c = true ->
     teachTerm (c :: text) = trim (c :: text) /\
     (isTeachRequest (c :: text) = true ->
      startsWith (teachTerm (c :: text)) (utf16 "علمني") = true /\
      teachTerm (c :: text) <> [])).
Proof.
  change (utf16 "علمني") with teachWord.
  split; [|split; [|split; [reflexivity|split; [reflexivity|]]]].
  - intros rest. unfold teachTerm, stripTeachWord.
    change (utf16 "علمني:" ++ rest) with (teachWord ++ 58 :: rest).
    change (utf16 "علمني") with teachWord.
    rewrite startsWith_app, drop_app_length. reflexivity.
  - intros rest Hhead. unfold teachTerm, stripTeachWord.
    change (utf16 "علمني") with teachWord.
    rewrite startsWith_app, drop_app_length.
    destruct rest as [|d rest]; [reflexivity|].
    destruct (Z.eq_dec d 58) as [->|Hne]; [exfalso; apply Hhead; reflexivity|].
    destruct d as [|d|d]; try reflexivity.
    repeat (destruct d as [d|d|]; try reflexivity).
    exfalso. apply Hne. reflexivity.
  - intros c text Hc.
    assert (Hstrip : stripTeachWord (c :: text) = c :: text).
    { unfold stripTeachWord. change (utf16 "علمني") with teachWord.
      rewrite teachWord_units. cbn [startsWith].
      destruct (Z.eqb_spec 1593 c) as [<-|_]; [discriminate Hc|reflexivity]. }
    unfold teachTerm. rewrite Hstrip. split; [reflexivity|].
    rewrite isTeachRequest_word. intros Hteach. split; [exact Hteach|].
    intros Hnil. rewrite Hnil in Hteach. discriminate Hteach.
Qed.

Lemma teachTerm_strips_only_at_start_witness :
  teachTerm (utf16 "علمني: cat ") = js "cat" /\
  teachTerm (utf16 "علمني cat") = js "cat" /\
  teachTerm (utf16 " علمني: cat") = utf16 "علمني: cat".
Proof.
  destruct teachTerm_strips_only_at_start as (Hcolon & Hword & _ & _ & Hspace).
  split; [|split].
  - exact (Hcolon (js " cat ")).
  - apply (Hword (js " cat")). discriminate.
  - destruct (Hspace 32 (utf16 "علمني: cat") eq_refl) as [Hterm _]. exact Hterm.
Defined.

(** ** The send handler

    The handler run to its end, one call at a time. *)


Ltac app_step :=
  unfold mbind, mret, AppProg_bind, AppProg_ret, AppAsync.bind, AppAsync.tryCatch,
    AppAsync.tryFinally, AppAsync.ret, AppAsync.throw, AppAsync.get, AppAsync.modify,
    AppAsync.orThrow, setMessages, setInput, setIsProcessing, setSelectedImage,
    consoleError, generate, callSpeak, dateNow, reply, field;
  cbn [AppAsync.bindRes AppAsync.catchRes AppAsync.finallyRes runApp
       messages input isProcessing selectedImage audio clock requests errors
       later requested fst snd].

Ltac app_state :=
  cbn [idle spoken replied noted asked accepted later requested
       messages input isProcessing selectedImage audio clock requests errors
       Message.id Message.role Message.content Message.image Message.lessonData
       userMessage assistantMessage english example_en example_ar image_prompt
       image_url timestamp fst snd].

Ltac app_answered :=
  eexists _, _; split; [reflexivity|]; app_state; split; [reflexivity|];
  split; [reflexivity|]; app_state; reflexivity.

Section AppRuns.

Variables (H : Host) (B : Backend).

Lemma runApp_bindRes {A C} (r : AppRes A) (f : A -> AppProg C) :
  runApp B (AppAsync.bindRes r f)
  = match runApp B r with
    | (s, inl a) => runApp B (f a s)
    | (s, inr e) => (s, inr e)
    end.
Proof. induction r as [s a|s e|s req k IH]; cbn; [reflexivity..|apply IH]. Qed.

Lemma runApp_catchRes {A} (r : AppRes A) (h : Thrown -> AppProg A) :
  runApp B (AppAsync.catchRes r h)
  = match runApp B r with
    | (s, inl a) => (s, inl a)
    | (s, inr e) => runApp B (h e s)
    end.
Proof. induction r as [s a|s e|s req k IH]; cbn; [reflexivity..|apply IH]. Qed.

Lemma runApp_finallyRes {A} (r : AppRes A) (f : AppProg unit) :
  runApp B (AppAsync.finallyRes r f)
  = match runApp B r with
    | (s, inl a) => runApp B (AppAsync.bindRes (f s) (fun _ => AppAsync.ret a))
    | (s, inr e) => runApp B (AppAsync.bindRes (f s) (fun _ => AppAsync.throw e))
    end.
Proof. induction r as [s a|s e|s req k IH]; cbn; [reflexivity..|apply IH]. Qed.

Lemma run_chatMode (text : jsstring) (image : option jsstring) (s : App) :
  let req := match image with
             | Some img =>
                 visionRequest (head (splitOn 59 img) ≫= (fun h => splitOn 58 h !! 1%nat))
                               (splitOn 44 img !! 1%nat) text
             | None => chatRequest text
             end in
  runApp B (chatMode H B text image s)
  = match answer B req with
    | Resolved result =>
        let responseText := orElse (responseText result) notUnderstoodText in
        (spoken (platform H) responseText
           (replied B responseText None None (asked B req s)), inl tt)
    | Rejected e => (asked B req s, inr (Rejection e))
    end.
Proof.
  unfold chatMode. destruct image as [img|]; app_step.
  all: match goal with |- context [answer B ?r] => destruct (answer B r) end.
  all: app_step; reflexivity.
Qed.

Lemma run_teachMode (text : jsstring) (s : App) :
  let term := teachTerm text in
  let s1 := asked B (teachRequest term) s in
  runApp B (teachMode H B text s)
  = match term with
    | [] => (s, inl tt)
    | _ :: _ =>
        match answer B (teachRequest term) with
        | Rejected e => (s1, inr (Rejection e))
        | Resolved eduResponse =>
            match JSON_parse H (orElse (responseText eduResponse) (js "{}")) with
            | None => (s1, inr SyntaxError)
            | Some ParsedNull =>
                (noted (js "Image gen failed") (Some NullAccess) s1, inr NullAccess)
            | Some (ParsedObject d) =>
                let req := cartoonRequest (edu_image_prompt d) in
                let imageUrl := lessonImage (answer B req) in
                let s2 := match answer B req with
                          | Resolved _ => asked B req s1
                          | Rejected e =>
                              noted (js "Image gen failed") (Some (Rejection e))
                                    (asked B req s1)
                          end in
                let lessonData :=
                  mkLesson (edu_english d) (edu_example_en d) (edu_example_ar d)
                           (edu_image_prompt d) imageUrl (clock s2) in
                (idle (spoken (platform H) (lessonSpoken (edu_english d) (edu_example_en d))
                         (replied B
                            (lessonContent (edu_english d) (edu_example_en d)
                                           (edu_example_ar d))
                            imageUrl (Some lessonData) (later B s2))), inl tt)
            end
        end
    end.
Proof.
  unfold teachMode. destruct (teachTerm text) as [|c term]; [reflexivity|].
  app_step. destruct (answer B (teachRequest (c :: term))) as [eduResponse|e];
    app_step; [|reflexivity].
  destruct (JSON_parse H _) as [[|d]|]; app_step; [reflexivity| |reflexivity].
  destruct (answer B (cartoonRequest (edu_image_prompt d))) as [imageResponse|e];
    app_step; reflexivity.
Qed.

Lemma run_drawMode (text : jsstring) (s : App) :
  let finalPrompt := drawPrompt text in
  let translation := answer B (translateRequest finalPrompt) in
  let englishPrompt := englishPromptOf finalPrompt translation in
  let s1 := match translation with
            | Resolved _ => asked B (translateRequest finalPrompt) s
            | Rejected _ =>
                noted (js "Translation failed, using original prompt") None
                      (asked B (translateRequest finalPrompt) s)
            end in
  let s2 := asked B (imageRequest englishPrompt) s1 in
  let shown imageUrl s :=
    idle (spoken (platform H) (drawReply finalPrompt)
            (replied B (drawReply finalPrompt) (Some imageUrl) None s)) in
  let fallback genError :=
    let s3 := noted (js "Gemini Image Gen failed, falling back to Pollinations:")
                    (Some genError) s2 in
    match encodeURIComponent H englishPrompt with
    | Some encoded => (shown (pollinationsUrl encoded (randomSeed B)) s3, inl tt)
    | None => (s3, inr URIError)
    end in
  runApp B (drawMode H B text s)
  = match answer B (imageRequest englishPrompt) with
    | Resolved imageResponse =>
        match generatedImageBase64 imageResponse with
        | Some (c :: d) => (shown (js "data:image/jpeg;base64," ++ c :: d) s2, inl tt)
        | _ => fallback NoImageData
        end
    | Rejected e => fallback (Rejection e)
    end.
Proof.
  unfold drawMode. app_step.
  destruct (answer B (translateRequest (drawPrompt text))) as [translationResponse|e0];
    app_step; cbn [englishPromptOf];
    match goal with |- context [imageRequest ?p] => generalize p; intros englishPrompt end;
    (destruct (answer B (imageRequest englishPrompt)) as [imageResponse|e]; app_step;
     [destruct (generatedImageBase64 imageResponse) as [[|c d]|]; app_step|]);
    try reflexivity;
    destruct (encodeURIComponent H englishPrompt); app_step; reflexivity.
Qed.

Lemma run_handleSend (textOverride : option jsstring) (s : App) :
  let text := textToSend textOverride (input s) in
  runApp B (handleSend H B textOverride s)
  = if refusesToSend text (selectedImage s) (isProcessing s) then (s, inl tt)
    else
      match runApp B (handleSendTry H B text (orUndefined (selectedImage s))
                        (accepted B text s)) with
      | (s', inl _) => (idle s', inl tt)
      | (s', inr e) =>
          (idle (replied B apologyText None None (noted (js "Error:") (Some e) s')), inl tt)
      end.
Proof.
  unfold handleSend. app_step.
  destruct (refusesToSend _ _ _); [reflexivity|]. app_step.
  rewrite runApp_finallyRes, runApp_catchRes.
  change (mkApp (messages s ++ _) _ _ _ _ _ _ _)
    with (accepted B (textToSend textOverride (input s)) s).
  change (Message.image (userMessage _ (selectedImage s) _))
    with (orUndefined (selectedImage s)).
  destruct (runApp B (handleSendTry H B _ _ _)) as [s' [[]|e]]; reflexivity.
Qed.

End AppRuns.

Lemma speak_suspends (P : Platform) (text : jsstring) (w : World) :
  exists k, speak P text w
            = Susp (afterRequest P text w) (GenerateContent (ttsRequestOf text)) k.
Proof.
  unfold speak, speakTry. prog_step. rewrite stopExisting_eq. prog_step.
  eexists. reflexivity.
Qed.

Lemma handleSendTry_result (H : Host) (B : Backend) (text : jsstring)
    (image : option jsstring) (s0 : App) :
  exists s1 r,
    runApp B (handleSendTry H B text image s0) = (s1, r) /\
    input s1 = input s0 /\ selectedImage s1 = selectedImage s0 /\
    match r with
    | inr e =>
        ~ (isTeachRequest text = true /\ teachTerm text = []) /\
        messages s1 = messages s0 /\ audio s1 = audio s0
    | inl _ =>
        (s1 = s0 /\ isTeachRequest text = true /\ teachTerm text = [])
        \/ (~ (isTeachRequest text = true /\ teachTerm text = []) /\
            exists m t,
              messages s1 = messages s0 ++ [m] /\
              Message.role m = assistant /\
              audio s1 = park (speak (platform H) t (world (audio s0)))
                              (suspended (audio s0)) /\
              match Message.lessonData m with
              | Some l => t = lessonSpoken (english l) (example_en l)
              | None => t = Message.content m
              end)
    end.
Proof.
  unfold handleSendTry.
  destruct (isTeachRequest text) eqn:Hteach.
  - rewrite run_teachMode. cbv zeta.
    destruct (teachTerm text) as [|c term] eqn:Hterm.
    { eexists _, _. split; [reflexivity|]. do 2 (split; [reflexivity|]). left. auto. }
    destruct (answer B (teachRequest (c :: term))) as [eduResponse|e];
      [destruct (JSON_parse H _) as [[|d]|];
       [| destruct (answer B (cartoonRequest (edu_image_prompt d))) |] |].
    all: eexists _, _; (split; [reflexivity|]); app_state.
    all: do 2 (split; [reflexivity|]).
    all: try (split; [intros [? ?]; discriminate|split; reflexivity]).
    all: right; (split; [intros [? ?]; discriminate|]); app_answered.
  - destruct (isDrawRequest H text && _) eqn:Hdraw.
    + rewrite run_drawMode. cbv zeta.
      match goal with |- context [imageRequest ?p] => generalize p; intros englishPrompt end.
      destruct (answer B (translateRequest _)).
      all: destruct (answer B (imageRequest englishPrompt)) as [imageResponse|e'].
      all: try destruct (generatedImageBase64 imageResponse) as [[|c d]|].
      all: try destruct (encodeURIComponent H englishPrompt).
      all: eexists _, _; (split; [reflexivity|]); app_state.
      all: do 2 (split; [reflexivity|]).
      all: try (split; [intros [? ?]; discriminate|split; reflexivity]).
      all: right; (split; [intros [? ?]; discriminate|]); app_answered.
    + rewrite run_chatMode. cbv zeta.
      match goal with |- context [answer B ?r] => destruct (answer B r) end.
      all: eexists _, _; (split; [reflexivity|]); app_state.
      all: do 2 (split; [reflexivity|]).
      all: try (split; [intros [? ?]; discriminate|split; reflexivity]).
      all: right; (split; [intros [? ?]; discriminate|]); app_answered.
Qed.


(** X12.  An accepted call puts the message of the user into the chat
    and after it exactly one message of the assistant, whatever the
    backend answers.  The one exception is a teaching request whose term
    is empty: it gets no reply at all, sends no request, speaks nothing
    and logs nothing. *)
Theorem every_send_gets_one_reply (H : Host) (B : Backend)
    (textOverride : option jsstring) (s : App) :
  let text := textToSend textOverride (input s) in
  refusesToSend text (selectedImage s) (isProcessing s) = false ->
  exists s' rest,
    runApp B (handleSend H B textOverride s) = (s', inl tt) /\
    messages s' = messages s ++ userMessage text (selectedImage s) (clock s) :: rest /\
    if isTeachRequest text && bool_decide (teachTerm text = [])
    then rest = [] /\ requests s' = requests s /\ audio s' = audio s /\
         errors s' = errors s
    else exists m, rest = [m] /\ Message.role m = assistant.
Proof.
  intros text Hsend. rewrite run_handleSend. cbv zeta. fold text. rewrite Hsend.
  assert (Hnot : ~ (isTeachRequest text = true /\ teachTerm text = []) ->
                 isTeachRequest text && bool_decide (teachTerm text = []) = false).
  { intros Hnot. destruct (isTeachRequest text); [|reflexivity].
    cbn [andb]. case_bool_decide; tauto. }
  destruct (handleSendTry_result H B text (orUndefined (selectedImage s))
              (accepted B text s))
    as (s1 & r & -> & _ & _ & Hr).
  destruct r as [[]|e].
  - destruct Hr as [(-> & -> & ->)|(Hsome & m & t & Hm & Hrole & _)].
    + eexists _, []. split; [reflexivity|]. app_state. cbn [andb].
      rewrite bool_decide_true by reflexivity. auto.
    + eexists _, [m]. split; [reflexivity|]. app_state. rewrite Hm, (Hnot Hsome).
      app_state. rewrite <- app_assoc. eauto.
  - destruct Hr as (Hsome & Hm & _).
    eexists _, [_]. split; [reflexivity|]. app_state. rewrite Hm, (Hnot Hsome).
    app_state. rewrite <- app_assoc. split; [reflexivity|]. eexists. split; reflexivity.
Qed.


Lemma every_send_gets_one_reply_witness :
  exists s' rest,
    runApp (exampleBackend true) (handleSend exampleHost (exampleBackend true)
                                    (Some (utf16 "مرحبا")) freshApp) = (s', inl tt) /\
    messages s' = userMessage (utf16 "مرحبا") None 1700000000000 :: rest /\
    exists m, rest = [m] /\ Message.role m = assistant.
Proof.
  apply (every_send_gets_one_reply exampleHost (exampleBackend true)
           (Some (utf16 "مرحبا")) freshApp).
  vm_compute. reflexivity.
Defined.


(** X14.  A teaching request whose first answer parses to an object
    always gets its lesson, also when the request for the picture is
    rejected or brings no image: the lesson then has no picture, and a
    rejection is logged under "Image gen failed" only.  Teaching comes
    first: the same holds when the text also holds a drawing word or an
    image is attached.  Two requests are sent, and the English word and
    example are handed to [speak]. *)
Theorem lesson_survives_image_failure (H : Host) (B : Backend)
    (textOverride : option jsstring) (s : App) (eduResponse : AppResponse) (d : EduData) :
  let text := textToSend textOverride (input s) in
  let term := teachTerm text in
  let request := cartoonRequest (edu_image_prompt d) in
  let picture := lessonImage (answer B request) in
  refusesToSend text (selectedImage s) (isProcessing s) = false ->
  isTeachRequest text = true ->
  term <> [] ->
  answer B (teachRequest term) = Resolved eduResponse ->
  JSON_parse H (orElse (responseText eduResponse) (js "{}")) = Some (ParsedObject d) ->
  exists s' id now,
    runApp B (handleSend H B textOverride s) = (s', inl tt) /\
    messages s'
    = messages s ++
      [userMessage text (selectedImage s) (clock s);
       Message.mk id assistant
         (lessonContent (edu_english d) (edu_example_en d) (edu_example_ar d)) picture
         (Some (mkLesson (edu_english d) (edu_example_en d) (edu_example_ar d)
                         (edu_image_prompt d) picture now))] /\
    requests s' = requests s ++ [teachRequest term; request] /\
    errors s'
    = errors s ++
      match answer B request with
      | Rejected e => [(js "Image gen failed", Some (Rejection e))]
      | Resolved _ => []
      end /\
    audio s' = park (speak (platform H) (lessonSpoken (edu_english d) (edu_example_en d))
                       (world (audio s)))
                    (suspended (audio s)).
Proof.
  intros text term request picture Hsend Hteach Hterm Hedu Hparse.
  rewrite run_handleSend. cbv zeta. fold text. rewrite Hsend.
  unfold handleSendTry. rewrite Hteach, run_teachMode. cbv zeta. fold term.
  destruct term as [|c term'] eqn:Eterm; [contradiction|].
  rewrite Hedu, Hparse. fold request. subst picture.
  destruct (answer B request) as [imageResponse|e];
    eexists _, _, _; (split; [reflexivity|]); app_state;
    rewrite <- ?app_assoc, ?app_nil_r; auto.
Qed.

Lemma lesson_survives_image_failure_witness :
  exists s' id now,
    runApp (exampleBackend false)
           (handleSend exampleHost (exampleBackend false) (Some (utf16 "علمني: قطة")) freshApp)
    = (s', inl tt) /\
    messages s'
    = [userMessage (utf16 "علمني: قطة") None 1700000000000;
       Message.mk id assistant
         (lessonContent (Some (js "cat")) (Some (js "The cat sleeps."))
                        (Some (utf16 "القطة تنام.")))
         None
         (Some (mkLesson (Some (js "cat")) (Some (js "The cat sleeps."))
                         (Some (utf16 "القطة تنام.")) (Some (js "a sleeping cat"))
                         None now))] /\
    errors s' = [(js "Image gen failed", Some (Rejection RequestError))].
Proof.
  destruct (lesson_survives_image_failure exampleHost (exampleBackend false)
              (Some (utf16 "علمني: قطة")) freshApp
              (textAnswer (js "{ the lesson of the cat }")) catLesson)
    as (s' & id & now & Hrun & Hmessages & _ & Herrors & _).
  - vm_compute. reflexivity.
  - vm_compute. reflexivity.
  - vm_compute. discriminate.
  - reflexivity.
  - vm_compute. reflexivity.
  - exists s', id, now. split; [exact Hrun|]. split; [exact Hmessages | exact Herrors].
Defined.

(** X15.  When the first answer of a teaching request has no text (or
    the empty text), the handler parses the text of an empty object
    instead; on a host that reads it as an object without fields, the
    reply is a lesson whose word, example and translation are the text
    undefined, the picture is asked for with a description that ends in
    undefined, and "undefined. undefined" is handed to [speak]. *)
Theorem empty_answer_teaches_undefined (H : Host) (B : Backend)
    (textOverride : option jsstring) (s : App) (eduResponse : AppResponse) :
  let text := textToSend textOverride (input s) in
  let term := teachTerm text in
  refusesToSend text (selectedImage s) (isProcessing s) = false ->
  isTeachRequest text = true ->
  term <> [] ->
  answer B (teachRequest term) = Resolved eduResponse ->
  orUndefined (responseText eduResponse) = None ->
  JSON_parse H (js "{}") = Some (ParsedObject (mkEduData None None None None)) ->
  exists s' m,
    runApp B (handleSend H B textOverride s) = (s', inl tt) /\
    last (messages s') = Some m /\
    Message.content m = lessonContent None None None /\
    includes (Message.content m) (js "# undefined") = true /\
    (exists now, Message.lessonData m
                 = Some (mkLesson None None None None
                           (lessonImage (answer B (cartoonRequest None))) now)) /\
    requests s' = requests s ++ [teachRequest term; cartoonRequest None] /\
    cartoonPrompt None
    = js "Cartoon illustration, educational style, colorful, clear lines: undefined" /\
    audio s' = park (speak (platform H) (js "undefined. undefined") (world (audio s)))
                    (suspended (audio s)).
Proof.
  intros text term Hsend Hteach Hterm Hedu Htext Hparse.
  assert (Hempty : orElse (responseText eduResponse) (js "{}") = js "{}").
  { destruct (responseText eduResponse) as [[|c t]|]; [reflexivity|discriminate|reflexivity]. }
  rewrite run_handleSend. cbv zeta. fold text. rewrite Hsend.
  unfold handleSendTry. rewrite Hteach, run_teachMode. cbv zeta. fold term.
  destruct term as [|c term'] eqn:Eterm; [contradiction|].
  rewrite Hedu, Hempty, Hparse.
  cbn [edu_english edu_example_en edu_example_ar edu_image_prompt].
  assert (Hshown : includes (lessonContent None None None) (js "# undefined") = true)
    by (vm_compute; reflexivity).
  assert (Hprompt : cartoonPrompt None
                    = js "Cartoon illustration, educational style, colorful, clear lines: undefined")
    by (vm_compute; reflexivity).
  assert (Hspoken : lessonSpoken None None = js "undefined. undefined")
    by (vm_compute; reflexivity).
  rewrite Hspoken.
  destruct (answer B (cartoonRequest None)) as [imageResponse|e];
    eexists _, _; (split; [reflexivity|]); app_state;
    rewrite last_snoc, <- ?app_assoc; app_state;
    (split; [reflexivity|]); (split; [reflexivity|]);
    (split; [exact Hshown|]); (split; [eexists; reflexivity|]);
    (split; [reflexivity|]); (split; [exact Hprompt|]); reflexivity.
Qed.

Lemma empty_answer_teaches_undefined_witness :
  exists s' m,
    runApp silentBackend (handleSend exampleHost silentBackend (Some (utf16 "علمني قطة"))
                            freshApp) = (s', inl tt) /\
    last (messages s') = Some m /\
    includes (Message.content m) (js "# undefined") = true.
Proof.
  destruct (empty_answer_teaches_undefined exampleHost silentBackend
              (Some (utf16 "علمني قطة")) freshApp (mkAppResponse None None))
    as (s' & m & Hrun & Hlast & _ & Hshown & _).
  - vm_compute. reflexivity.
  - vm_compute. reflexivity.
  - vm_compute. discriminate.
  - reflexivity.
  - reflexivity.
  - vm_compute. reflexivity.
  - exists s', m. split; [exact Hrun|]. split; [exact Hlast | exact Hshown].
Defined.

(** X16.  When the first answer of a teaching request does not parse,
    or parses to [null], the reply is the apology: one request has been
    sent, none for a picture, and nothing is spoken.  For [null] the log
    holds "Image gen failed" before "Error:", though no picture was asked
    for. *)
Theorem unreadable_answer_gets_the_apology (H : Host) (B : Backend)
    (textOverride : option jsstring) (s : App) (eduResponse : AppResponse) :
  let text := textToSend textOverride (input s) in
  let term := teachTerm text in
  let parsed := JSON_parse H (orElse (responseText eduResponse) (js "{}")) in
  refusesToSend text (selectedImage s) (isProcessing s) = false ->
  isTeachRequest text = true ->
  term <> [] ->
  answer B (teachRequest term) = Resolved eduResponse ->
  parsed = None \/ parsed = Some ParsedNull ->
  exists s' now,
    runApp B (handleSend H B textOverride s) = (s', inl tt) /\
    messages s' = messages s ++ [userMessage text (selectedImage s) (clock s);
                                 assistantMessage apologyText None None now] /\
    requests s' = requests s ++ [teachRequest term] /\
    audio s' = audio s /\
    errors s'
    = errors s ++
      match parsed with
      | None => [(js "Error:", Some SyntaxError)]
      | Some _ => [(js "Image gen failed", Some NullAccess); (js "Error:", Some NullAccess)]
      end.
Proof.
  intros text term parsed Hsend Hteach Hterm Hedu Hparsed.
  rewrite run_handleSend. cbv zeta. fold text. rewrite Hsend.
  unfold handleSendTry. rewrite Hteach, run_teachMode. cbv zeta. fold term.
  destruct term as [|c term'] eqn:Eterm; [contradiction|].
  rewrite Hedu. fold parsed.
  destruct Hparsed as [-> | ->];
    eexists _, _; (split; [reflexivity|]); app_state;
    rewrite <- ?app_assoc; auto.
Qed.

Lemma unreadable_answer_gets_the_apology_witness :
  exists s' now,
    runApp (exampleBackend true)
           (handleSend (mkHost browser asciiLowerCase URI.encodeURIComponent
                               (fun _ => Some ParsedNull))
                       (exampleBackend true) (Some (utf16 "علمني قطة")) freshApp)
    = (s', inl tt) /\
    messages s' = [userMessage (utf16 "علمني قطة") None 1700000000000;
                   assistantMessage apologyText None None now] /\
    audio s' = audio freshApp.
Proof.
  destruct (unreadable_answer_gets_the_apology
              (mkHost browser asciiLowerCase URI.encodeURIComponent
                      (fun _ => Some ParsedNull))
              (exampleBackend true) (Some (utf16 "علمني قطة")) freshApp
              (textAnswer (js "{ the lesson of the cat }")))
    as (s' & now & Hrun & Hmessages & _ & Haudio & _).
  - vm_compute. reflexivity.
  - vm_compute. reflexivity.
  - vm_compute. discriminate.
  - reflexivity.
  - right. reflexivity.
  - exists s', now. split; [exact Hrun|]. split; [exact Hmessages | exact Haudio].
Defined.

(** X17.  A drawing request (a drawing word in the text, no teaching
    word at its start, no image attached) sends two requests, one for
    the English form of the prompt and one for the picture, whatever the
    first brings.  Its reply carries a picture: the inline data of the
    answer as a data URL, or else, when the request is rejected or
    brings no data, the address of the fallback service.  Only when that
    address cannot be made (the prompt holds a lone surrogate) is the
    reply the apology, and then nothing is spoken. *)
Theorem drawing_gets_a_picture (H : Host) (B : Backend)
    (textOverride : option jsstring) (s : App) :
  let text := textToSend textOverride (input s) in
  let finalPrompt := drawPrompt text in
  let englishPrompt :=
    englishPromptOf finalPrompt (answer B (translateRequest finalPrompt)) in
  refusesToSend text (selectedImage s) (isProcessing s) = false ->
  isTeachRequest text = false ->
  isDrawRequest H text = true ->
  orUndefined (selectedImage s) = None ->
  exists s',
    runApp B (handleSend H B textOverride s) = (s', inl tt) /\
    requests s' = requests s ++ [translateRequest finalPrompt; imageRequest englishPrompt] /\
    match pictureOf H B englishPrompt with
    | Some picture =>
        (exists id,
           messages s'
           = messages s ++
             [userMessage text (selectedImage s) (clock s);
              Message.mk id assistant (drawReply finalPrompt) (Some picture) None]) /\
        audio s' = park (speak (platform H) (drawReply finalPrompt) (world (audio s)))
                        (suspended (audio s))
    | None =>
        (exists now,
           messages s'
           = messages s ++
             [userMessage text (selectedImage s) (clock s);
              assistantMessage apologyText None None now]) /\
        audio s' = audio s
    end.
Proof.
  intros text finalPrompt englishPrompt Hsend Hteach Hdraw Himage.
  rewrite run_handleSend. cbv zeta. fold text. rewrite Hsend, Himage.
  unfold handleSendTry. rewrite Hteach, Hdraw. cbn [andb negb].
  rewrite run_drawMode. cbv zeta. fold finalPrompt. fold englishPrompt.
  unfold pictureOf.
  assert (Hrequests : forall s0 : App,
            requests (match answer B (translateRequest finalPrompt) with
                      | Resolved _ => asked B (translateRequest finalPrompt) s0
                      | Rejected _ =>
                          noted (js "Translation failed, using original prompt") None
                                (asked B (translateRequest finalPrompt) s0)
                      end)
            = requests s0 ++ [translateRequest finalPrompt]).
  { intros s0. destruct (answer B (translateRequest finalPrompt)); reflexivity. }
  assert (Hmessages : forall s0 : App,
            messages (match answer B (translateRequest finalPrompt) with
                      | Resolved _ => asked B (translateRequest finalPrompt) s0
                      | Rejected _ =>
                          noted (js "Translation failed, using original prompt") None
                                (asked B (translateRequest finalPrompt) s0)
                      end)
            = messages s0).
  { intros s0. destruct (answer B (translateRequest finalPrompt)); reflexivity. }
  assert (Haudio : forall s0 : App,
            audio (match answer B (translateRequest finalPrompt) with
                   | Resolved _ => asked B (translateRequest finalPrompt) s0
                   | Rejected _ =>
                       noted (js "Translation failed, using original prompt") None
                             (asked B (translateRequest finalPrompt) s0)
                   end)
            = audio s0).
  { intros s0. destruct (answer B (translateRequest finalPrompt)); reflexivity. }
  destruct (answer B (imageRequest englishPrompt)) as [imageResponse|e];
    [destruct (generatedImageBase64 imageResponse) as [[|c d]|]|];
    try destruct (encodeURIComponent H englishPrompt) as [encoded|];
    cbn [fmap option_fmap option_map];
    eexists; (split; [reflexivity|]); app_state;
    rewrite ?Hrequests, ?Hmessages, ?Haudio; app_state;
    rewrite <- ?app_assoc; eauto.
Qed.

Lemma drawing_gets_a_picture_witness :
  exists s' id,
    runApp (exampleBackend false)
           (handleSend exampleHost (exampleBackend false) (Some (utf16 "ارسم قطة نائمة"))
                       freshApp) = (s', inl tt) /\
    requests s' = [translateRequest (utf16 "قطة نائمة"); imageRequest (js "a sleeping cat")] /\
    messages s'
    = [userMessage (utf16 "ارسم قطة نائمة") None 1700000000000;
       Message.mk id assistant (drawReply (utf16 "قطة نائمة"))
         (Some (js "https://image.pollinations.ai/prompt/a%20sleeping%20cat?width=1024&height=1024&model=flux&seed=42"))
         None].
Proof.
  destruct (drawing_gets_a_picture exampleHost (exampleBackend false)
              (Some (utf16 "ارسم قطة نائمة")) freshApp)
    as (s' & Hrun & Hrequests & Hpicture).
  - vm_compute. reflexivity.
  - vm_compute. reflexivity.
  - vm_compute. reflexivity.
  - reflexivity.
  - cbv zeta in Hrequests, Hpicture.
    assert (Hfallback :
              pictureOf exampleHost (exampleBackend false)
                (englishPromptOf
                   (drawPrompt (textToSend (Some (utf16 "ارسم قطة نائمة")) (input freshApp)))
                   (answer (exampleBackend false)
                      (translateRequest
                         (drawPrompt (textToSend (Some (utf16 "ارسم قطة نائمة"))
                                                 (input freshApp))))))
              = Some (js "https://image.pollinations.ai/prompt/a%20sleeping%20cat?width=1024&height=1024&model=flux&seed=42"))
      by (vm_compute; reflexivity).
    rewrite Hfallback in Hpicture. destruct Hpicture as [[id Hmessages] _].
    exists s', id. split; [exact Hrun|].
    split; [vm_compute in Hrequests |- *; exact Hrequests
           | vm_compute in Hmessages |- *; exact Hmessages].
Defined.

(** ** The attached picture *)

Lemma splitOn_without (sep : Z) (s : jsstring) : sep ∉ s -> splitOn sep s = [s].
Proof.
  induction s as [|c s IH]; [reflexivity|].
  intros Hsep. apply not_elem_of_cons in Hsep as [Hc Hs]. cbn [splitOn].
  destruct (Z.eqb_spec c sep) as [->|_]; [contradiction|].
  rewrite (IH Hs). reflexivity.
Qed.

Lemma splitOn_app (sep : Z) (a b : jsstring) :
  sep ∉ a -> splitOn sep (a ++ sep :: b) = a :: splitOn sep b.
Proof.
  induction a as [|c a IH]; intros Hsep.
  - cbn [app splitOn]. rewrite Z.eqb_refl. reflexivity.
  - apply not_elem_of_cons in Hsep as [Hc Ha]. cbn [app splitOn].
    destruct (Z.eqb_spec c sep) as [->|_]; [contradiction|].
    rewrite (IH Ha). reflexivity.
Qed.

Lemma orElse_text (text d : jsstring) :
  orElse (Some text) d = match text with [] => d | _ => text end.
Proof. destruct text; reflexivity. Qed.

(** X18.  An attached picture, as [readAsDataURL] gives it, goes to the
    vision model unless the text is a teaching request, also when the
    text holds a drawing word: one request is sent, with the media type
    and the payload taken out of the data URL and the text as typed, or
    the fixed question when the text is empty.  The message of the user
    keeps the picture, the attachment is cleared, and the reply is the
    text of the answer, the fixed excuse when it has none, or the
    apology when the request is rejected. *)
Theorem attached_picture_goes_to_vision (H : Host) (B : Backend)
    (textOverride : option jsstring) (s : App) (mimeType payload : jsstring) :
  let text := textToSend textOverride (input s) in
  let request :=
    mkAppRequest MODELS_VISION
      (PartsContents [InlinePart (Some mimeType) (Some payload);
                      TextPart (match text with [] => describeImageText | _ => text end)])
      NoConfig in
  isProcessing s = false ->
  selectedImage s = Some (dataUrl mimeType payload) ->
  isTeachRequest text = false ->
  (44 ∉ mimeType) -> (58 ∉ mimeType) -> (59 ∉ mimeType) -> (44 ∉ payload) ->
  exists s' m,
    runApp B (handleSend H B textOverride s) = (s', inl tt) /\
    requests s' = requests s ++ [request] /\
    selectedImage s' = None /\
    messages s'
    = messages s ++
      [Message.mk (numberToString (clock s)) user text (Some (dataUrl mimeType payload)) None;
       m] /\
    Message.role m = assistant /\ Message.image m = None /\
    Message.content m
    = match answer B request with
      | Resolved result => orElse (responseText result) notUnderstoodText
      | Rejected _ => apologyText
      end.
Proof.
  intros text request Hidle Himage Hteach Hcomma Hcolon Hsemi Hpayload.
  assert (Hurl : dataUrl mimeType payload
                 = 100 :: 97 :: 116 :: 97 :: 58 :: mimeType ++ js ";base64," ++ payload)
    by reflexivity.
  assert (Hbase64 : splitOn 44 (dataUrl mimeType payload) !! 1%nat = Some payload).
  { unfold dataUrl.
    change (js ";base64," ++ payload) with (js ";base64" ++ 44 :: payload).
    rewrite !app_assoc, splitOn_app, (splitOn_without 44 payload Hpayload); [reflexivity|].
    rewrite !not_elem_of_app. split; [split; [|exact Hcomma]|]; vm_compute; set_solver. }
  assert (Hmime : head (splitOn 59 (dataUrl mimeType payload))
                    ≫= (fun h => splitOn 58 h !! 1%nat) = Some mimeType).
  { unfold dataUrl.
    change (js ";base64," ++ payload) with (59 :: js "base64," ++ payload).
    rewrite app_assoc, splitOn_app.
    - cbn [head mbind option_bind].
      change (js "data:" ++ mimeType) with (js "data" ++ 58 :: mimeType).
      rewrite splitOn_app, (splitOn_without 58 mimeType Hcolon); [reflexivity|].
      vm_compute. set_solver.
    - rewrite not_elem_of_app. split; [vm_compute; set_solver | exact Hsemi]. }
  rewrite run_handleSend. cbv zeta. fold text.
  unfold refusesToSend. rewrite Himage, Hidle, Hurl, andb_false_r. cbn [orb orUndefined].
  rewrite <- Hurl.
  unfold handleSendTry. rewrite Hteach, andb_false_r, run_chatMode. cbv zeta.
  rewrite Hbase64, Hmime.
  unfold visionRequest. rewrite orElse_text. fold request.
  destruct (answer B request) as [result|e];
    eexists _, _; (split; [reflexivity|]); app_state;
    rewrite <- ?app_assoc, Himage; app_state; cbn [orUndefined]; rewrite <- ?Hurl;
    repeat (split; [reflexivity|]); try reflexivity.
Qed.

Lemma attached_picture_goes_to_vision_witness :
  exists s' m,
    runApp (exampleBackend true)
           (handleSend exampleHost (exampleBackend true) (Some (utf16 "ارسم هذه"))
              (mkApp [] [] false (Some (dataUrl (js "image/png") (js "iVBORw0KGgo=")))
                     (mkConfig initialWorld []) 1700000000000 [] []))
    = (s', inl tt) /\
    requests s'
    = [mkAppRequest MODELS_VISION
         (PartsContents [InlinePart (Some (js "image/png")) (Some (js "iVBORw0KGgo="));
                         TextPart (utf16 "ارسم هذه")])
         NoConfig] /\
    last (messages s') = Some m /\
    Message.content m = utf16 "هذه قطة".
Proof.
  destruct (attached_picture_goes_to_vision exampleHost (exampleBackend true)
              (Some (utf16 "ارسم هذه"))
              (mkApp [] [] false (Some (dataUrl (js "image/png") (js "iVBORw0KGgo=")))
                     (mkConfig initialWorld []) 1700000000000 [] [])
              (js "image/png") (js "iVBORw0KGgo="))
    as (s' & m & Hrun & Hrequests & _ & Hmessages & _ & _ & Hcontent).
  - reflexivity.
  - reflexivity.
  - vm_compute. reflexivity.
  - vm_compute. set_solver.
  - vm_compute. set_solver.
  - vm_compute. set_solver.
  - vm_compute. set_solver.
  - exists s', m. split; [exact Hrun|]. split; [exact Hrequests|].
    split; [rewrite Hmessages; reflexivity | exact Hcontent].
Defined.

(** ** The prompt of a drawing *)

Lemma stripDrawWord_word (word rest : jsstring) :
  word ∈ drawWords -> stripDrawWord (word ++ rest) = rest.
Proof.
  unfold drawWords. rewrite !elem_of_cons, elem_of_nil.
  intros [->|[->|[->|[->|[->|[]]]]]]; vm_compute; reflexivity.
Qed.

Lemma canonicalize_space (c k : Z) :
  isWhiteSpace c = true -> k ∈ [1575; 1578; 1589; 100; 103] ->
  (canonicalize k =? canonicalize c) = false.
Proof.
  unfold isWhiteSpace. rewrite !orb_true_iff, !andb_true_iff, !Z.eqb_eq, !Z.leb_le.
  intros Hc Hk. apply Z.eqb_neq.
  assert (Hrange : c <= 32 \/ c = 160 \/ 5760 <= c) by lia.
  assert (Hcan : canonicalize c = c).
  { unfold canonicalize.
    destruct (Z.leb_spec 97 c), (Z.leb_spec c 122); cbn [andb]; lia. }
  rewrite Hcan. rewrite !elem_of_cons, elem_of_nil in Hk.
  destruct Hk as [->|[->|[->|[->|[->|[]]]]]]; vm_compute canonicalize; lia.
Qed.

Lemma stripDrawWord_space (c : Z) (text : jsstring) :
  isWhiteSpace c = true -> stripDrawWord (c :: text) = c :: text.
Proof.
  intros Hc. unfold stripDrawWord.
  let ws := eval vm_compute in drawWords in change drawWords with ws.
  cbn [find startsWithIgnoreCase].
  rewrite !(canonicalize_space c _ Hc) by set_solver. reflexivity.
Qed.

(** X19.  The prompt of a drawing is never empty.  A drawing word at
    the very start of the text is removed and the rest trimmed, and the
    default prompt stands in when nothing is left.  A text that begins
    with white space keeps its drawing word. *)
Theorem drawPrompt_strips_only_at_start :
  (forall text, drawPrompt text <> []) /\
  (forall word rest,
     word ∈ drawWords ->
     drawPrompt (word ++ rest)
     = match trim rest with [] => defaultDrawPrompt | prompt => prompt end) /\
  (forall c text,
     isWhiteSpace c = true ->
     drawPrompt (c :: text)
     = match trim text with [] => defaultDrawPrompt | prompt => prompt end).
Proof.
  split; [|split].
  - intros text. unfold drawPrompt, orElse.
    destruct (trim (stripDrawWord text)); discriminate.
  - intros word rest Hword. unfold drawPrompt, orElse.
    rewrite (stripDrawWord_word word rest Hword). destruct (trim rest); reflexivity.
  - intros c text Hc. unfold drawPrompt, orElse.
    rewrite (stripDrawWord_space c text Hc).
    unfold trim at 1. cbn [trimStart]. rewrite Hc. fold (trim text).
    destruct (trim text); reflexivity.
Qed.

Lemma drawPrompt_strips_only_at_start_witness :
  drawPrompt (utf16 "ارسم قطة ") = utf16 "قطة" /\
  drawPrompt (js "draw") = defaultDrawPrompt /\
  drawPrompt (utf16 " ارسم قطة") = utf16 "ارسم قطة".
Proof.
  destruct drawPrompt_strips_only_at_start as (_ & Hword & Hspace).
  assert (Hcat : drawPrompt (utf16 "ارسم" ++ utf16 " قطة ")
                 = match trim (utf16 " قطة ") with
                   | [] => defaultDrawPrompt
                   | prompt => prompt
                   end)
    by (apply Hword; vm_compute; set_solver).
  assert (Hdraw : drawPrompt (js "draw" ++ [])
                  = match trim [] with [] => defaultDrawPrompt | prompt => prompt end)
    by (apply Hword; vm_compute; set_solver).
  assert (Hkept : drawPrompt (32 :: utf16 "ارسم قطة")
                  = match trim (utf16 "ارسم قطة") with
                    | [] => defaultDrawPrompt
                    | prompt => prompt
                    end)
    by (apply Hspace; reflexivity).
  vm_compute in Hcat, Hdraw, Hkept. vm_compute. auto.
Defined.

(** ** Two sends in a row *)

Lemma calls_overlap (P : Platform) (O : Oracle) (t1 t2 : jsstring) (w : World)
    (r1 r2 : GenerateContentResponse) (c1 c2 : Z) (d1 d2 : jsstring) :
  ttsAnswer O (ttsRequestOf t1) = Resolved r1 ->
  base64AudioOf r1 = Some (c1 :: d1) ->
  canPlay O (dataUri (c1 :: d1)) = true ->
  ttsAnswer O (ttsRequestOf t2) = Resolved r2 ->
  base64AudioOf r2 = Some (c2 :: d2) ->
  canPlay O (dataUri (c2 :: d2)) = true ->
  exists c,
    steps P O [Call t1; Call t2; Settle 0; Settle 1; Settle 0; Settle 0] (mkConfig w [])
    = Some c /\
    suspended c = [] /\
    audioRef (world c) = Some (S (length (audios w))) /\
    length (audios w) ∈ playing (world c) /\
    S (length (audios w)) ∈ playing (world c).
Proof.
  intros Ht1 Hb1 Hp1 Ht2 Hb2 Hp2. destruct w as [ar au pl ut tr].
  cbn [steps step world suspended audios].
  unfold speak, speakTry. prog_step. rewrite ?stopExisting_eq. prog_step.
  unfold afterStop, stopEvents. cbn [audioRef audios playing utterances trace].
  cbn [park world suspended app]. prog_step. rewrite ?stopExisting_eq. prog_step.
  unfold afterStop, stopEvents. cbn [audioRef audios playing utterances trace].
  cbn [park world suspended app lookup list_lookup promise resume delete list_delete].
  prog_step. rewrite Ht1. prog_step. rewrite Hb1. unfold playPayload, playDirect. prog_step.
  cbn [park world suspended app lookup list_lookup promise resume delete list_delete].
  prog_step. rewrite list_lookup_middle by reflexivity. rewrite Hp1. prog_step.
  cbn [park world suspended app lookup list_lookup promise resume delete list_delete].
  prog_step. rewrite Ht2. prog_step. rewrite Hb2. prog_step.
  cbn [park world suspended app lookup list_lookup promise resume delete list_delete].
  prog_step. rewrite list_lookup_middle by reflexivity. rewrite Hp2. prog_step.
  cbn [park world suspended app lookup list_lookup promise resume delete list_delete].
  eexists. split; [reflexivity|]. cbn [world suspended audioRef playing].
  rewrite length_app, Nat.add_1_r. cbn [length].
  split; [reflexivity|]. split; [reflexivity|]. split; set_solver.
Qed.

Lemma run_chat_send (H : Host) (B : Backend) (text : jsstring) (s : App)
    (result : AppResponse) :
  isProcessing s = false ->
  orUndefined (selectedImage s) = None ->
  trim text <> [] ->
  isTeachRequest text = false ->
  isDrawRequest H text = false ->
  answer B (chatRequest text) = Resolved result ->
  let responseText := orElse (responseText result) notUnderstoodText in
  runApp B (handleSend H B (Some text) s)
  = (idle (spoken (platform H) responseText
             (replied B responseText None None
                (asked B (chatRequest text) (accepted B text s)))), inl tt).
Proof.
  intros Hidle Himage Htext Hteach Hdraw Hanswer responseText.
  assert (Hsent : textToSend (Some text) (input s) = text).
  { destruct text; [contradiction Htext|]; reflexivity. }
  rewrite run_handleSend. cbv zeta. rewrite Hsent.
  unfold refusesToSend. rewrite Hidle, orb_false_r.
  destruct (trim text) eqn:Etrim; [contradiction Htext; reflexivity|]. cbn [andb].
  unfold handleSendTry. rewrite Hteach, Hdraw, Himage. cbn [andb].
  rewrite run_chatMode. cbv zeta. rewrite Hanswer. reflexivity.
Qed.

(** X20.  The handler does not wait for [speak].  After a plain chat
    message is answered, [isProcessing] is false while the call of
    [speak] still waits for its audio, so a second message is accepted;
    when it is answered before the audio of the first has come, two
    calls of [speak] are waiting.  If the backend then answers both with
    audio the host plays, the two elements play together and only the
    second is the current one. *)
Theorem two_sends_talk_at_once (H : Host) (B : Backend) (O : Oracle)
    (text1 text2 : jsstring) (s : App) (result1 result2 : AppResponse)
    (audio1 audio2 : GenerateContentResponse) (c1 c2 : Z) (d1 d2 : jsstring) :
  let reply1 := orElse (responseText result1) notUnderstoodText in
  let reply2 := orElse (responseText result2) notUnderstoodText in
  let first := length (audios (world (audio s))) in
  isProcessing s = false ->
  orUndefined (selectedImage s) = None ->
  suspended (audio s) = [] ->
  trim text1 <> [] -> isTeachRequest text1 = false -> isDrawRequest H text1 = false ->
  trim text2 <> [] -> isTeachRequest text2 = false -> isDrawRequest H text2 = false ->
  answer B (chatRequest text1) = Resolved result1 ->
  answer B (chatRequest text2) = Resolved result2 ->
  ttsAnswer O (ttsRequestOf reply1) = Resolved audio1 ->
  base64AudioOf audio1 = Some (c1 :: d1) ->
  canPlay O (dataUri (c1 :: d1)) = true ->
  ttsAnswer O (ttsRequestOf reply2) = Resolved audio2 ->
  base64AudioOf audio2 = Some (c2 :: d2) ->
  canPlay O (dataUri (c2 :: d2)) = true ->
  exists s1 s2 c,
    runApp B (handleSend H B (Some text1) s) = (s1, inl tt) /\
    isProcessing s1 = false /\
    length (suspended (audio s1)) = 1%nat /\
    runApp B (handleSend H B (Some text2) s1) = (s2, inl tt) /\
    length (suspended (audio s2)) = 2%nat /\
    steps (platform H) O [Settle 0; Settle 1; Settle 0; Settle 0] (audio s2) = Some c /\
    suspended c = [] /\
    audioRef (world c) = Some (S first) /\
    (first ∈ playing (world c)) /\
    (S first ∈ playing (world c)) /\
    ~ exclusive (platform H) (world c).
Proof.
  intros reply1 reply2 first Hidle Himage Hnone Htext1 Hteach1 Hdraw1 Htext2 Hteach2 Hdraw2
    Hanswer1 Hanswer2 Htts1 Hb1 Hplay1 Htts2 Hb2 Hplay2.
  destruct (calls_overlap (platform H) O reply1 reply2 (world (audio s))
              audio1 audio2 c1 c2 d1 d2 Htts1 Hb1 Hplay1 Htts2 Hb2 Hplay2)
    as (c & Hsteps & Hdone & Href & Hfirst & Hsecond).
  change (steps (platform H) O [Call reply1; Call reply2; Settle 0; Settle 1; Settle 0;
                                Settle 0] (mkConfig (world (audio s)) []))
    with (steps (platform H) O [Settle 0; Settle 1; Settle 0; Settle 0]
            (park (speak (platform H) reply2
                     (world (park (speak (platform H) reply1 (world (audio s))) [])))
                  (suspended (park (speak (platform H) reply1 (world (audio s))) []))))
    in Hsteps.
  pose proof (run_chat_send H B text1 s result1 Hidle Himage Htext1 Hteach1 Hdraw1
                Hanswer1) as Hrun1.
  cbv zeta in Hrun1. fold reply1 in Hrun1.
  set (s1 := idle _) in Hrun1.
  assert (Haudio1 : audio s1 = park (speak (platform H) reply1 (world (audio s))) [])
    by (unfold s1; app_state; rewrite Hnone; reflexivity).
  assert (Hidle1 : isProcessing s1 = false) by (unfold s1; app_state; reflexivity).
  assert (Himage1 : orUndefined (selectedImage s1) = None)
    by (unfold s1; app_state; reflexivity).
  clearbody s1.
  pose proof (run_chat_send H B text2 s1 result2 Hidle1 Himage1 Htext2 Hteach2 Hdraw2
                Hanswer2) as Hrun2.
  cbv zeta in Hrun2. fold reply2 in Hrun2.
  set (s2 := idle _) in Hrun2.
  assert (Haudio2 : audio s2 = park (speak (platform H) reply2 (world (audio s1)))
                                    (suspended (audio s1)))
    by (unfold s2; app_state; reflexivity).
  clearbody s2.
  destruct (speak_suspends (platform H) reply1 (world (audio s))) as [k1 Hk1].
  destruct (speak_suspends (platform H) reply2 (world (audio s1))) as [k2 Hk2].
  exists s1, s2, c.
  split; [exact Hrun1|]. split; [exact Hidle1|].
  split; [rewrite Haudio1, Hk1; reflexivity|].
  split; [exact Hrun2|].
  split; [rewrite Haudio2, Hk2, Haudio1, Hk1; reflexivity|].
  split.
  { rewrite Haudio2, Haudio1. exact Hsteps. }
  split; [exact Hdone|]. split; [exact Href|]. split; [exact Hfirst|].
  split; [exact Hsecond|].
  intros [Hcurrent _]. specialize (Hcurrent first Hfirst).
  rewrite Href in Hcurrent. injection Hcurrent. lia.
Qed.

Lemma two_sends_talk_at_once_witness :
  exists s1 s2 c,
    runApp (exampleBackend true)
           (handleSend exampleHost (exampleBackend true) (Some (utf16 "مرحبا")) freshApp)
    = (s1, inl tt) /\
    runApp (exampleBackend true)
           (handleSend exampleHost (exampleBackend true) (Some (js "hello")) s1)
    = (s2, inl tt) /\
    steps browser wavOracle [Settle 0; Settle 1; Settle 0; Settle 0] (audio s2) = Some c /\
    (0%nat ∈ playing (world c)) /\ (1%nat ∈ playing (world c)).
Proof.
  destruct (two_sends_talk_at_once exampleHost (exampleBackend true) wavOracle
              (utf16 "مرحبا") (js "hello") freshApp
              (textAnswer (utf16 "أهلاً يا مصطفى")) (textAnswer (utf16 "أهلاً يا مصطفى"))
              (responseWith (Some tenBytes)) (responseWith (Some tenBytes))
              65 65 (js "AECAwQFBgcICQ==") (js "AECAwQFBgcICQ=="))
    as (s1 & s2 & c & Hrun1 & _ & _ & Hrun2 & _ & Hsteps & _ & _ & Hfirst & Hsecond & _).
  - reflexivity.
  - reflexivity.
  - reflexivity.
  - vm_compute. discriminate.
  - vm_compute. reflexivity.
  - vm_compute. reflexivity.
  - vm_compute. discriminate.
  - vm_compute. reflexivity.
  - vm_compute. reflexivity.
  - reflexivity.
  - reflexivity.
  - reflexivity.
  - reflexivity.
  - reflexivity.
  - reflexivity.
  - reflexivity.
  - reflexivity.
  - exists s1, s2, c. split; [exact Hrun1|]. split; [exact Hrun2|].
    split; [exact Hsteps|]. split; [exact Hfirst | exact Hsecond].
Defined.

(** ** Voice input and the drawing mode *)

Lemma startsWith_prefix (a b p : jsstring) :
  startsWith a p = true -> startsWith (a ++ b) p = true.
Proof.
  revert a. induction p as [|c p IH]; intros a Ha; [reflexivity|].
  destruct a as [|d a]; [discriminate Ha|]. cbn [app startsWith] in *.
  apply andb_true_iff in Ha as [Hc Hp]. rewrite Hc, (IH a Hp). reflexivity.
Qed.

Lemma includes_startsWith (s p : jsstring) : startsWith s p = true -> includes s p = true.
Proof. intros Hp. destruct s; cbn [includes]; rewrite Hp; reflexivity. Qed.

Lemma includes_suffix (a s p : jsstring) : includes s p = true -> includes (a ++ s) p = true.
Proof.
  intros Hs. induction a as [|c a IH]; [exact Hs|].
  cbn [app includes]. rewrite IH. apply orb_true_r.
Qed.

Lemma includes_prefix (s b p : jsstring) : includes s p = true -> includes (s ++ b) p = true.
Proof.
  induction s as [|c s IH]; cbn [app includes].
  - rewrite orb_false_r. intros Hp. apply includes_startsWith.
    apply (startsWith_prefix [] b p Hp).
  - intros Hs. apply orb_true_iff in Hs as [Hs|Hs].
    + apply (startsWith_prefix (c :: s) b p) in Hs. cbn [app] in Hs.
      rewrite Hs. reflexivity.
    + rewrite (IH Hs). apply orb_true_r.
Qed.

Lemma trimStart_suffix (s : jsstring) : exists a, s = a ++ trimStart s.
Proof.
  induction s as [|c s [a IH]]; [exists []; reflexivity|].
  cbn [trimStart]. destruct (isWhiteSpace c).
  - exists (c :: a). cbn [app]. rewrite <- IH. reflexivity.
  - exists []. reflexivity.
Qed.

Lemma trimEnd_prefix (s : jsstring) : exists b, s = trimEnd s ++ b.
Proof.
  unfold trimEnd. destruct (trimStart_suffix (reverse s)) as [a Ha].
  exists (reverse a). rewrite <- reverse_app, <- Ha, reverse_involutive. reflexivity.
Qed.

Lemma includes_trim (s p : jsstring) : includes (trim s) p = true -> includes s p = true.
Proof.
  unfold trim. intros Hp.
  destruct (trimStart_suffix s) as [a Ha].
  destruct (trimEnd_prefix (trimStart s)) as [b Hb].
  rewrite Ha, Hb. apply includes_suffix, includes_prefix, Hp.
Qed.

(** X21.  Dictation after the drawing button.  When the input box holds
    what the button put there, the voice result always yields a text the
    handler takes for a drawing request (on a host whose [toLowerCase]
    leaves that text as it is).  It is the transcript itself when that
    already begins with the drawing word; otherwise it is the words of
    the button followed by the transcript, and the prompt of the drawing
    then begins with the second word of the button, which the handler
    does not remove. *)
Theorem dictation_after_draw_button (H : Host) (transcript prev : jsstring) :
  let said := onTranscript transcript prev in
  trim prev = utf16 "ارسم لي" \/ trim prev = utf16 "ارسم لي:" ->
  toLowerCase H said = said ->
  isDrawRequest H said = true /\
  if startsWith (trim transcript) (utf16 "ارسم") then said = transcript
  else said = utf16 "ارسم لي " ++ transcript /\
       drawPrompt said = trim (utf16 " لي " ++ transcript) /\
       startsWith (drawPrompt said) (utf16 "لي") = true.
Proof.
  intros said Hprev Hlower.
  assert (Hsaid : said = if startsWith (trim transcript) (utf16 "ارسم") then transcript
                         else utf16 "ارسم لي " ++ transcript).
  { unfold said, onTranscript. destruct Hprev as [-> | ->]; reflexivity. }
  assert (Hword : includes said (utf16 "ارسم") = true).
  { rewrite Hsaid. destruct (startsWith (trim transcript) (utf16 "ارسم")) eqn:Hstart.
    - apply includes_trim, includes_startsWith, Hstart.
    - apply includes_startsWith.
      change (utf16 "ارسم لي " ++ transcript)
        with (utf16 "ارسم" ++ utf16 " لي " ++ transcript).
      apply startsWith_app. }
  split.
  - unfold isDrawRequest. cbv zeta. rewrite Hlower. unfold drawWords.
    cbn [existsb]. rewrite Hword. reflexivity.
  - rewrite Hsaid. destruct (startsWith (trim transcript) (utf16 "ارسم")); [reflexivity|].
    split; [reflexivity|].
    assert (Hprompt : trim (utf16 " لي " ++ transcript) <> [] /\
                      startsWith (trim (utf16 " لي " ++ transcript)) (utf16 "لي") = true).
    { unfold trim.
      change (trimStart (utf16 " لي " ++ transcript))
        with ([1604] ++ 1610 :: 32 :: transcript).
      destruct (trimEnd_keeps [1604] (32 :: transcript) 1610 eq_refl) as (b' & ->).
      split; [discriminate|reflexivity]. }
    destruct Hprompt as [Hsome Hstart].
    assert (Hdraw : drawPrompt (utf16 "ارسم لي " ++ transcript)
                    = trim (utf16 " لي " ++ transcript)).
    { unfold drawPrompt, orElse.
      change (utf16 "ارسم لي " ++ transcript)
        with (utf16 "ارسم" ++ utf16 " لي " ++ transcript).
      rewrite stripDrawWord_word by (vm_compute; set_solver).
      destruct (trim (utf16 " لي " ++ transcript)); [contradiction|reflexivity]. }
    rewrite Hdraw. split; [reflexivity | exact Hstart].
Qed.

Lemma dictation_after_draw_button_witness :
  isDrawRequest exampleHost (onTranscript (utf16 "قطة") drawButtonInput) = true /\
  drawPrompt (onTranscript (utf16 "قطة") drawButtonInput) = utf16 "لي قطة".
Proof.
  destruct (dictation_after_draw_button exampleHost (utf16 "قطة") drawButtonInput)
    as [Hdraw Hsaid].
  - left. reflexivity.
  - reflexivity.
  - split; [exact Hdraw|]. destruct Hsaid as (_ & Hprompt & _). exact Hprompt.
Defined.
